(** * api_discovery: JAX-RS endpoint discovery, OpenAPI and Backstage output

    A shallow embedding of [src/api_discovery.py] and the properties its
    specification states about it.

    Text is a [string] of code points below 256.  Regular expressions are
    values of [regex], run by a backtracking matcher [exec] that follows
    the matching order of Python's [re] module (ordered alternatives, greedy
    repetition, capture groups that keep their last repetition). *)

From Stdlib Require Import String Ascii List Arith Bool Lia DecimalString.
From stdpp Require Import gmap strings list fin_maps.

Import ListNotations.
Local Open Scope string_scope.

(** Concatenation of strings unfolds on a constructor, as it does for lists. *)
Arguments String.append !s1 s2 : simpl nomatch.

(** ** Strings *)

Module Str.

(** The double quote, written by its code point. *)
Definition dq_char : ascii := ascii_of_nat 34.
Definition dq : string := String dq_char "".

Definition len (s : string) : nat := String.length s.

(** [take n s] is Python's [s[:n]] and [drop n s] is [s[n:]]. *)
Fixpoint take (n : nat) (s : string) : string :=
  match n, s with
  | S n', String a s' => String a (take n' s')
  | _, _ => ""
  end.

Fixpoint drop (n : nat) (s : string) : string :=
  match n, s with
  | S n', String _ s' => drop n' s'
  | _, _ => s
  end.

Fixpoint rev_onto (s acc : string) : string :=
  match s with
  | "" => acc
  | String a s' => rev_onto s' (String a acc)
  end.

Definition rev (s : string) : string := rev_onto s "".

Fixpoint starts_with (p s : string) : bool :=
  match p, s with
  | "", _ => true
  | String a p', String b s' => Ascii.eqb a b && starts_with p' s'
  | String _ _, "" => false
  end.

(** Python's [sub in s] on strings. *)
Fixpoint contains (sub s : string) : bool :=
  starts_with sub s ||
  match s with
  | "" => false
  | String _ s' => contains sub s'
  end.

(** Python's [s.lstrip(c)] and [s.rstrip(c)] for a one-character set. *)
Fixpoint lstrip (c : ascii) (s : string) : string :=
  match s with
  | String a s' => if Ascii.eqb a c then lstrip c s' else s
  | "" => ""
  end.

Definition rstrip (c : ascii) (s : string) : string :=
  rev (lstrip c (rev s)).

(** Python's [s.lower()] on a text of code points below 256, where it maps
    code point to code point; a text with a code point that [lower] turns
    into several (as U+0130) is outside the texts of this development. *)
Definition lower_char (a : ascii) : ascii :=
  let n := nat_of_ascii a in
  if ((65 <=? n)%nat && (n <=? 90)%nat) || ((192 <=? n)%nat && (n <=? 214)%nat)
     || ((216 <=? n)%nat && (n <=? 222)%nat)
  then ascii_of_nat (n + 32) else a.

Fixpoint lower (s : string) : string :=
  match s with
  | "" => ""
  | String a s' => String (lower_char a) (lower s')
  end.

(** Python's [s.replace(a, b)] for one-character [a] and [b]. *)
Fixpoint replace_char (a b : ascii) (s : string) : string :=
  match s with
  | "" => ""
  | String c s' => String (if Ascii.eqb c a then b else c) (replace_char a b s')
  end.

(** Decimal rendering of a [len(...)] inside an f-string. *)
Definition of_nat (n : nat) : string :=
  NilEmpty.string_of_uint (Nat.to_uint n).

Definition last_char (s : string) : option ascii :=
  match rev s with
  | String a _ => Some a
  | "" => None
  end.

Definition first_char (s : string) : option ascii :=
  match s with
  | String a _ => Some a
  | "" => None
  end.

(** Every character of [s] satisfies [p]. *)
Fixpoint all (p : ascii -> bool) (s : string) : bool :=
  match s with
  | "" => true
  | String a s' => p a && all p s'
  end.

(** [c * n] *)
Fixpoint replicate (n : nat) (c : ascii) : string :=
  match n with
  | O => ""
  | S n' => String c (replicate n' c)
  end.

End Str.

(** ** Character classes of [re] on code points below 256 *)

Module CharClass.

Definition between (lo hi : nat) (a : ascii) : bool :=
  (lo <=? nat_of_ascii a)%nat && (nat_of_ascii a <=? hi)%nat.

(** [\w]: alphanumeric code points and the underscore. *)
Definition word (a : ascii) : bool :=
  between 48 57 a || between 65 90 a || between 95 95 a || between 97 122 a
  || between 170 170 a || between 178 179 a || between 181 181 a
  || between 185 186 a || between 188 190 a || between 192 214 a
  || between 216 246 a || between 248 255 a.

(** [\s]: white space. *)
Definition space (a : ascii) : bool :=
  between 9 13 a || between 28 32 a || between 133 133 a || between 160 160 a.

Definition one_of (l : list ascii) (a : ascii) : bool :=
  existsb (Ascii.eqb a) l.

Definition none_of (l : list ascii) (a : ascii) : bool :=
  negb (one_of l a).

End CharClass.

(** ** Regular expressions and the backtracking matcher *)

Module Re.

Inductive regex : Type :=
| Eps                                (* the empty pattern *)
| Chr (c : ascii)                    (* a literal character *)
| Cls (p : ascii -> bool)            (* a character class *)
| Seq (r1 r2 : regex)                (* r1r2 *)
| Alt (r1 r2 : regex)                (* r1|r2, r1 tried first *)
| Star (r : regex)                   (* r*, greedy *)
| Grp (n : nat) (r : regex).         (* capture group number n *)

Declare Scope re_scope.
Delimit Scope re_scope with re.
Bind Scope re_scope with regex.
Infix "+++" := Seq (at level 60, right associativity) : re_scope.

(** r+ and r? (both greedy). *)
Definition Plus (r : regex) : regex := Seq r (Star r).
Definition Opt (r : regex) : regex := Alt r Eps.

(** A literal run of characters. *)
Fixpoint Lit (s : string) : regex :=
  match s with
  | "" => Eps
  | String a s' => Seq (Chr a) (Lit s')
  end.

(** Captures: group number and captured text, latest binding first. *)
Definition captures : Type := list (nat * string).

Fixpoint group_of (n : nat) (c : captures) : option string :=
  match c with
  | [] => None
  | (i, t) :: c' => if Nat.eqb i n then Some t else group_of n c'
  end.

(** The text consumed between the suffix [s] and its suffix [s']. *)
Definition consumed (s s' : string) : string :=
  Str.take (Str.len s - Str.len s') s.

Definition result : Type := (string * captures)%type.

Definition or_else (a b : option result) : option result :=
  match a with
  | Some x => Some x
  | None => b
  end.

(** The loop of a greedy repetition whose body is run by [body]: one more
    iteration is tried first, and the continuation [k] when it fails.  The
    repetition goes on only after an iteration that consumed text (an empty
    iteration ends it), so a fuel above [len s] is never used up. *)
Fixpoint star_loop
    (body : string -> captures -> (string -> captures -> option result)
            -> option result)
    (k : string -> captures -> option result)
    (fuel : nat) (s : string) (caps : captures) {struct fuel} : option result :=
  match fuel with
  | O => k s caps
  | S fuel' =>
      or_else
        (body s caps
           (fun s1 c1 =>
              if (Str.len s1 <? Str.len s)%nat
              then star_loop body k fuel' s1 c1
              else k s1 c1))
        (k s caps)
  end.

(** [exec r s caps k] matches [r] at the start of [s] and hands the rest of
    the text and the captures to the continuation [k]; when [k] fails the
    matcher backtracks into [r]. *)
Fixpoint exec (r : regex) (s : string) (caps : captures)
    (k : string -> captures -> option result) {struct r} : option result :=
  match r with
  | Eps => k s caps
  | Chr c =>
      match s with
      | String a s' => if Ascii.eqb a c then k s' caps else None
      | "" => None
      end
  | Cls p =>
      match s with
      | String a s' => if p a then k s' caps else None
      | "" => None
      end
  | Seq r1 r2 => exec r1 s caps (fun s1 c1 => exec r2 s1 c1 k)
  | Alt r1 r2 => or_else (exec r1 s caps k) (exec r2 s caps k)
  | Star r1 => star_loop (exec r1) k (S (Str.len s)) s caps
  | Grp n r1 =>
      exec r1 s caps (fun s1 c1 => k s1 ((n, consumed s s1) :: c1))
  end.

(** A match object: [start()], [end()], [group(0)] and the groups. *)
Record Match : Type := mkMatch {
  m_start : nat;
  m_end : nat;
  m_text : string;
  m_caps : captures
}.

Definition group (n : nat) (m : Match) : option string :=
  match n with
  | O => Some (m_text m)
  | _ => group_of n (m_caps m)
  end.

(** One attempt at the start of [s]; with [must_advance] an empty match is
    refused (the iterator sets it after an empty match). *)
Definition match_at (r : regex) (s : string) (must_advance : bool)
  : option result :=
  exec r s []
    (fun s' c =>
       if must_advance && (Str.len s' =? Str.len s)%nat then None
       else Some (s', c)).

(** Leftmost match at or after the start of [s], which is at offset [pos]. *)
Fixpoint search_from (r : regex) (pos : nat) (s : string)
    (must_advance : bool) : option (Match * string) :=
  match match_at r s must_advance with
  | Some (rest, c) =>
      let t := consumed s rest in
      Some (mkMatch pos (pos + Str.len t) t c, rest)
  | None =>
      match s with
      | "" => None
      | String _ s' => search_from r (S pos) s' false
      end
  end.

(** [re.search(r, s)]. *)
Definition search (r : regex) (s : string) : option Match :=
  fst <$> search_from r 0 s false.

Fixpoint finditer_from (fuel : nat) (r : regex) (pos : nat) (s : string)
    (must_advance : bool) : list Match :=
  match fuel with
  | O => []
  | S fuel' =>
      match search_from r pos s must_advance with
      | None => []
      | Some (m, rest) =>
          m :: finditer_from fuel' r (m_end m) rest (m_end m =? m_start m)%nat
      end
  end.

(** [re.finditer(r, s)], as the list of its matches.  Every step either
    consumes text or follows an empty match, so [2 * len s + 2] steps are
    enough. *)
Definition finditer (r : regex) (s : string) : list Match :=
  finditer_from (2 * Str.len s + 2) r 0 s false.

(** [re.findall(r, s)] for a pattern with exactly one group. *)
Definition findall1 (r : regex) (s : string) : list string :=
  (fun m => default "" (group 1 m)) <$> finditer r s.

(** *** Matching on a known prefix of the text

    [pexec r pre caps k] runs [r] on the known prefix [pre] of a text whose
    remainder is not known: the verdict is [Dead] when no attempt succeeds
    whatever follows, [Hit] when the first successful attempt ends inside the
    prefix whatever follows, and [Unknown] as soon as an attempt needs a
    character after the prefix. *)
Inductive verdict : Type :=
| Dead
| Unknown
| Hit (rest : string) (caps : captures).

Fixpoint ploop
    (body : string -> captures -> (string -> captures -> verdict) -> verdict)
    (k : string -> captures -> verdict)
    (fuel : nat) (pre : string) (caps : captures) {struct fuel} : verdict :=
  match fuel with
  | O => Unknown
  | S fuel' =>
      match body pre caps
              (fun s1 c1 =>
                 if (Str.len s1 <? Str.len pre)%nat
                 then ploop body k fuel' s1 c1
                 else k s1 c1)
      with
      | Dead => k pre caps
      | v => v
      end
  end.

Fixpoint pexec (r : regex) (pre : string) (caps : captures)
    (k : string -> captures -> verdict) {struct r} : verdict :=
  match r with
  | Eps => k pre caps
  | Chr c =>
      match pre with
      | String a s' => if Ascii.eqb a c then k s' caps else Dead
      | "" => Unknown
      end
  | Cls p =>
      match pre with
      | String a s' => if p a then k s' caps else Dead
      | "" => Unknown
      end
  | Seq r1 r2 => pexec r1 pre caps (fun s1 c1 => pexec r2 s1 c1 k)
  | Alt r1 r2 =>
      match pexec r1 pre caps k with
      | Dead => pexec r2 pre caps k
      | v => v
      end
  | Star r1 => ploop (pexec r1) k (S (Str.len pre)) pre caps
  | Grp n r1 =>
      pexec r1 pre caps (fun s1 c1 => k s1 ((n, consumed pre s1) :: c1))
  end.

(** What a verdict on a prefix says of the answer [o] of the matcher on a
    text made of the prefix and of [T]. *)
Definition agrees (T : string) (v : verdict) (o : option result) : Prop :=
  match v with
  | Dead => o = None
  | Unknown => True
  | Hit s2 c2 => o = Some (s2 ++ T, c2)
  end.

(** One attempt at the start of the known prefix. *)
Definition pmatch_at (r : regex) (pre : string) : verdict :=
  pexec r pre [] Hit.

(** No attempt succeeds at any of the first [n] positions of the prefix. *)
Fixpoint dead_upto (r : regex) (n : nat) (pre : string) : bool :=
  match n, pre with
  | O, _ => true
  | S n', String _ pre' =>
      match pmatch_at r pre with
      | Dead => dead_upto r n' pre'
      | _ => false
      end
  | S _, "" => false
  end.

End Re.

(** ** The patterns of the analyzer

    Each pattern is quoted in its comment token by token, the tokens
    separated by blanks and the double quote written [dq]. *)

Module Pat.
Import Re.
Local Open Scope re_scope.

Definition w : regex := Cls CharClass.word.                   (* \w *)
Definition sp : regex := Cls CharClass.space.                 (* \s *)
Definition quote : regex :=                                  (* [dq \'] *)
  Cls (CharClass.one_of [Str.dq_char; "'"%char]).
Definition not_quote : regex :=                              (* [^ dq \'] *)
  Cls (CharClass.none_of [Str.dq_char; "'"%char]).
Definition not_rparen : regex :=                             (* [^)] *)
  Cls (CharClass.none_of [")"%char]).
Definition sp_or_nl : regex :=                               (* [\s\n] *)
  Cls (fun a => CharClass.space a || Ascii.eqb a "010"%char).

(** [dq \'] ( [^ dq \']+ ) [dq \'], its group numbered [n]. *)
Definition quoted (n : nat) : regex :=
  quote +++ Grp n (Plus not_quote) +++ quote.

(** @Path \s* \( \s* [dq \'] ( [^ dq \']+ ) [dq \'] \s* \) *)
Definition path_pattern : regex :=
  Lit "@Path" +++ Star sp +++ Chr "(" +++ Star sp +++ quoted 1 +++ Star sp
  +++ Chr ")".

(** @Path \s* \( \s* [dq \'] ( [^ dq \']+ ) [dq \'] \s* \) \s*
    (?: public \s+ )? class *)
Definition class_pattern : regex :=
  Lit "@Path" +++ Star sp +++ Chr "(" +++ Star sp +++ quoted 1 +++ Star sp
  +++ Chr ")" +++ Star sp +++ Opt (Lit "public" +++ Plus sp) +++ Lit "class".

(** public \s+ class \s+ \w+ *)
Definition class_decl_pattern : regex :=
  Lit "public" +++ Plus sp +++ Lit "class" +++ Plus sp +++ Plus w.

(** public \s+ class \s+ ( \w+ ) *)
Definition class_name_pattern : regex :=
  Lit "public" +++ Plus sp +++ Lit "class" +++ Plus sp +++ Grp 1 (Plus w).

(** The five patterns of [_is_jaxrs_resource]:
    @Path \s* \( and @GET [\s\n] and @POST [\s\n] and @PUT [\s\n] and
    @DELETE [\s\n]. *)
Definition jaxrs_patterns : list regex :=
  [ Lit "@Path" +++ Star sp +++ Chr "(";
    Lit "@GET" +++ sp_or_nl;
    Lit "@POST" +++ sp_or_nl;
    Lit "@PUT" +++ sp_or_nl;
    Lit "@DELETE" +++ sp_or_nl ].

(** One repetition of the first group of [method_pattern]:
    @ \w+ \s* (?: \( [^)]* \) )? \s* *)
Definition annotation_block : regex :=
  Chr "@" +++ Plus w +++ Star sp
  +++ Opt (Chr "(" +++ Star not_rparen +++ Chr ")") +++ Star sp.

(** The part of [method_pattern] after its first group:
    \s* public \s+ \w+ \s+ ( \w+ ) \s* \( [^)]* \) *)
Definition signature_tail : regex :=
  Star sp +++ Lit "public" +++ Plus sp +++ Plus w +++ Plus sp
  +++ Grp 2 (Plus w) +++ Star sp +++ Chr "(" +++ Star not_rparen +++ Chr ")".

(** ( @ \w+ \s* (?: \( [^)]* \) )? \s* )*
    \s* public \s+ \w+ \s+ ( \w+ ) \s* \( [^)]* \) *)
Definition method_pattern : regex :=
  Star (Grp 1 annotation_block) +++ signature_tail.

(** The f-string pattern of [_extract_media_types].  The source splices
    [annotation_type] into the text of the pattern, so this definition, which
    takes it as a literal, is the pattern of the source for an
    [annotation_type] without a character that is special in a pattern, as
    the two values the source passes, @Consumes and @Produces:
    annotation_type \s* \( \s* \{? \s* ( [^)]+ ) \s* \}? \s* \) *)
Definition media_pattern (annotation_type : string) : regex :=
  Lit annotation_type +++ Star sp +++ Chr "(" +++ Star sp +++ Opt (Chr "{")
  +++ Star sp +++ Grp 1 (Plus not_rparen) +++ Star sp +++ Opt (Chr "}")
  +++ Star sp +++ Chr ")".

(** [dq \'] ( [^ dq \']+ ) [dq \'] *)
Definition media_literal : regex := quoted 1.

(** @ ( \w+ Param ) \s* \( \s* [dq \'] ( [^ dq \']+ ) [dq \'] \s* \)
    \s+ ( \w+ ) \s+ ( \w+ ) *)
Definition param_pattern : regex :=
  Chr "@" +++ Grp 1 (Plus w +++ Lit "Param") +++ Star sp +++ Chr "("
  +++ Star sp +++ quoted 2 +++ Star sp +++ Chr ")" +++ Plus sp
  +++ Grp 3 (Plus w) +++ Plus sp +++ Grp 4 (Plus w).

End Pat.

(** ** The data model *)

Inductive HttpMethod : Type := GET | POST | PUT | DELETE | PATCH | HEAD | OPTIONS.

(** [HttpMethod.value] *)
Definition value (m : HttpMethod) : string :=
  match m with
  | GET => "GET" | POST => "POST" | PUT => "PUT" | DELETE => "DELETE"
  | PATCH => "PATCH" | HEAD => "HEAD" | OPTIONS => "OPTIONS"
  end.

Definition HttpMethod_eqb (a b : HttpMethod) : bool :=
  String.eqb (value a) (value b).

(** The dataclass [Parameter]. *)
Record Param : Type := mkParam {
  name : string;
  in_ : string;
  type_ : string;
  required : bool;
  param_description : string
}.

(** The dataclass [Endpoint]; [request_body] and [responses] are never set
    by the analyzer and keep their defaults. *)
Record Endpoint : Type := mkEndpoint {
  path : string;
  method : HttpMethod;
  operation_id : string;
  summary : string;
  description : string;
  parameters : list Param;
  request_body : option (gmap string string);
  responses : gmap string (gmap string string);
  consumes : list string;
  produces : list string;
  tags : list string
}.

(** The dataclass [APIResource]. *)
Record APIResource : Type := mkAPIResource {
  class_name : string;
  base_path : string;
  endpoints : list Endpoint;
  resource_description : string
}.

(** ** JaxRSAnalyzer: the extraction functions *)

Inductive annotation_value : Type :=
| AStr (s : string)
| AMethod (m : HttpMethod).

(** The class attribute [JAX_RS_ANNOTATIONS], in its insertion order. *)
Definition JAX_RS_ANNOTATIONS : list (string * annotation_value) :=
  [ ("@Path", AStr "path");
    ("@GET", AMethod GET);
    ("@POST", AMethod POST);
    ("@PUT", AMethod PUT);
    ("@DELETE", AMethod DELETE);
    ("@HEAD", AMethod HEAD);
    ("@OPTIONS", AMethod OPTIONS);
    ("@PATCH", AMethod PATCH);
    ("@Consumes", AStr "consumes");
    ("@Produces", AStr "produces");
    ("@PathParam", AStr "path");
    ("@QueryParam", AStr "query");
    ("@HeaderParam", AStr "header");
    ("@CookieParam", AStr "cookie");
    ("@FormParam", AStr "formData") ].

Fixpoint assoc {V : Type} (key : string) (d : list (string * V)) : option V :=
  match d with
  | [] => None
  | (k0, v) :: d' => if String.eqb k0 key then Some v else assoc key d'
  end.

(** [JAX_RS_ANNOTATIONS[key]] where the value is used as a string; the
    lookup is only made for the four keys of the kind filter, all present
    with a string value. *)
Definition annotation_str (key : string) : string :=
  match assoc key JAX_RS_ANNOTATIONS with
  | Some (AStr s) => s
  | _ => ""
  end.

Definition _is_jaxrs_resource (content : string) : bool :=
  existsb (fun pattern => bool_decide (is_Some (Re.search pattern content)))
    Pat.jaxrs_patterns.

Definition _extract_class_name (content : string) : string :=
  match Re.search Pat.class_name_pattern content with
  | Some m => default "" (Re.group 1 m)
  | None => "Unknown"
  end.

Definition _extract_class_path (content : string) : option string :=
  match Re.search Pat.class_pattern content with
  | Some m => Re.group 1 m
  | None =>
      match Re.search Pat.path_pattern content with
      | Some path_match =>
          let path_pos := Re.m_end path_match in
          match Re.search Pat.class_decl_pattern (Str.drop path_pos content) with
          | Some class_match =>
              if (Re.m_start class_match <? 100)%nat
              then Re.group 1 path_match
              else None
          | None => None
          end
      | None => None
      end
  end.

Fixpoint first_http_method (items : list (string * annotation_value))
    (annotations : string) : option HttpMethod :=
  match items with
  | [] => None
  | (annotation, AMethod m) :: items' =>
      if Str.contains annotation annotations then Some m
      else first_http_method items' annotations
  | (_, AStr _) :: items' => first_http_method items' annotations
  end.

Definition _extract_http_method (annotations : string) : option HttpMethod :=
  first_http_method JAX_RS_ANNOTATIONS annotations.

Definition _extract_method_path (annotations : string) : string :=
  match Re.search Pat.path_pattern annotations with
  | Some m => default "" (Re.group 1 m)
  | None => ""
  end.

Definition _extract_media_types (annotations annotation_type : string)
  : list string :=
  match Re.search (Pat.media_pattern annotation_type) annotations with
  | Some m =>
      let media_types := default "" (Re.group 1 m) in
      Re.findall1 Pat.media_literal media_types
  | None => []
  end.

(** The dictionary [type_mapping]. *)
Definition type_mapping : gmap string string :=
  list_to_map
    [ ("String", "string"); ("int", "integer"); ("Integer", "integer");
      ("long", "integer"); ("Long", "integer"); ("float", "number");
      ("Float", "number"); ("double", "number"); ("Double", "number");
      ("boolean", "boolean"); ("Boolean", "boolean"); ("Date", "string");
      ("LocalDate", "string"); ("LocalDateTime", "string") ].

Definition _map_java_to_openapi_type (java_type : string) : string :=
  default "string" (type_mapping !! java_type).

(** The body of the loop of [_extract_parameters]: what one match of the
    parameter pattern adds to the list. *)
Definition parameter_of_match (m : Re.Match) : list Param :=
  let param_type := default "" (Re.group 1 m) in
  let param_name := default "" (Re.group 2 m) in
  let java_type := default "" (Re.group 3 m) in
  if existsb (String.eqb param_type)
       ["PathParam"; "QueryParam"; "HeaderParam"; "CookieParam"]
  then
    let in_ := annotation_str ("@" ++ param_type) in
    let openapi_type := _map_java_to_openapi_type java_type in
    [ mkParam param_name in_ openapi_type (String.eqb in_ "path") "" ]
  else [].

Definition _extract_parameters (method_signature content : string)
  : list Param :=
  concat (parameter_of_match <$> Re.finditer Pat.param_pattern method_signature).

(** Python's truth value of an optional string. *)
Definition truthy (s : option string) : bool :=
  match s with
  | Some (String _ _) => true
  | _ => false
  end.

Definition _combine_paths (base_path : option string) (method_path : string)
  : string :=
  if negb (truthy base_path) then
    (if truthy (Some method_path) then method_path else "/")
  else if negb (truthy (Some method_path)) then default "" base_path
  else
    let base := Str.rstrip "/" (default "" base_path) in
    let method := Str.lstrip "/" method_path in
    base ++ "/" ++ method.

(** [x or ["application/json"]] on a list. *)
Definition or_json (l : list string) : list string :=
  match l with
  | [] => ["application/json"]
  | _ => l
  end.

(** [match.group(1) or ""] *)
Definition annotations_of (m : Re.Match) : string :=
  default "" (Re.group 1 m).

(** The body of the loop of [_extract_endpoints]: the endpoint one match of
    the method pattern gives, or [None] where the loop continues. *)
Definition endpoint_of_match (content : string) (base_path : option string)
    (m : Re.Match) : option Endpoint :=
  let annotations := annotations_of m in
  let method_name := default "" (Re.group 2 m) in
  match _extract_http_method annotations with
  | None => None
  | Some http_method =>
      let method_path := _extract_method_path annotations in
      let full_path := _combine_paths base_path method_path in
      let parameters := _extract_parameters (Re.m_text m) content in
      let consumes := _extract_media_types annotations "@Consumes" in
      let produces := _extract_media_types annotations "@Produces" in
      Some (mkEndpoint full_path http_method method_name "" "" parameters
              None ∅ (or_json consumes) (or_json produces) [])
  end.

Definition _extract_endpoints (content : string) (base_path : option string)
  : list Endpoint :=
  omap (endpoint_of_match content base_path)
    (Re.finditer Pat.method_pattern content).

(** ** The world of a run: files, printed lines, list objects *)

(** A file that [rglob] yields: its path and what opening and reading it
    gives, the text or the message of the exception raised. *)
Record JavaFile : Type := mkJavaFile {
  file_path : string;
  file_read : string + string
}.

Module OpenAPI.

Record Info : Type := mkInfo {
  title : string;
  version : string;
  info_description : string
}.

Record Server : Type := mkServer {
  url : string;
  server_description : string
}.

(** [{"type": t}] *)
Record Schema : Type := mkSchema { schema_type : string }.

(** [{"schema": s}] *)
Record MediaType : Type := mkMediaType { schema : Schema }.

Record Response : Type := mkResponse {
  response_description : string;
  content : gmap string MediaType
}.

Record ParameterObject : Type := mkParameterObject {
  po_name : string;
  po_in : string;
  po_required : bool;
  po_schema : Schema
}.

Record RequestBody : Type := mkRequestBody {
  rb_content : gmap string MediaType
}.

(** An operation; the keys [parameters] and [requestBody] may be absent. *)
Record Operation : Type := mkOperation {
  operationId : string;
  op_summary : string;
  op_tags : list string;
  op_responses : gmap string Response;
  op_parameters : option (list ParameterObject);
  requestBody : option RequestBody
}.

(** The document; dictionaries with computed keys are finite maps, so the
    order of their keys is not kept. *)
Record Spec : Type := mkSpec {
  openapi : string;
  info : Info;
  servers : list Server;
  paths : gmap string (gmap string Operation)
}.

End OpenAPI.

Module Backstage.

Record Metadata : Type := mkMetadata {
  md_name : string;
  md_title : string;
  md_description : string;
  md_annotations : gmap string string
}.

Record Spec : Type := mkSpec {
  spec_type : string;
  lifecycle : string;
  owner : string;
  system : string;
  definition : string
}.

Record Entry : Type := mkEntry {
  apiVersion : string;
  kind : string;
  metadata : Metadata;
  spec : Spec
}.

End Backstage.

(** What [yaml.dump] is given to write. *)
Inductive Document : Type :=
| DOpenAPI (d : OpenAPI.Spec)
| DCatalog (c : Backstage.Entry).

(** The effects of a run, in order. *)
Inductive event : Type :=
| Makedirs (dir : string)                   (* os.makedirs(dir, exist_ok=True) *)
| Print (line : string)                     (* print(line) *)
| Dump (file : string) (doc : Document)     (* open(file, 'w') and yaml.dump *)
| Truncated (file : string).                (* open(file, 'w'), yaml.dump raised *)

(** A reference to a list object of the Python heap. *)
Definition ref : Type := nat.

Record World : Type := mkWorld {
  rglob_java : string -> list JavaFile;     (* Path(root).rglob of *.java *)
  heap : gmap ref (list APIResource);
  trace : list event
}.

(** The state monad of the run. *)
Definition M (A : Type) : Type := World -> A * World.

Definition ret {A : Type} (a : A) : M A := fun w => (a, w).

Definition bind {A B : Type} (m : M A) (f : A -> M B) : M B :=
  fun w => let (a, w') := m w in f a w'.

Declare Scope run_scope.
Delimit Scope run_scope with run.
Notation "'do' x <- m ; k" := (bind m (fun x => k))
  (at level 10, x name, m at level 100, k at level 200) : run_scope.
Notation "m >> k" := (bind m (fun _ => k))
  (at level 90, right associativity) : run_scope.

Definition emit (e : event) : M unit :=
  fun w => (tt, mkWorld (rglob_java w) (heap w) (trace w ++ [e])%list).

Definition print (line : string) : M unit := emit (Print line).

(** A fresh empty list object. *)
Definition new_list : M ref :=
  fun w =>
    let r := fresh (dom (heap w)) in
    (r, mkWorld (rglob_java w) (<[r := []]> (heap w)) (trace w)).

Definition read_list (r : ref) : M (list APIResource) :=
  fun w => (default [] (heap w !! r), w).

(** [l.append(x)] on the list object [r]. *)
Definition list_append (r : ref) (x : APIResource) : M unit :=
  fun w =>
    (tt, mkWorld (rglob_java w)
           (<[r := (default [] (heap w !! r) ++ [x])%list]> (heap w)) (trace w)).

Definition rglob (root : string) : M (list JavaFile) :=
  fun w => (rglob_java w root, w).

(** [for x in l: body x] *)
Fixpoint for_each {A : Type} (l : list A) (body : A -> M unit) : M unit :=
  match l with
  | [] => ret tt
  | x :: l' => bind (body x) (fun _ => for_each l' body)
  end.

(** ** JaxRSAnalyzer: the object and its analysis *)

Local Open Scope run_scope.

Record JaxRSAnalyzer : Type := mkJaxRSAnalyzer {
  repo_path : string;
  resources : ref
}.

(** [JaxRSAnalyzer(repo_path)] *)
Definition JaxRSAnalyzer_init (repo_path : string) : M JaxRSAnalyzer :=
  do r <- new_list;
  ret (mkJaxRSAnalyzer repo_path r).

Definition _find_java_files (self : JaxRSAnalyzer) : M (list JavaFile) :=
  rglob (repo_path self).

(** What [_analyze_java_file] does with the text it has read. *)
Definition analyze_content (content : string) : option APIResource :=
  if negb (_is_jaxrs_resource content) then None
  else
    let class_name := _extract_class_name content in
    let base_path := _extract_class_path content in
    let endpoints := _extract_endpoints content base_path in
    Some (mkAPIResource class_name (default "" base_path) endpoints "").

Definition _analyze_java_file (self : JaxRSAnalyzer) (file : JavaFile)
  : M (option APIResource) :=
  match file_read file with
  | inl content => ret (analyze_content content)
  | inr e =>
      print ("Error analyzing " ++ file_path file ++ ": " ++ e) >>
      ret None
  end.

Definition analyze (self : JaxRSAnalyzer) : M ref :=
  do java_files <- _find_java_files self;
  for_each java_files (fun java_file =>
    do resource <- _analyze_java_file self java_file;
    match resource with
    | Some r =>
        match endpoints r with
        | [] => ret tt
        | _ :: _ => list_append (resources self) r
        end
    | None => ret tt
    end) >>
  ret (resources self).

(** ** OpenAPIGenerator *)

Record OpenAPIGenerator : Type := mkOpenAPIGenerator {
  api_resources : ref
}.

Definition object_schema : OpenAPI.MediaType :=
  OpenAPI.mkMediaType (OpenAPI.mkSchema "object").

(** [{media_type: {"schema": {"type": "object"}} for media_type in l}] *)
Definition media_content (l : list string) : gmap string OpenAPI.MediaType :=
  fold_left (fun d media_type => <[media_type := object_schema]> d) l ∅.

Definition parameter_object (param : Param) : OpenAPI.ParameterObject :=
  OpenAPI.mkParameterObject (name param) (in_ param) (required param)
    (OpenAPI.mkSchema (type_ param)).

(** The dictionary [operation] built for one endpoint of [resource]. *)
Definition operation_of (resource : APIResource) (endpoint : Endpoint)
  : OpenAPI.Operation :=
  OpenAPI.mkOperation
    (operation_id endpoint)
    (if truthy (Some (summary endpoint)) then summary endpoint
     else value (method endpoint) ++ " " ++ path endpoint)
    [class_name resource]
    {[ "200" := OpenAPI.mkResponse "Successful response"
                  (media_content (produces endpoint)) ]}
    (match parameters endpoint with
     | [] => None
     | _ :: _ => Some (parameter_object <$> parameters endpoint)
     end)
    (if existsb (HttpMethod_eqb (method endpoint)) [POST; PUT; PATCH]
     then match consumes endpoint with
          | [] => None
          | _ :: _ => Some (OpenAPI.mkRequestBody (media_content (consumes endpoint)))
          end
     else None).

(** The key of the operation: [endpoint.method.value.lower()]. *)
Definition method_key (endpoint : Endpoint) : string :=
  Str.lower (value (method endpoint)).

(** One turn of the inner loop of [generate] on the dictionary [paths]. *)
Definition add_endpoint (resource : APIResource)
    (paths : gmap string (gmap string OpenAPI.Operation)) (endpoint : Endpoint)
  : gmap string (gmap string OpenAPI.Operation) :=
  let paths1 :=
    if bool_decide (is_Some (paths !! path endpoint)) then paths
    else <[path endpoint := ∅]> paths in
  alter (insert (method_key endpoint) (operation_of resource endpoint))
    (path endpoint) paths1.

Definition add_resource
    (paths : gmap string (gmap string OpenAPI.Operation)) (resource : APIResource)
  : gmap string (gmap string OpenAPI.Operation) :=
  fold_left (add_endpoint resource) (endpoints resource) paths.

(** [generate] on the list that [self.api_resources] holds. *)
Definition generate_from (rs : list APIResource) (title version : string)
  : OpenAPI.Spec :=
  OpenAPI.mkSpec "3.0.0"
    (OpenAPI.mkInfo title version "Auto-discovered API from JAX-RS annotations")
    [ OpenAPI.mkServer "http://localhost:8080" "Local development server" ]
    (fold_left add_resource rs ∅).

Definition generate (self : OpenAPIGenerator) (title version : string)
  : M OpenAPI.Spec :=
  do rs <- read_list (api_resources self);
  ret (generate_from rs title version).

(** *** The operating system

    What the calls of [os], [open] and [yaml.dump] do where the program
    runs: the two tests on a path, and for each call that may raise, the
    message of the exception it raises on its argument, or [None] where it
    succeeds. *)
Record OS : Type := mkOS {
  path_exists : string -> bool;              (* os.path.exists *)
  path_isdir : string -> bool;               (* os.path.isdir *)
  makedirs_error : string -> option string;  (* os.makedirs(dir, exist_ok=True) *)
  open_error : string -> option string;      (* open(file, 'w') *)
  dump_error : string -> option string       (* yaml.dump into the open file *)
}.

(** A step that may raise gives the message of the exception, or [None];
    [or_raise m k] goes on with [k] where [m] did not raise. *)
Definition or_raise (m k : M (option string)) : M (option string) :=
  do r <- m;
  match r with
  | Some e => ret (Some e)
  | None => k
  end.

(** [os.makedirs(dir, exist_ok=True)] *)
Definition makedirs (os : OS) (dir : string) : M (option string) :=
  match makedirs_error os dir with
  | Some e => ret (Some e)
  | None => emit (Makedirs dir) >> ret None
  end.

(** [save_to_file] of both generators: the file is opened for writing, which
    creates or empties it, and the document is dumped into it. *)
Definition save_to_file (os : OS) (doc : Document) (output_path : string)
  : M (option string) :=
  match open_error os output_path with
  | Some e => ret (Some e)
  | None =>
      match dump_error os output_path with
      | Some e => emit (Truncated output_path) >> ret (Some e)
      | None => emit (Dump output_path doc) >> ret None
      end
  end.

(** ** BackstageGenerator *)

Record BackstageGenerator : Type := mkBackstageGenerator {
  bs_api_resources : ref
}.

Definition backstage_generate (self : BackstageGenerator)
    (api_name openapi_path : string) : Backstage.Entry :=
  Backstage.mkEntry "backstage.io/v1alpha1" "API"
    (Backstage.mkMetadata
       (Str.replace_char " " "-" (Str.lower api_name))
       api_name
       "Auto-discovered JAX-RS API"
       {[ "backstage.io/source-location" :=
            "url:https://github.com/your-org/your-repo" ]})
    (Backstage.mkSpec "openapi" "production" "team-unknown" "unknown-system"
       ("$text: ./" ++ openapi_path)).

(** ** main *)

(** [os.path.join(a, b)] for a relative [b]. *)
Definition os_path_join (a b : string) : string :=
  match Str.last_char a with
  | None => b
  | Some c => if Ascii.eqb c "/" then a ++ b else a ++ "/" ++ b
  end.

(** [main]; its result is the message of the exception that ends it, or
    [None] where it returns. *)
Definition main (os : OS) (repo_path output_dir : string) : M (option string) :=
  or_raise (makedirs os output_dir) (
  print ("Analyzing repository: " ++ repo_path) >>
  do analyzer <- JaxRSAnalyzer_init repo_path;
  do api_resources <- analyze analyzer;
  do found <- read_list api_resources;
  match found with
  | [] => print "No JAX-RS APIs found in the repository" >> ret None
  | _ :: _ =>
      print ("Found " ++ Str.of_nat (length found) ++ " API resources") >>
      for_each found (fun resource =>
        print ("  - " ++ class_name resource ++ ": "
               ++ Str.of_nat (length (endpoints resource)) ++ " endpoints")) >>
      let openapi_gen := mkOpenAPIGenerator api_resources in
      do openapi_spec <- generate openapi_gen "My JAX-RS API" "1.0.0";
      let openapi_path := os_path_join output_dir "openapi.yaml" in
      or_raise (save_to_file os (DOpenAPI openapi_spec) openapi_path) (
      print ("Generated OpenAPI spec: " ++ openapi_path) >>
      let backstage_gen := mkBackstageGenerator api_resources in
      let catalog := backstage_generate backstage_gen "My JAX-RS API" "openapi.yaml" in
      let catalog_path := os_path_join output_dir "catalog-info.yaml" in
      or_raise (save_to_file os (DCatalog catalog) catalog_path) (
      print ("Generated Backstage catalog: " ++ catalog_path) >>
      ret None))
  end).

(** The files written during a run, read off its trace. *)
Definition files_written (t : list event) : list string :=
  omap (fun e => match e with Dump f _ => Some f | _ => None end) t.


Definition printed (t : list event) : list string :=
  omap (fun e => match e with Print l => Some l | _ => None end) t.

(** ** The script: the block run when the file is executed

    [sys.exit(1)] ends the script with the status 1, an exception that
    [main] does not catch ends it with the status 1 too, and the end of the
    block with the status 0. *)
Definition script (os : OS) (argv : list string) : M nat :=
  match argv with
  | [] | [_] =>
      print "Usage: python api_discovery.py <repository_path> [output_directory]" >>
      print "Example: python api_discovery.py ./my-java-repo ./output" >>
      ret 1
  | _ :: repo_path :: more =>
      let output_dir :=
        match more with
        | output_dir :: _ => output_dir
        | [] => "./output"
        end in
      if negb (path_exists os repo_path) then
        print ("Error: Repository path '" ++ repo_path ++ "' does not exist") >>
        ret 1
      else if negb (path_isdir os repo_path) then
        print ("Error: Repository path '" ++ repo_path ++ "' is not a directory") >>
        ret 1
      else
        do raised <- main os repo_path output_dir;
        match raised with
        | Some _ => ret 1
        | None => ret 0
        end
  end.

(** A world at the start of a run: no list object yet, nothing done. *)
Definition initial_world (files : string -> list JavaFile) : World :=
  mkWorld files ∅ [].

(** ** Notions used to state the properties *)

(** The markers of the seven HTTP methods. *)
Definition http_markers : list string :=
  ["@GET"; "@POST"; "@PUT"; "@DELETE"; "@PATCH"; "@HEAD"; "@OPTIONS"].

Definition has_http_marker (annotations : string) : bool :=
  existsb (fun marker => Str.contains marker annotations) http_markers.

(** The literal texts the five patterns of [_is_jaxrs_resource] start
    with, and a text that holds none of them. *)
Definition qualifying_markers : list string :=
  ["@Path"; "@GET"; "@POST"; "@PUT"; "@DELETE"].

Definition lacks_markers (content : string) : bool :=
  forallb (fun marker => negb (Str.contains marker content)) qualifying_markers.

(** The four locations of a collected parameter. *)
Definition collected_locations : list string :=
  ["path"; "query"; "header"; "cookie"].

(** The required flag agrees with the location. *)
Definition required_by_location (p : Param) : Prop :=
  (in_ p = "path" -> required p = true)
  /\ (In (in_ p) ["query"; "header"; "cookie"] -> required p = false).

(** The location is one of the four collected ones, and not the form one. *)
Definition collected_location (p : Param) : Prop :=
  In (in_ p) collected_locations /\ in_ p <> "formData".

(** The kind of binding a match of the parameter pattern captured. *)
Definition binding_kind (m : Re.Match) : string :=
  default "" (Re.group 1 m).

(** Sample texts. *)
Definition sample_unmarked : string :=
  "@Path(" ++ Str.dq ++ "/x" ++ Str.dq ++ ") public void f(@PathParam("
  ++ Str.dq ++ "id" ++ Str.dq ++ ") Long id)".

Definition sample_get : string := "@GET public Response list()".

Definition sample_form : string :=
  "@FormParam(" ++ Str.dq ++ "file" ++ Str.dq ++ ") String file".

Definition NL : string := String "010"%char "".



Definition not_space (a : ascii) : bool := negb (CharClass.space a).

Definition json_endpoint (p : string) (h : HttpMethod) (op : string)
  : Endpoint :=
  mkEndpoint p h op "" "" [] None ∅ ["application/json"] ["application/json"] [].

(** The resource a file contributes to the result of [analyze], if any. *)
Definition resource_of_file (file : JavaFile) : option APIResource :=
  match file_read file with
  | inl content =>
      match analyze_content content with
      | Some r => match endpoints r with [] => None | _ :: _ => Some r end
      | None => None
      end
  | inr _ => None
  end.

Definition discovered (files : list JavaFile) : list APIResource :=
  omap resource_of_file files.

(** The lines printed for the files that could not be read. *)
Definition read_errors (files : list JavaFile) : list event :=
  omap (fun file =>
          match file_read file with
          | inl _ => None
          | inr e => Some (Print ("Error analyzing " ++ file_path file ++ ": " ++ e))
          end) files.

Definition is_some_error (e : option string) : bool :=
  match e with
  | Some _ => true
  | None => false
  end.







(** The (path, operation key) pairs of a generated document. *)
Definition document_pairs (d : OpenAPI.Spec) : gset (string * string) :=
  list_to_set
    (flat_map (fun '(p, ops) => (fun '(k, _) => (p, k)) <$> map_to_list ops)
       (map_to_list (OpenAPI.paths d))).

(** [paths] has the operation key [k] under the path [p]. *)
Definition has_key (paths : gmap string (gmap string OpenAPI.Operation))
    (p k : string) : Prop :=
  exists ops, paths !! p = Some ops /\ is_Some (ops !! k).

(** The (path, lowercased method) pairs of the endpoints of a model. *)
Definition model_pairs (rs : list APIResource) : gset (string * string) :=
  list_to_set
    (flat_map (fun r => (fun e => (path e, method_key e)) <$> endpoints r) rs).

Definition nonempty (s : string) : bool := negb (String.eqb s "").

(** The text after a run of a class: empty, or starting outside the class. *)
Definition stops (p : ascii -> bool) (rest : string) : bool :=
  match rest with
  | "" => true
  | String a _ => negb (p a)
  end.

(** An annotation before a signature, by its parts: the name after the at
    sign, the blanks after it, and its parenthesised arguments with the
    blanks after them. *)
Record Block : Type := mkBlock {
  b_name : string;
  b_blank : string;
  b_args : option (string * string)
}.

Definition render (b : Block) : string :=
  "@" ++ b_name b ++ b_blank b ++
  match b_args b with
  | Some (args, blank) => "(" ++ args ++ ")" ++ blank
  | None => ""
  end.

Fixpoint render_all (bs : list Block) : string :=
  match bs with
  | [] => ""
  | b :: bs' => render b ++ render_all bs'
  end.

Definition not_rparen (a : ascii) : bool := CharClass.none_of [")"%char] a.

Definition wf_block (b : Block) : bool :=
  negb (String.eqb (b_name b) "") && Str.all CharClass.word (b_name b)
  && Str.all CharClass.space (b_blank b)
  && match b_args b with
     | Some (args, blank) =>
         Str.all not_rparen args && Str.all CharClass.space blank
     | None => true
     end.

(** The block does not end in its name: blanks or arguments follow. *)
Definition closed_block (b : Block) : bool :=
  negb (String.eqb (b_blank b) "") || bool_decide (is_Some (b_args b)).

(** The text [rest] after the block [b] does not continue it: [rest] does
    not start with a blank, and where the block has no arguments, [rest]
    does not start with a parenthesis nor, after a block that ends in its
    name, with a word character. *)
Definition follows (b : Block) (rest : string) : bool :=
  stops CharClass.space rest
  && (bool_decide (is_Some (b_args b))
      || (stops (Ascii.eqb "(") rest
          && (nonempty (b_blank b) || stops CharClass.word rest))).

(** The captures after the blocks [bs], the last block first. *)
Fixpoint block_captures (bs : list Block) (caps : Re.captures) : Re.captures :=
  match bs with
  | [] => caps
  | b :: bs' => block_captures bs' ((1, render b) :: caps)
  end.

(** A public method signature by its parts:
    public, blanks, return type, blanks, name, blanks, parameters in
    parentheses. *)
Record Signature : Type := mkSignature {
  sig_blank1 : string;
  sig_type : string;
  sig_blank2 : string;
  sig_name : string;
  sig_blank3 : string;
  sig_params : string
}.

Definition render_sig (g : Signature) : string :=
  "public" ++ sig_blank1 g ++ sig_type g ++ sig_blank2 g ++ sig_name g
  ++ sig_blank3 g ++ "(" ++ sig_params g ++ ")".


Definition wf_sig (g : Signature) : bool :=
  nonempty (sig_blank1 g) && Str.all CharClass.space (sig_blank1 g)
  && nonempty (sig_type g) && Str.all CharClass.word (sig_type g)
  && nonempty (sig_blank2 g) && Str.all CharClass.space (sig_blank2 g)
  && nonempty (sig_name g) && Str.all CharClass.word (sig_name g)
  && Str.all CharClass.space (sig_blank3 g)
  && Str.all not_rparen (sig_params g).

(** A parameter binding by its parts: the blanks after the kind, the
    quoted name with the blanks around it, the blanks after the closing
    parenthesis, the type, blanks, and the variable. *)
Record Binding : Type := mkBinding {
  bd_blank0 : string;
  bd_blank1 : string;
  bd_open : ascii;
  bd_name : string;
  bd_close : ascii;
  bd_blank2 : string;
  bd_blank3 : string;
  bd_type : string;
  bd_blank4 : string;
  bd_var : string
}.

Definition render_binding (kind : string) (d : Binding) : string :=
  "@" ++ kind ++ bd_blank0 d ++ "(" ++ bd_blank1 d
  ++ String (bd_open d) "" ++ bd_name d ++ String (bd_close d) ""
  ++ bd_blank2 d ++ ")" ++ bd_blank3 d ++ bd_type d ++ bd_blank4 d
  ++ bd_var d.

Definition is_quote (a : ascii) : bool :=
  CharClass.one_of [Str.dq_char; "'"%char] a.

Definition not_quote (a : ascii) : bool :=
  CharClass.none_of [Str.dq_char; "'"%char] a.

Definition wf_binding (d : Binding) : bool :=
  Str.all CharClass.space (bd_blank0 d)
  && Str.all CharClass.space (bd_blank1 d)
  && is_quote (bd_open d)
  && nonempty (bd_name d) && Str.all not_quote (bd_name d)
  && is_quote (bd_close d)
  && Str.all CharClass.space (bd_blank2 d)
  && nonempty (bd_blank3 d) && Str.all CharClass.space (bd_blank3 d)
  && nonempty (bd_type d) && Str.all CharClass.word (bd_type d)
  && nonempty (bd_blank4 d) && Str.all CharClass.space (bd_blank4 d)
  && nonempty (bd_var d) && Str.all CharClass.word (bd_var d).

(** The binding of [sample_form]. *)
Definition sample_binding : Binding :=
  mkBinding "" "" Str.dq_char "file" Str.dq_char "" " " "String" " " "file".

(** The head of a resource class with the class path /users, up to the
    place of the annotations of its first method. *)
Definition resource_header : string :=
  "@Path(" ++ Str.dq ++ "/users" ++ Str.dq ++ ")" ++ NL
  ++ "public class UserResource {" ++ NL
  ++ "    ".

Definition sample_signature : Signature :=
  mkSignature " " "Response" " " "foo" "" "".

(** A resource class with the class path /users whose first method is
    annotated with GET only: the header, the annotation and the blanks after
    it, the signature [g], and the rest of the file. *)
Definition get_method_file (blank : string) (g : Signature) (rest : string)
  : string :=
  resource_header ++ "@GET" ++ blank ++ render_sig g ++ rest.

Definition sample_user_resource : string :=
  get_method_file (NL ++ "    ") (mkSignature " " "Response" " " "list" "" "")
    (" {" ++ NL
     ++ "        return null;" ++ NL
     ++ "    }" ++ NL
     ++ "}" ++ NL).

(** A bare annotation of the HTTP method [h], followed by blanks. *)
Definition method_block (h : HttpMethod) (blank : string) : Block :=
  mkBlock (value h) blank None.

(** The HTTP methods in the order of their entries in
    [JAX_RS_ANNOTATIONS]. *)
Definition method_priority : list HttpMethod :=
  [GET; POST; PUT; DELETE; HEAD; OPTIONS; PATCH].

(** The types of the generated schema of a parameter. *)
Definition openapi_types : list string :=
  ["string"; "integer"; "number"; "boolean"].

(** A non-empty run of word characters. *)
Definition identifier (s : string) : bool :=
  nonempty s && Str.all CharClass.word s.

(** A non-empty text without quote characters. *)
Definition quotable (s : string) : bool :=
  nonempty s && Str.all not_quote s.

(** The methods for which [generate] writes a request body. *)
Definition has_body (h : HttpMethod) : bool :=
  existsb (HttpMethod_eqb h) [POST; PUT; PATCH].

(** What [generate] writes for an endpoint that comes out of the
    extractor. *)
Definition extracted_operation (r : APIResource) (e : Endpoint) : Prop :=
  let op := operation_of r e in
  OpenAPI.op_summary op = value (method e) ++ " " ++ path e
  /\ OpenAPI.requestBody op
     = (if has_body (method e)
        then Some (OpenAPI.mkRequestBody (media_content (consumes e)))
        else None)
  /\ (OpenAPI.op_parameters op = None <-> parameters e = [])
  /\ consumes e <> [] /\ produces e <> [].

Definition upper_ascii (a : ascii) : bool := CharClass.between 65 90 a.

(** [spec["paths"][p][k]] where both keys are present. *)
Definition lookup_operation
    (paths : gmap string (gmap string OpenAPI.Operation)) (p k : string)
  : option OpenAPI.Operation :=
  match paths !! p with
  | Some ops => ops !! k
  | None => None
  end.

(** The operations of a model with their keys, in the order of the loops of
    [generate]. *)
Definition model_operations (rs : list APIResource)
  : list (string * string * OpenAPI.Operation) :=
  flat_map (fun r => (fun e => (path e, method_key e, operation_of r e))
                       <$> endpoints r) rs.

(** The last operation of a list under the keys [p] and [k]. *)
Definition last_operation (p k : string)
    (ops : list (string * string * OpenAPI.Operation))
  : option OpenAPI.Operation :=
  fold_left
    (fun acc '(p', k', op) =>
       if String.eqb p' p && String.eqb k' k then Some op else acc)
    ops None.

(** *** What a pattern matches and captures

    [nullable r]: the pattern can match the empty text.  [chars_in p r]:
    every character the pattern can consume is in the class [p].
    [binds n r]: every match of the pattern sets the group [n]. *)
Fixpoint nullable (r : Re.regex) : bool :=
  match r with
  | Re.Eps => true
  | Re.Chr _ | Re.Cls _ => false
  | Re.Seq r1 r2 => nullable r1 && nullable r2
  | Re.Alt r1 r2 => nullable r1 || nullable r2
  | Re.Star _ => true
  | Re.Grp _ r1 => nullable r1
  end.

Definition all_ascii : list ascii := List.map ascii_of_nat (seq 0 256).

Definition class_within (q p : ascii -> bool) : bool :=
  forallb (fun a => implb (q a) (p a)) all_ascii.

Fixpoint chars_in (p : ascii -> bool) (r : Re.regex) : bool :=
  match r with
  | Re.Eps => true
  | Re.Chr c => p c
  | Re.Cls q => class_within q p
  | Re.Seq r1 r2 | Re.Alt r1 r2 => chars_in p r1 && chars_in p r2
  | Re.Star r1 | Re.Grp _ r1 => chars_in p r1
  end.

Fixpoint binds (n : nat) (r : Re.regex) : bool :=
  match r with
  | Re.Eps | Re.Chr _ | Re.Cls _ | Re.Star _ => false
  | Re.Seq r1 r2 => binds n r1 || binds n r2
  | Re.Alt r1 r2 => binds n r1 && binds n r2
  | Re.Grp m r1 => Nat.eqb m n || binds n r1
  end.

(** What is known of a text [u] matched by [r]. *)
Definition matched_shape (r : Re.regex) (u : string) : Prop :=
  (forall p, chars_in p r = true -> Str.all p u = true)
  /\ (nullable r = false -> nonempty u = true).

(** [Q n] holds of every text with the shape of the body of a group
    numbered [n] in [r]. *)
Fixpoint grp_sound (Q : nat -> string -> Prop) (r : Re.regex) : Prop :=
  match r with
  | Re.Eps | Re.Chr _ | Re.Cls _ => True
  | Re.Seq r1 r2 | Re.Alt r1 r2 => grp_sound Q r1 /\ grp_sound Q r2
  | Re.Star r1 => grp_sound Q r1
  | Re.Grp n r1 => grp_sound Q r1 /\ (forall u, matched_shape r1 u -> Q n u)
  end.

Definition caps_ok (Q : nat -> string -> Prop) (c : Re.captures) : Prop :=
  Forall (fun nv => Q (fst nv) (snd nv)) c.

(** What a successful run of [r], or of a repetition of [r] where [star]
    is set, hands to its continuation: a suffix of the text and captures that
    keep [Q], the text consumed having the shape of [r]. *)
Definition reaches_with (Q : nat -> string -> Prop) (r : Re.regex)
    (star : bool) (s : string) (caps : Re.captures)
    (k : string -> Re.captures -> option Re.result) (res : Re.result) : Prop :=
  exists u s1 c1,
    s = u ++ s1 /\ k s1 c1 = Some res /\ caps_ok Q c1
    /\ (forall p, chars_in p r = true -> Str.all p u = true)
    /\ (star = false -> nullable r = false -> nonempty u = true)
    /\ (forall n, (star = false /\ binds n r = true)
                  \/ is_Some (Re.group_of n caps)
                  -> is_Some (Re.group_of n c1)).

(** The group [g] holds a text for which [P] is true. *)
Definition group_is (g : nat) (P : string -> bool) (n : nat) (u : string)
  : Prop :=
  n = g -> P u = true.

(** The groups of the parameter pattern: the kind, the type and the variable
    are identifiers, the name is a non-empty text without quotes. *)
Definition param_groups (n : nat) (u : string) : Prop :=
  group_is 1 identifier n u /\ group_is 2 quotable n u
  /\ group_is 3 identifier n u /\ group_is 4 identifier n u.

(** Every text of the list is non-empty and holds no quote. *)
Definition all_quotable (l : list string) : Prop :=
  Forall (fun t => quotable t = true) l.

(** The kinds of binding [_extract_parameters] collects, each with the
    location the table gives it. *)
Definition collected_kinds : list (string * string) :=
  [ ("PathParam", "path"); ("QueryParam", "query");
    ("HeaderParam", "header"); ("CookieParam", "cookie") ].

(** The parameter a well-formed binding of a collected kind stands for. *)
Definition parameter_of_binding (loc : string) (d : Binding) : Param :=
  mkParam (bd_name d) loc (_map_java_to_openapi_type (bd_type d))
    (String.eqb loc "path") "".

(** A match object moved [pos] characters to the right. *)
Definition shift (pos : nat) (m : Re.Match) : Re.Match :=
  Re.mkMatch (pos + Re.m_start m) (pos + Re.m_end m) (Re.m_text m)
    (Re.m_caps m).

Definition not_at (a : ascii) : bool := negb (Ascii.eqb a "@").

(** Sample texts: a binding of the path kind, and an interface whose
    method has no modifier. *)
Definition sample_path_binding : Binding :=
  mkBinding "" "" Str.dq_char "id" Str.dq_char "" " " "Long" " " "id".

Definition sample_interface : string :=
  "@Path(" ++ Str.dq ++ "/users" ++ Str.dq ++ ")" ++ NL
  ++ "interface UserApi {" ++ NL
  ++ "    @GET" ++ NL
  ++ "    Response list();" ++ NL
  ++ "}" ++ NL.

(** The command line is accepted: a repository path is given, and it is
    an existing directory. *)
Definition accepted (os : OS) (argv : list string) : bool :=
  match argv with
  | _ :: repo_path :: _ => path_exists os repo_path && path_isdir os repo_path
  | _ => false
  end.

(** The output directory of a command line. *)
Definition output_dir_of (argv : list string) : string :=
  nth 2 argv "./output".

(** The events are printed lines only. *)
Definition only_prints (t : list event) : bool :=
  forallb (fun e => match e with Print _ => true | _ => false end) t.

(** A sample text whose values are constants, not literals. *)
Definition sample_constants : string :=
  "@Path(Paths.USERS) @Produces(MediaType.TEXT_PLAIN) public class A".

(** The texts captured are made of characters of the class [p]. *)
Definition inside (p : ascii -> bool) : nat -> string -> Prop :=
  fun _ v => Str.all p v = true.

(** A path annotation by its parts: the blanks after the name, the blanks
    after the parenthesis, the quoted value and the blanks after it. *)
Record PathDecl : Type := mkPathDecl {
  pd_blank0 : string;
  pd_blank1 : string;
  pd_open : ascii;
  pd_value : string;
  pd_close : ascii;
  pd_blank2 : string
}.

Definition render_path_open (d : PathDecl) : string :=
  "@Path" ++ pd_blank0 d ++ "(" ++ pd_blank1 d ++ String (pd_open d) ""
  ++ pd_value d ++ String (pd_close d) "" ++ pd_blank2 d.

Definition render_path (d : PathDecl) : string := render_path_open d ++ ")".

Definition wf_path (d : PathDecl) : bool :=
  Str.all CharClass.space (pd_blank0 d)
  && Str.all CharClass.space (pd_blank1 d)
  && is_quote (pd_open d)
  && quotable (pd_value d)
  && is_quote (pd_close d)
  && Str.all CharClass.space (pd_blank2 d).

(** The modifier public before the word class, with the blanks after it, or
    no modifier. *)
Definition render_modifier (modifier : option string) : string :=
  match modifier with
  | Some blank => "public" ++ blank
  | None => ""
  end.

Definition wf_modifier (modifier : option string) : bool :=
  match modifier with
  | Some blank => nonempty blank && Str.all CharClass.space blank
  | None => true
  end.

Definition sample_path_decl : PathDecl :=
  mkPathDecl "" "" Str.dq_char "/items" "'" " ".

(** A public class declaration by its parts: the blanks after public, the
    blanks after class, and the name. *)
Record ClassDecl : Type := mkClassDecl {
  cd_blank1 : string;
  cd_blank2 : string;
  cd_name : string
}.

Definition render_class_decl (c : ClassDecl) : string :=
  "public" ++ cd_blank1 c ++ "class" ++ cd_blank2 c ++ cd_name c.

Definition wf_class_decl (c : ClassDecl) : bool :=
  nonempty (cd_blank1 c) && Str.all CharClass.space (cd_blank1 c)
  && nonempty (cd_blank2 c) && Str.all CharClass.space (cd_blank2 c)
  && identifier (cd_name c).

(** A file whose path annotation is separated from the class declaration
    by [n] characters of a comment. *)
Definition sample_distant (n : nat) : string :=
  render_path sample_path_decl ++ NL ++ "/*" ++ Str.replicate n "-"
  ++ "*/" ++ NL ++ render_class_decl (mkClassDecl " " " " "Items") ++ " {}".

(** The quoted literals inside a media-type annotation: each value between
    two quote characters [q], followed by its separator (a comma, blanks, a
    closing brace). *)
Fixpoint render_literals (q : ascii) (items : list (string * string)) : string :=
  match items with
  | [] => ""
  | (v, sep) :: items' =>
      String q "" ++ v ++ String q "" ++ sep ++ render_literals q items'
  end.

Definition wf_literal (item : string * string) : bool :=
  quotable (fst item) && Str.all not_rparen (fst item)
  && Str.all not_quote (snd item) && Str.all not_rparen (snd item).

(** A media-type annotation by its parts: the annotation type, the blanks
    around the parenthesis, an opening brace or none, and the literals. *)
Definition render_media (annotation_type blank0 blank1 : string) (brace : bool)
    (q : ascii) (items : list (string * string)) : string :=
  annotation_type ++ blank0 ++ "(" ++ blank1
  ++ (if brace then "{" else "") ++ render_literals q items ++ ")".

Definition sample_media_items : list (string * string) :=
  [("application/json", ", "); ("text/plain", " }")].

(** The text holds a closing parenthesis followed by white space. *)
Fixpoint has_rparen_space (s : string) : bool :=
  match s with
  | "" => false
  | String c s' =>
      (Ascii.eqb c ")"
       && match s' with
          | String a _ => CharClass.space a
          | "" => false
          end)
      || has_rparen_space s'
  end.

(** A signature whose parameter list starts with a binding of the path
    kind, up to the closing parenthesis of the annotation of the binding, and
    the text after it. *)
Definition sample_bound_signature : Signature :=
  mkSignature " " "Response" " " "get" ""
    ("@PathParam(" ++ Str.dq ++ "id" ++ Str.dq).

Definition sample_bound_rest : string := " Long id) { return null; }".

(** *** A direct scan for the markers that qualify a file *)

Fixpoint skip_spaces (s : string) : string :=
  match s with
  | String a s' => if CharClass.space a then skip_spaces s' else s
  | "" => ""
  end.

Definition followed_by_space (s : string) : bool :=
  match s with
  | String a _ => CharClass.space a
  | "" => false
  end.

(** The text starts with the path marker, blanks or none, and an opening
    parenthesis. *)
Definition path_marker_here (s : string) : bool :=
  Str.starts_with "@Path" s && Str.starts_with "(" (skip_spaces (Str.drop 5 s)).

(** The text starts with the marker of a method and a white-space
    character. *)
Definition method_marker_here (marker s : string) : bool :=
  Str.starts_with marker s && followed_by_space (Str.drop (Str.len marker) s).

Definition marker_here (s : string) : bool :=
  path_marker_here s
  || existsb (fun marker => method_marker_here marker s)
       ["@GET"; "@POST"; "@PUT"; "@DELETE"].

(** [f] holds of the text or of one of its suffixes. *)
Fixpoint occurs (f : string -> bool) (s : string) : bool :=
  f s ||
  match s with
  | String _ s' => occurs f s'
  | "" => false
  end.

Definition is_some {A : Type} (o : option A) : bool :=
  match o with
  | Some _ => true
  | None => false
  end.

(** The endpoint of a signature [g] whose annotations are [text] and whose
    last annotation block is [annotations], if that block holds a marker. *)
Definition annotated_endpoint (base : option string)
    (text annotations : string) (g : Signature) : list Endpoint :=
  match _extract_http_method annotations with
  | None => []
  | Some h =>
      [ mkEndpoint (_combine_paths base (_extract_method_path annotations))
          h (sig_name g) "" "" (_extract_parameters text "") None ∅
          (or_json (_extract_media_types annotations "@Consumes"))
          (or_json (_extract_media_types annotations "@Produces")) [] ]
  end.

(** Two annotated methods, one after the other. *)
Definition sample_two_methods : string :=
  (render (method_block GET NL) ++ render_sig sample_signature)
  ++ " { }" ++ NL
  ++ (render (method_block DELETE NL)
      ++ render_sig (mkSignature " " "void" " " "remove" "" "")) ++ " { }".

(** The two annotation types [_extract_endpoints] passes to
    [_extract_media_types]. *)
Definition media_annotations : list string := ["@Consumes"; "@Produces"].





(** * Properties *)

(** ** Facts about strings *)

Section StrFacts.

Lemma str_app_nil_r (s : string) : s ++ "" = s.
Proof. induction s as [|a s IH]; simpl; [reflexivity | now rewrite IH]. Qed.

Lemma str_app_assoc (a b c : string) : (a ++ b) ++ c = a ++ b ++ c.
Proof. induction a as [|x a IH]; simpl; [reflexivity | now rewrite IH]. Qed.

Lemma len_app (a b : string) : Str.len (a ++ b) = Str.len a + Str.len b.
Proof. induction a as [|x a IH]; simpl; [reflexivity | unfold Str.len in *; simpl; now rewrite IH]. Qed.

Lemma len_cons (x : ascii) (s : string) : Str.len (String x s) = S (Str.len s).
Proof. reflexivity. Qed.

Lemma take_app (a b : string) : Str.take (Str.len a) (a ++ b) = a.
Proof. induction a as [|x a IH]; simpl; [now destruct b | now rewrite IH]. Qed.

Lemma drop_app (a b : string) : Str.drop (Str.len a) (a ++ b) = b.
Proof. induction a as [|x a IH]; simpl; [now destruct b | exact IH]. Qed.

Lemma consumed_app (a b : string) : Re.consumed (a ++ b) b = a.
Proof.
  unfold Re.consumed. rewrite len_app.
  replace (Str.len a + Str.len b - Str.len b) with (Str.len a) by lia.
  apply take_app.
Qed.

Lemma rev_onto_app (a b acc : string) :
  Str.rev_onto (a ++ b) acc = Str.rev_onto b (Str.rev_onto a acc).
Proof. revert acc; induction a as [|x a IH]; intros acc; simpl; [reflexivity | apply IH]. Qed.

Lemma rev_onto_acc (a acc : string) : Str.rev_onto a acc = Str.rev a ++ acc.
Proof.
  unfold Str.rev. revert acc; induction a as [|x a IH]; intros acc; simpl.
  - reflexivity.
  - rewrite IH, (IH (String x "")), str_app_assoc. reflexivity.
Qed.

Lemma rev_app (a b : string) : Str.rev (a ++ b) = Str.rev b ++ Str.rev a.
Proof. unfold Str.rev at 1. rewrite rev_onto_app, rev_onto_acc. reflexivity. Qed.

Lemma rev_cons (x : ascii) (s : string) : Str.rev (String x s) = Str.rev s ++ String x "".
Proof. unfold Str.rev at 1. simpl. apply rev_onto_acc. Qed.

Lemma rev_rev (s : string) : Str.rev (Str.rev s) = s.
Proof.
  induction s as [|x s IH]; [reflexivity |].
  rewrite rev_cons, rev_app, IH. reflexivity.
Qed.

Lemma rev_replicate (n : nat) (c : ascii) :
  Str.rev (Str.replicate n c) = Str.replicate n c.
Proof.
  induction n as [|n IH]; [reflexivity |].
  simpl. rewrite rev_cons, IH. clear IH.
  induction n as [|n IH]; simpl; [reflexivity | now rewrite IH].
Qed.

(** [lstrip] removes a run of the character and stops at another one. *)
Lemma lstrip_spec (c : ascii) (s : string) :
  exists n, s = Str.replicate n c ++ Str.lstrip c s
            /\ Str.first_char (Str.lstrip c s) <> Some c.
Proof.
  induction s as [|a s [n [E F]]]; simpl.
  - exists 0. split; [reflexivity | discriminate].
  - destruct (Ascii.eqb a c) eqn:H.
    + apply Ascii.eqb_eq in H. subst a. exists (S n). simpl.
      split; [now rewrite <- E | exact F].
    + exists 0. split; [reflexivity |]. simpl. intros [= ->].
      rewrite Ascii.eqb_refl in H. discriminate.
Qed.

(** [rstrip] removes a run of the character at the end. *)
Lemma rstrip_spec (c : ascii) (s : string) :
  exists n, s = Str.rstrip c s ++ Str.replicate n c
            /\ Str.last_char (Str.rstrip c s) <> Some c.
Proof.
  unfold Str.rstrip, Str.last_char.
  destruct (lstrip_spec c (Str.rev s)) as [n [E F]].
  exists n. split.
  - rewrite <- (rev_rev s) at 1. rewrite E at 1.
    rewrite rev_app, rev_replicate. reflexivity.
  - rewrite rev_rev. exact F.
Qed.

Lemma all_app (p : ascii -> bool) (a b : string) :
  Str.all p (a ++ b) = Str.all p a && Str.all p b.
Proof. induction a as [|x a IH]; simpl; [reflexivity | now rewrite IH, andb_assoc]. Qed.

Lemma starts_with_app (l rest : string) : Str.starts_with l (l ++ rest) = true.
Proof. induction l as [|x l IH]; simpl; [reflexivity | now rewrite Ascii.eqb_refl, IH]. Qed.

Lemma contains_prefix (l rest : string) : Str.contains l (l ++ rest) = true.
Proof.
  destruct l as [|x l]; [now destruct rest |].
  cbn [Str.contains append]. rewrite <- (starts_with_app (String x l) rest).
  simpl. now rewrite Ascii.eqb_refl, starts_with_app.
Qed.

(** A text of characters of the class [p] holds no occurrence of a string
    that starts outside [p]. *)
Lemma contains_all_false (p : ascii -> bool) (x : ascii) (l s : string) :
  p x = false -> Str.all p s = true -> Str.contains (String x l) s = false.
Proof.
  intros Hx. induction s as [|a s IH]; intros Hs; simpl in *.
  - reflexivity.
  - apply andb_true_iff in Hs as [Ha Hs].
    destruct (Ascii.eqb x a) eqn:E.
    + apply Ascii.eqb_eq in E. subst. congruence.
    + simpl. apply IH, Hs.
Qed.

End StrFacts.

(** ** Facts about the matcher *)

Section ReFacts.
Import Re.

Implicit Types (r : regex) (s u rest : string) (caps : captures)
  (k : string -> captures -> option result).

(** The matcher depends on its continuation only through its values. *)
Lemma star_loop_ext body k1 k2 :
  (forall s caps k k', (forall s1 c1, k s1 c1 = k' s1 c1) ->
     body s caps k = body s caps k') ->
  (forall s1 c1, k1 s1 c1 = k2 s1 c1) ->
  forall fuel s caps, star_loop body k1 fuel s caps = star_loop body k2 fuel s caps.
Proof.
  intros Hb Hk fuel. induction fuel as [|fuel IH]; intros s caps; simpl.
  - apply Hk.
  - rewrite (Hk s caps). f_equal. apply Hb. intros s1 c1.
    destruct (Str.len s1 <? Str.len s)%nat; [apply IH | apply Hk].
Qed.

Lemma exec_ext r :
  forall s caps k1 k2, (forall s1 c1, k1 s1 c1 = k2 s1 c1) ->
    exec r s caps k1 = exec r s caps k2.
Proof.
  induction r as [|c|p|r1 IH1 r2 IH2|r1 IH1 r2 IH2|r1 IH1|n r1 IH1];
    intros s caps k1 k2 H; cbn [exec].
  - apply H.
  - destruct s as [|a s]; [reflexivity|]. destruct (Ascii.eqb a c); [apply H | reflexivity].
  - destruct s as [|a s]; [reflexivity|]. destruct (p a); [apply H | reflexivity].
  - apply IH1. intros s1 c1. apply IH2, H.
  - now rewrite (IH1 s caps k1 k2 H), (IH2 s caps k1 k2 H).
  - apply star_loop_ext; [|exact H]. intros s0 c0 k k' Hk. apply IH1, Hk.
  - apply IH1. intros s1 c1. apply H.
Qed.

(** The fuel of a repetition does not matter once it exceeds the length of
    the text: the repetition never runs out of it. *)
Lemma star_loop_fuel r k :
  forall f1 f2 s caps, Str.len s < f1 -> Str.len s < f2 ->
    star_loop (exec r) k f1 s caps = star_loop (exec r) k f2 s caps.
Proof.
  induction f1 as [|f1 IH]; intros f2 s caps H1 H2; [lia|].
  destruct f2 as [|f2]; [lia|]. simpl. f_equal.
  apply exec_ext. intros s1 c1.
  destruct (Str.len s1 <? Str.len s)%nat eqn:E; [|reflexivity].
  apply Nat.ltb_lt in E. apply IH; lia.
Qed.

(** The equation of a greedy repetition. *)
Lemma exec_star r s caps k :
  exec (Star r) s caps k =
  or_else
    (exec r s caps
       (fun s1 c1 =>
          if (Str.len s1 <? Str.len s)%nat then exec (Star r) s1 c1 k
          else k s1 c1))
    (k s caps).
Proof.
  change (exec (Star r) s caps k)
    with (star_loop (exec r) k (S (Str.len s)) s caps).
  cbn [star_loop]. f_equal. apply exec_ext. intros s1 c1.
  destruct (Str.len s1 <? Str.len s)%nat eqn:E; [|reflexivity].
  apply Nat.ltb_lt in E.
  change (exec (Star r) s1 c1 k)
    with (star_loop (exec r) k (S (Str.len s1)) s1 c1).
  apply star_loop_fuel; lia.
Qed.

Lemma or_else_none_r (a : option result) : or_else a None = a.
Proof. now destruct a. Qed.

Lemma exec_seq r1 r2 s caps k :
  exec (Seq r1 r2) s caps k = exec r1 s caps (fun s1 c1 => exec r2 s1 c1 k).
Proof. reflexivity. Qed.

Lemma exec_chr c s caps k : exec (Chr c) (String c s) caps k = k s caps.
Proof. cbn [exec]. now rewrite Ascii.eqb_refl. Qed.

Lemma exec_grp n r s caps k :
  exec (Grp n r) s caps k =
  exec r s caps (fun s1 c1 => k s1 ((n, consumed s s1) :: c1)).
Proof. reflexivity. Qed.

(** A repetition of a class on a text that starts in the class: the longer
    match is tried first. *)
Lemma exec_star_cls_cons p a s caps k :
  p a = true ->
  exec (Star (Cls p)) (String a s) caps k =
  or_else (exec (Star (Cls p)) s caps k) (k (String a s) caps).
Proof.
  intros Hp. rewrite exec_star. cbn [exec]. rewrite Hp.
  rewrite len_cons. now rewrite (proj2 (Nat.ltb_lt _ _) (Nat.lt_succ_diag_r _)).
Qed.

Lemma exec_star_cls_stop p a s caps k :
  p a = false ->
  exec (Star (Cls p)) (String a s) caps k = k (String a s) caps.
Proof. intros Hp. rewrite exec_star. cbn [exec]. now rewrite Hp. Qed.

Lemma exec_star_cls_nil p caps k :
  exec (Star (Cls p)) "" caps k = k "" caps.
Proof. reflexivity. Qed.

(** Greedy success: when the continuation accepts the text after the
    longest run of the class, that is the result. *)
Lemma exec_star_cls_greedy p u rest caps k res :
  Str.all p u = true -> stops p rest = true ->
  k rest caps = Some res ->
  exec (Star (Cls p)) (u ++ rest) caps k = Some res.
Proof.
  intros Hu Hr Hk. induction u as [|a u IH]; cbn [append Str.all] in *.
  - destruct rest as [|b rest]; [exact Hk|].
    cbn [stops append] in *. apply negb_true_iff in Hr.
    now rewrite exec_star_cls_stop.
  - apply andb_true_iff in Hu as [Ha Hu].
    rewrite exec_star_cls_cons by exact Ha. now rewrite (IH Hu).
Qed.

(** A repetition of a class on a text that stops the class takes nothing. *)
Lemma exec_star_cls_stops p rest caps k :
  stops p rest = true -> exec (Star (Cls p)) rest caps k = k rest caps.
Proof.
  intros Hr. destruct rest as [|b rest]; [reflexivity|].
  cbn [stops] in Hr. apply negb_true_iff in Hr. now rewrite exec_star_cls_stop.
Qed.

Lemma exec_plus_cls_greedy p u rest caps k res :
  nonempty u = true -> Str.all p u = true -> stops p rest = true ->
  k rest caps = Some res ->
  exec (Plus (Cls p)) (u ++ rest) caps k = Some res.
Proof.
  intros Hn Hu Hr Hk. destruct u as [|a u]; [discriminate|].
  simpl in Hu. apply andb_true_iff in Hu as [Ha Hu].
  unfold Plus. rewrite exec_seq. cbn [exec append]. rewrite Ha.
  now apply exec_star_cls_greedy.
Qed.

(** A literal consumes itself, and fails where the text does not start
    with it. *)
Lemma exec_lit l s caps k :
  exec (Lit l) s caps k =
  if Str.starts_with l s then k (Str.drop (Str.len l) s) caps else None.
Proof.
  revert s. induction l as [|x l IH]; intros s; simpl.
  - now destruct s.
  - destruct s as [|a s]; [reflexivity|].
    rewrite Ascii.eqb_sym. destruct (Ascii.eqb x a); simpl; [apply IH | reflexivity].
Qed.

Lemma exec_lit_app l rest caps k :
  exec (Lit l) (l ++ rest) caps k = k rest caps.
Proof. now rewrite exec_lit, starts_with_app, drop_app. Qed.

(** A pattern that starts with a literal is found nowhere in a text that
    does not contain the literal. *)
Lemma search_from_lit_absent l r s pos adv :
  Str.contains l s = false ->
  search_from (Seq (Lit l) r) pos s adv = None.
Proof.
  revert pos adv. induction s as [|a s IH]; intros pos adv H.
  - simpl in H. apply orb_false_iff in H as [H _].
    simpl. unfold match_at. rewrite exec_seq, exec_lit, H. reflexivity.
  - cbn [Str.contains] in H. apply orb_false_iff in H as [H1 H2].
    cbn [search_from]. unfold match_at. rewrite exec_seq, exec_lit, H1.
    apply IH, H2.
Qed.

(** A match at the start of the text is the leftmost one. *)
Lemma search_from_hit r pos s adv rest c :
  match_at r s adv = Some (rest, c) ->
  search_from r pos s adv
  = Some (mkMatch pos (pos + Str.len (consumed s rest)) (consumed s rest) c, rest).
Proof. intros H. destruct s; cbn [search_from]; now rewrite H. Qed.

(** Whatever the matcher answers, its continuation answered it on a suffix
    of the text. *)
Lemma star_loop_reaches body k :
  (forall s caps k' res, body s caps k' = Some res ->
     exists u s' c', s = u ++ s' /\ k' s' c' = Some res) ->
  forall fuel s caps res, star_loop body k fuel s caps = Some res ->
    exists u s' c', s = u ++ s' /\ k s' c' = Some res.
Proof.
  intros Hb fuel. induction fuel as [|fuel IH]; intros s caps res H;
    cbn [star_loop] in H.
  - exists "", s, caps. now split.
  - destruct (body s caps _) as [x|] eqn:E; cbn [or_else] in H.
    + injection H as ->. apply Hb in E as (u & s1 & c1 & -> & E).
      destruct (Str.len s1 <? Str.len (u ++ s1))%nat.
      * apply IH in E as (u' & s' & c' & -> & E).
        exists (u ++ u'), s', c'. split; [now rewrite str_app_assoc | exact E].
      * exists u, s1, c1. now split.
    + exists "", s, caps. now split.
Qed.

Lemma exec_reaches r :
  forall s caps k res, exec r s caps k = Some res ->
    exists u s' c', s = u ++ s' /\ k s' c' = Some res.
Proof.
  induction r as [|c|p|r1 IH1 r2 IH2|r1 IH1 r2 IH2|r1 IH1|n r1 IH1];
    intros s caps k res H; cbn [exec] in H.
  - exists "", s, caps. now split.
  - destruct s as [|a s]; [discriminate|].
    destruct (Ascii.eqb a c); [|discriminate].
    exists (String a ""), s, caps. now split.
  - destruct s as [|a s]; [discriminate|].
    destruct (p a); [|discriminate].
    exists (String a ""), s, caps. now split.
  - apply IH1 in H as (u1 & s1 & c1 & -> & H).
    apply IH2 in H as (u2 & s2 & c2 & -> & H).
    exists (u1 ++ u2), s2, c2. split; [now rewrite str_app_assoc | exact H].
  - destruct (exec r1 s caps k) as [x|] eqn:E; cbn [or_else] in H.
    + injection H as ->. now apply IH1 in E.
    + now apply IH2 in H.
  - eapply (star_loop_reaches (exec r1) k); [|exact H].
    intros s0 c0 k' res0 E. exact (IH1 s0 c0 k' res0 E).
  - apply IH1 in H as (u & s1 & c1 & -> & H). eauto.
Qed.

(** A match is a prefix of the text, and not the empty one where the
    iterator must advance. *)
Lemma match_at_reaches r s adv rest c :
  match_at r s adv = Some (rest, c) ->
  exists u, s = u ++ rest /\ (adv = true -> nonempty u = true).
Proof.
  unfold match_at. intros H.
  apply exec_reaches in H as (u & s' & c' & -> & H).
  destruct (adv && (Str.len s' =? Str.len (u ++ s'))%nat) eqn:E; [discriminate|].
  injection H as -> ->. exists u. split; [reflexivity|].
  intros ->. cbn [andb] in E. apply Nat.eqb_neq in E.
  destruct u as [|a u]; [now cbn [append] in E | reflexivity].
Qed.

Lemma match_at_consumed r s adv rest c :
  match_at r s adv = Some (rest, c) ->
  exists u, s = u ++ rest /\ consumed s rest = u
            /\ (adv = true -> nonempty u = true).
Proof.
  intros H. apply match_at_reaches in H as [u [-> Hadv]].
  exists u. now rewrite consumed_app.
Qed.

Lemma search_from_reaches r s :
  forall pos adv m rest,
    search_from r pos s adv = Some (m, rest) ->
    exists pre u,
      s = pre ++ u ++ rest
      /\ m_start m = pos + Str.len pre
      /\ m_end m = m_start m + Str.len u
      /\ m_text m = u
      /\ (adv = true -> pre = "" -> nonempty u = true).
Proof.
  induction s as [|a s IH]; intros pos adv m rest H; cbn [search_from] in H.
  - destruct (match_at r "" adv) as [[rest' c]|] eqn:E; [|discriminate].
    injection H as <- <-.
    apply match_at_consumed in E as (u & Es & Ec & Hadv).
    destruct u as [|b u]; [|discriminate]. cbn [append] in Es. subst rest'.
    exists "", "". cbn. repeat split; auto with arith.
  - destruct (match_at r (String a s) adv) as [[rest' c]|] eqn:E.
    + injection H as <- <-.
      apply match_at_consumed in E as (u & Es & Ec & Hadv).
      exists "", u. rewrite Ec.
      cbn [m_start m_end m_text append Str.len String.length].
      repeat split; auto with arith.
    + apply IH in H as (pre & u & -> & H1 & H2 & H3 & _).
      exists (String a pre), u. cbn [append]. rewrite len_cons.
      repeat split; [lia | exact H2 | exact H3 | discriminate].
Qed.

(** The measure of a state of the iterator. *)
Lemma finditer_from_fuel r :
  forall f1 f2 pos s (adv : bool),
    2 * Str.len s + (if adv then 0 else 1) < f1 ->
    2 * Str.len s + (if adv then 0 else 1) < f2 ->
    finditer_from f1 r pos s adv = finditer_from f2 r pos s adv.
Proof.
  induction f1 as [|f1 IH]; intros f2 pos s adv H1 H2; [lia|].
  destruct f2 as [|f2]; [lia|]. cbn [finditer_from].
  destruct (search_from r pos s adv) as [[m rest]|] eqn:E; [|reflexivity].
  f_equal.
  apply search_from_reaches in E as (pre & u & -> & Hs & He & _ & Hadv).
  rewrite !len_app in H1, H2.
  destruct (m_end m =? m_start m)%nat eqn:Ee.
  - apply Nat.eqb_eq in Ee.
    assert (Str.len u = 0) as Hu by lia.
    apply IH.
    + destruct adv; [|lia].
      destruct pre as [|a pre]; [|rewrite len_cons in H1; lia].
      destruct u as [|b u]; [now specialize (Hadv eq_refl eq_refl) | discriminate].
    + destruct adv; [|lia].
      destruct pre as [|a pre]; [|rewrite len_cons in H2; lia].
      destruct u as [|b u]; [now specialize (Hadv eq_refl eq_refl) | discriminate].
  - apply Nat.eqb_neq in Ee. apply IH; destruct adv; lia.
Qed.

(** The iterator never runs out of its fuel: more fuel gives the same
    matches. *)
Lemma finditer_fuel r s fuel :
  2 * Str.len s + 2 <= fuel ->
  finditer_from fuel r 0 s false = finditer r s.
Proof. intros H. unfold finditer. apply finditer_from_fuel; lia. Qed.

Lemma search_lit_absent l r s :
  Str.contains l s = false -> search (Seq (Lit l) r) s = None.
Proof. intros H. unfold search. now rewrite search_from_lit_absent. Qed.

End ReFacts.

(** ** Combining the class path and the method path (C1) *)

Section CombinePaths.

Lemma combine_paths_nonempty (base method : string) :
  nonempty base = true -> nonempty method = true ->
  _combine_paths (Some base) method
  = Str.rstrip "/" base ++ "/" ++ Str.lstrip "/" method.
Proof.
  intros Hb Hm. destruct base as [|a b]; [discriminate|].
  destruct method as [|c m]; [discriminate|]. reflexivity.
Qed.

(** C1, as stated, fails: the trailing slash of the method path is kept, so
    base [/a] with method [b/] gives [/a/b/] and not [/a/b]. *)
Lemma C1_counterexample :
  _combine_paths (Some "/a") "b/" = "/a/b/"
  /\ _combine_paths (Some "/a") "b/" <> "/a/b".
Proof. split; [reflexivity | vm_compute; discriminate]. Qed.

(** C1, amended: for a non-empty class path and a non-empty method path the
    result is the class path without its trailing slashes, one slash, and
    the method path without its leading slashes (the leading slashes of the
    class path and the trailing slashes of the method path are kept); base
    [/a/] with method [/b] gives [/a/b] and base [/a] with method [b/] gives
    [/a/b/].  An empty or absent class path gives the method path, or [/]
    when that is empty too; an empty method path gives the class path. *)
Theorem C1_combine_paths (base method : string) :
  nonempty base = true -> nonempty method = true ->
  (exists i j,
      base = Str.rstrip "/" base ++ Str.replicate i "/"
      /\ method = Str.replicate j "/" ++ Str.lstrip "/" method
      /\ Str.last_char (Str.rstrip "/" base) <> Some "/"%char
      /\ Str.first_char (Str.lstrip "/" method) <> Some "/"%char
      /\ _combine_paths (Some base) method
         = Str.rstrip "/" base ++ "/" ++ Str.lstrip "/" method)
  /\ _combine_paths (Some "/a/") "/b" = "/a/b"
  /\ _combine_paths (Some "/a") "b/" = "/a/b/"
  /\ _combine_paths None method = method
  /\ _combine_paths (Some "") method = method
  /\ _combine_paths None "" = "/"
  /\ _combine_paths (Some "") "" = "/"
  /\ _combine_paths (Some base) "" = base.
Proof.
  intros Hb Hm. split.
  - destruct (rstrip_spec "/" base) as [i [Ei Fi]].
    destruct (lstrip_spec "/" method) as [j [Ej Fj]].
    exists i, j. repeat split; try assumption.
    now apply combine_paths_nonempty.
  - destruct base as [|a b]; [discriminate|].
    destruct method as [|c m]; [discriminate|].
    repeat split; reflexivity.
Qed.

Lemma C1_combine_paths_witness :
  nonempty "//api//" = true /\ nonempty "//v1/" = true
  /\ _combine_paths (Some "//api//") "//v1/" = "//api/v1/".
Proof.
  split; [reflexivity | split; [reflexivity |]].
  destruct (C1_combine_paths "//api//" "//v1/" eq_refl eq_refl)
    as [[i [j (_ & _ & _ & _ & E)]] _].
  rewrite E. reflexivity.
Defined.

End CombinePaths.

(** ** What one signature contributes (C4, C5, C6, C7) *)

Section Extraction.

Lemma first_http_method_none items annotations :
  (forall marker m, In (marker, AMethod m) items ->
     Str.contains marker annotations = false) ->
  first_http_method items annotations = None.
Proof.
  induction items as [|[marker [v|m]] items IH]; intros H; simpl.
  - reflexivity.
  - apply IH. intros mk m' Hin. apply (H mk m'). now right.
  - rewrite (H marker m) by now left.
    apply IH. intros mk m' Hin. apply (H mk m'). now right.
Qed.

Lemma first_http_method_some items annotations h :
  first_http_method items annotations = Some h ->
  exists marker, In (marker, AMethod h) items
                 /\ Str.contains marker annotations = true.
Proof.
  induction items as [|[marker [v|m]] items IH]; simpl; intros H.
  - discriminate.
  - destruct (IH H) as [mk [Hin Hc]]. exists mk. split; [now right | exact Hc].
  - destruct (Str.contains marker annotations) eqn:E.
    + injection H as <-. exists marker. split; [now left | exact E].
    + destruct (IH H) as [mk [Hin Hc]]. exists mk. split; [now right | exact Hc].
Qed.

(** The markers of the table that stand for an HTTP method are the seven of
    [http_markers]. *)
Lemma method_marker marker m :
  In (marker, AMethod m) JAX_RS_ANNOTATIONS -> In marker http_markers.
Proof.
  unfold JAX_RS_ANNOTATIONS, http_markers. simpl.
  intros H. repeat (destruct H as [H|H]; [inversion H; subst; tauto |]).
  contradiction.
Qed.

Lemma extract_http_method_none annotations :
  has_http_marker annotations = false ->
  _extract_http_method annotations = None.
Proof.
  intros H. apply first_http_method_none. intros marker m Hin.
  apply method_marker in Hin.
  unfold has_http_marker in H.
  destruct (Str.contains marker annotations) eqn:E; [|reflexivity].
  assert (existsb (fun mk => Str.contains mk annotations) http_markers = true) as X.
  { apply existsb_exists. exists marker. split; [exact Hin | exact E]. }
  congruence.
Qed.

Lemma extract_http_method_some annotations h :
  _extract_http_method annotations = Some h ->
  has_http_marker annotations = true.
Proof.
  intros H. apply first_http_method_some in H as [marker [Hin Hc]].
  apply existsb_exists. exists marker. split; [|exact Hc].
  eapply method_marker, Hin.
Qed.

Lemma endpoint_of_match_some content base m e :
  endpoint_of_match content base m = Some e ->
  exists h,
    _extract_http_method (annotations_of m) = Some h
    /\ e = mkEndpoint
             (_combine_paths base (_extract_method_path (annotations_of m)))
             h (default "" (Re.group 2 m)) "" ""
             (_extract_parameters (Re.m_text m) content) None ∅
             (or_json (_extract_media_types (annotations_of m) "@Consumes"))
             (or_json (_extract_media_types (annotations_of m) "@Produces"))
             [].
Proof.
  unfold endpoint_of_match.
  destruct (_extract_http_method (annotations_of m)) as [h|]; [|discriminate].
  intros [= <-]. exists h. split; reflexivity.
Qed.

Lemma in_extract_endpoints content base e :
  In e (_extract_endpoints content base) ->
  exists m, In m (Re.finditer Pat.method_pattern content)
            /\ endpoint_of_match content base m = Some e.
Proof.
  unfold _extract_endpoints. intros H.
  apply list_elem_of_In, list_elem_of_omap in H as [m [Hm He]].
  exists m. split; [now apply list_elem_of_In | exact He].
Qed.

Lemma omap_filter_some {A B : Type} (f : A -> option B) (p : A -> bool) (l : list A) :
  (forall x, p x = false -> f x = None) ->
  omap f l = omap f (List.filter p l).
Proof.
  intros H. induction l as [|x l IH]; [reflexivity|].
  cbn [omap list_omap List.filter].
  destruct (p x) eqn:E.
  - cbn [omap list_omap]. now rewrite IH.
  - now rewrite (H x E).
Qed.

End Extraction.

Section SignatureClaims.

Lemma parameter_of_match_spec m p :
  In p (parameter_of_match m) ->
  In (in_ p) collected_locations
  /\ required p = String.eqb (in_ p) "path"
  /\ In (binding_kind m) ["PathParam"; "QueryParam"; "HeaderParam"; "CookieParam"].
Proof.
  unfold parameter_of_match, binding_kind.
  destruct (existsb _ _) eqn:E; [|intros []].
  apply existsb_exists in E as [kind [Hin Hk]].
  apply String.eqb_eq in Hk. rewrite Hk.
  intros [<-|[]]. cbn [in_ required].
  simpl in Hin. unfold collected_locations.
  repeat (destruct Hin as [<-|Hin]; [vm_compute; tauto |]).
  contradiction.
Qed.

Lemma parameter_of_match_form m :
  binding_kind m = "FormParam" -> parameter_of_match m = [].
Proof.
  unfold parameter_of_match, binding_kind. intros ->. reflexivity.
Qed.

Lemma in_extract_parameters sig content p :
  In p (_extract_parameters sig content) ->
  exists m, In m (Re.finditer Pat.param_pattern sig)
            /\ In p (parameter_of_match m).
Proof.
  unfold _extract_parameters. intros H.
  apply in_concat in H as [l [Hl Hp]].
  apply list_elem_of_In, list_elem_of_fmap in Hl as [m [-> Hm]].
  exists m. split; [now apply list_elem_of_In | exact Hp].
Qed.

Lemma required_by_location_extracted sig content :
  Forall required_by_location (_extract_parameters sig content).
Proof.
  apply List.Forall_forall. intros p Hp.
  apply in_extract_parameters in Hp as [m [_ Hp]].
  apply parameter_of_match_spec in Hp as (Hloc & Hreq & _).
  split.
  - intros E. now rewrite Hreq, E.
  - intros Hin. rewrite Hreq. simpl in Hin.
    repeat (destruct Hin as [<-|Hin]; [reflexivity |]). contradiction.
Qed.

Lemma collected_location_extracted sig content :
  Forall collected_location (_extract_parameters sig content).
Proof.
  apply List.Forall_forall. intros p Hp.
  apply in_extract_parameters in Hp as [m [_ Hp]].
  apply parameter_of_match_spec in Hp as (Hloc & _ & _).
  split; [exact Hloc |].
  intros E. rewrite E in Hloc. unfold collected_locations in Hloc. simpl in Hloc.
  repeat (destruct Hloc as [Hloc|Hloc]; [discriminate |]). contradiction.
Qed.

(** The parameters of an extracted endpoint are those of its signature. *)
Lemma endpoint_parameters content base e :
  In e (_extract_endpoints content base) ->
  exists sig, parameters e = _extract_parameters sig content.
Proof.
  intros H. apply in_extract_endpoints in H as [m [_ H]].
  apply endpoint_of_match_some in H as [h [_ ->]].
  exists (Re.m_text m). reflexivity.
Qed.

Lemma endpoints_forall_parameters (P : Param -> Prop) content base :
  (forall sig, Forall P (_extract_parameters sig content)) ->
  Forall (fun e => Forall P (parameters e)) (_extract_endpoints content base).
Proof.
  intros H. apply List.Forall_forall. intros e He.
  apply endpoint_parameters in He as [sig ->]. apply H.
Qed.

Lemma in_discovered files r :
  In r (discovered files) ->
  exists content,
    r = mkAPIResource (_extract_class_name content)
          (default "" (_extract_class_path content))
          (_extract_endpoints content (_extract_class_path content)) "".
Proof.
  unfold discovered. intros H.
  apply list_elem_of_In, list_elem_of_omap in H as [f [_ H]].
  unfold resource_of_file in H.
  destruct (file_read f) as [content|]; [|discriminate].
  unfold analyze_content in H.
  destruct (_is_jaxrs_resource content); [|discriminate]. simpl in H.
  destruct (_extract_endpoints content (_extract_class_path content)) eqn:E;
    [discriminate|].
  injection H as <-. exists content. now rewrite E.
Qed.

Lemma discovered_forall_parameters (P : Param -> Prop) files :
  (forall sig content, Forall P (_extract_parameters sig content)) ->
  Forall (fun r => Forall (fun e => Forall P (parameters e)) (endpoints r))
    (discovered files).
Proof.
  intros H. apply List.Forall_forall. intros r Hr.
  apply in_discovered in Hr as [content ->]. cbn [endpoints].
  apply endpoints_forall_parameters. intros sig. apply H.
Qed.

(** C4: a captured signature whose annotation text holds none of the seven
    HTTP-method markers gives no endpoint (the loop goes on to the next
    signature, nothing is raised), whatever else the text holds; so the
    endpoints extracted are those of the signatures with a marker. *)
Theorem C4_unmarked_signature_skipped content base m :
  In m (Re.finditer Pat.method_pattern content) ->
  (forall marker, In marker http_markers ->
     Str.contains marker (annotations_of m) = false) ->
  endpoint_of_match content base m = None
  /\ _extract_endpoints content base
     = omap (endpoint_of_match content base)
         (List.filter (fun m' => has_http_marker (annotations_of m'))
            (Re.finditer Pat.method_pattern content))
  /\ (forall e, In e (_extract_endpoints content base) ->
        exists m', In m' (Re.finditer Pat.method_pattern content)
                   /\ has_http_marker (annotations_of m') = true
                   /\ endpoint_of_match content base m' = Some e).
Proof.
  intros Hm Hno.
  assert (forall x, has_http_marker (annotations_of x) = false ->
                    endpoint_of_match content base x = None) as Hskip.
  { intros x Hx. unfold endpoint_of_match.
    now rewrite (extract_http_method_none _ Hx). }
  split; [|split].
  - apply Hskip. unfold has_http_marker.
    destruct (existsb _ _) eqn:E; [|reflexivity].
    apply existsb_exists in E as [marker [Hin Hc]].
    rewrite (Hno marker Hin) in Hc. discriminate.
  - unfold _extract_endpoints. apply omap_filter_some, Hskip.
  - intros e He. apply in_extract_endpoints in He as [m' [Hin He]].
    exists m'. split; [exact Hin | split; [|exact He]].
    apply endpoint_of_match_some in He as [h [Hh _]].
    eapply extract_http_method_some, Hh.
Qed.

Lemma C4_unmarked_signature_skipped_witness :
  exists m, In m (Re.finditer Pat.method_pattern sample_unmarked)
            /\ Str.contains "@Path" (annotations_of m) = true
            /\ endpoint_of_match sample_unmarked None m = None
            /\ _extract_endpoints sample_unmarked None = [].
Proof.
  eexists. split; [vm_compute; left; reflexivity |].
  split; [vm_compute; reflexivity |].
  match goal with
  | |- endpoint_of_match _ _ ?m = None /\ _ =>
      assert (In m (Re.finditer Pat.method_pattern sample_unmarked)) as Hin
        by (vm_compute; left; reflexivity);
      assert (forall marker, In marker http_markers ->
                Str.contains marker (annotations_of m) = false) as Hno
        by (intros marker H; simpl in H;
            repeat (destruct H as [<-|H]; [vm_compute; reflexivity |]);
            contradiction);
      destruct (C4_unmarked_signature_skipped sample_unmarked None m Hin Hno)
        as (E1 & E2 & _)
  end.
  split; [exact E1 | vm_compute; reflexivity].
Defined.

(** C5: every extracted parameter located in the path is required and every
    one located in the query, a header or a cookie is not; this holds for
    the parameters of a signature, of every endpoint of a file and of every
    resource an analysis discovers. *)
Theorem C5_required_by_location sig content base files :
  Forall required_by_location (_extract_parameters sig content)
  /\ Forall (fun e => Forall required_by_location (parameters e))
       (_extract_endpoints content base)
  /\ Forall (fun r => Forall (fun e => Forall required_by_location (parameters e))
                        (endpoints r))
       (discovered files).
Proof.
  split; [|split].
  - apply required_by_location_extracted.
  - apply endpoints_forall_parameters. intros sig'.
    apply required_by_location_extracted.
  - apply discovered_forall_parameters. intros sig' content'.
    apply required_by_location_extracted.
Qed.

(** C6: an emitted endpoint for whose signature no media type literal was
    extracted for Consumes has the one-element consumes list of the JSON
    media type, and the same holds, independently, for Produces; so both
    lists of every emitted endpoint are non-empty. *)
Theorem C6_media_type_defaults content base e :
  In e (_extract_endpoints content base) ->
  exists m,
    In m (Re.finditer Pat.method_pattern content)
    /\ endpoint_of_match content base m = Some e
    /\ (_extract_media_types (annotations_of m) "@Consumes" = [] ->
        consumes e = ["application/json"])
    /\ (_extract_media_types (annotations_of m) "@Produces" = [] ->
        produces e = ["application/json"])
    /\ consumes e <> [] /\ produces e <> [].
Proof.
  intros He. apply in_extract_endpoints in He as [m [Hin He]].
  exists m. split; [exact Hin | split; [exact He |]].
  apply endpoint_of_match_some in He as [h [_ ->]]. cbn [consumes produces].
  repeat split.
  - now intros ->.
  - now intros ->.
  - unfold or_json. now destruct (_extract_media_types _ "@Consumes").
  - unfold or_json. now destruct (_extract_media_types _ "@Produces").
Qed.

Lemma C6_media_type_defaults_witness :
  In (json_endpoint "/" GET "list") (_extract_endpoints sample_get None)
  /\ consumes (json_endpoint "/" GET "list") <> []
  /\ produces (json_endpoint "/" GET "list") <> [].
Proof.
  assert (In (json_endpoint "/" GET "list") (_extract_endpoints sample_get None))
    as Hin by (vm_compute; left; reflexivity).
  split; [exact Hin |].
  destruct (C6_media_type_defaults sample_get None _ Hin)
    as [m (_ & _ & _ & _ & Hc & Hp)].
  split; [exact Hc | exact Hp].
Defined.

End SignatureClaims.

(** ** The analysis and the run (C9, C10) *)

Section Run.


Lemma files_written_read_errors files : files_written (read_errors files) = [].
Proof.
  unfold files_written, read_errors.
  induction files as [|f files IH]; [reflexivity|].
  cbn [omap list_omap]. destruct (file_read f); cbn [omap list_omap]; exact IH.
Qed.

(** One file of the loop of [analyze]. *)
Lemma analyze_file_step (self : JaxRSAnalyzer) (file : JavaFile) (w : World)
    (l : list APIResource) :
  heap w !! resources self = Some l ->
  bind (_analyze_java_file self file)
    (fun resource =>
       match resource with
       | Some r =>
           match endpoints r with
           | [] => ret tt
           | _ :: _ => list_append (resources self) r
           end
       | None => ret tt
       end) w
  = (tt, mkWorld (rglob_java w)
           (<[resources self := (l ++ discovered [file])%list]> (heap w))
           (trace w ++ read_errors [file])%list).
Proof.
  intros Hl. unfold bind, _analyze_java_file, discovered, read_errors,
    resource_of_file. cbn [omap list_omap].
  destruct (file_read file) as [content|e]; cbn [ret print emit bind].
  - destruct (analyze_content content) as [r|]; cbn [ret].
    + destruct (endpoints r) eqn:E; cbn [ret list_append option_list app].
      * rewrite !List.app_nil_r, insert_id by exact Hl. now destruct w.
      * unfold list_append. rewrite Hl, List.app_nil_r. reflexivity.
    + rewrite !List.app_nil_r, insert_id by exact Hl. now destruct w.
  - cbn [heap rglob_java trace]. rewrite List.app_nil_r, insert_id by exact Hl.
    reflexivity.
Qed.

Lemma discovered_cons file files :
  discovered (file :: files) = (discovered [file] ++ discovered files)%list.
Proof. unfold discovered. now rewrite <- omap_app. Qed.

Lemma read_errors_cons file files :
  read_errors (file :: files) = (read_errors [file] ++ read_errors files)%list.
Proof. unfold read_errors. now rewrite <- omap_app. Qed.

(** The loop of [analyze] appends what it discovers to the list object. *)
Lemma analyze_loop (self : JaxRSAnalyzer) (files : list JavaFile) :
  forall (w : World) (l : list APIResource),
    heap w !! resources self = Some l ->
    for_each files
      (fun java_file =>
         bind (_analyze_java_file self java_file)
           (fun resource =>
              match resource with
              | Some r =>
                  match endpoints r with
                  | [] => ret tt
                  | _ :: _ => list_append (resources self) r
                  end
              | None => ret tt
              end)) w
    = (tt, mkWorld (rglob_java w)
             (<[resources self := (l ++ discovered files)%list]> (heap w))
             (trace w ++ read_errors files)%list).
Proof.
  induction files as [|f files IH]; intros w l Hl.
  - cbn [for_each ret]. unfold discovered, read_errors. cbn [omap list_omap].
    rewrite !List.app_nil_r, insert_id by exact Hl. now destruct w.
  - cbn [for_each]. unfold bind at 1.
    rewrite (analyze_file_step self f w l Hl).
    rewrite (IH _ (l ++ discovered [f])%list) by (cbn [heap]; apply lookup_insert_eq).
    cbn [heap rglob_java trace].
    rewrite insert_insert_eq, (discovered_cons f files), (read_errors_cons f files),
      !List.app_assoc.
    reflexivity.
Qed.

Lemma analyze_spec (self : JaxRSAnalyzer) (w : World) (l : list APIResource) :
  heap w !! resources self = Some l ->
  analyze self w
  = (resources self,
     mkWorld (rglob_java w)
       (<[resources self :=
            (l ++ discovered (rglob_java w (repo_path self)))%list]> (heap w))
       (trace w ++ read_errors (rglob_java w (repo_path self)))%list).
Proof.
  intros Hl. unfold analyze, _find_java_files, rglob.
  unfold bind at 1. unfold bind at 1.
  rewrite (analyze_loop self _ w l Hl). reflexivity.
Qed.

Lemma init_spec (root : string) (w : World) :
  JaxRSAnalyzer_init root w
  = (mkJaxRSAnalyzer root (fresh (dom (heap w))),
     mkWorld (rglob_java w) (<[fresh (dom (heap w)) := []]> (heap w)) (trace w)).
Proof. reflexivity. Qed.













(** A run whose directory cannot be created does nothing. *)
Lemma main_makedirs_raises (os : OS) (root output_dir e : string) (w : World) :
  makedirs_error os output_dir = Some e ->
  main os root output_dir w = (Some e, w).
Proof.
  intros H. unfold main, or_raise, makedirs, bind. now rewrite H.
Qed.


End Run.

Section RunClaims.







(** C10: [analyze] appends what it discovers to the list object the
    analyzer holds, without clearing it, and returns that very object; on a
    new analyzer and an unchanged repository the first call leaves the
    discovered resources in it and the second call leaves them twice, so the
    second result differs from the first unless nothing was discovered. *)
Theorem C10_analyze_accumulates (root : string) (w : World) :
  let found := discovered (rglob_java w root) in
  let '(self, w0) := JaxRSAnalyzer_init root w in
  let '(r1, w1) := analyze self w0 in
  let '(r2, w2) := analyze self w1 in
  r1 = resources self /\ r2 = resources self
  /\ heap w1 !! r1 = Some found
  /\ heap w2 !! r2 = Some (found ++ found)%list
  /\ ((found ++ found)%list = found <-> found = [])
  /\ (forall (a : JaxRSAnalyzer) files h l t,
        analyze a (mkWorld files (<[resources a := l]> h) t)
        = (resources a,
           mkWorld files
             (<[resources a := (l ++ discovered (files (repo_path a)))%list]> h)
             (t ++ read_errors (files (repo_path a)))%list)).
Proof.
  cbn zeta. rewrite init_spec.
  rewrite (analyze_spec _ _ []) by (cbn [heap resources]; apply lookup_insert_eq).
  cbn [heap rglob_java trace resources repo_path app].
  rewrite (analyze_spec _ _ (discovered (rglob_java w root)))
    by (cbn [heap resources]; apply lookup_insert_eq).
  cbn [heap rglob_java trace resources repo_path].
  repeat split.
  - apply lookup_insert_eq.
  - apply lookup_insert_eq.
  - intros E. apply (f_equal (@length _)) in E. rewrite length_app in E.
    destruct (discovered (rglob_java w root)); [reflexivity | simpl in E; lia].
  - now intros ->.
  - intros a files h l t.
    rewrite (analyze_spec _ _ l) by (cbn [heap]; apply lookup_insert_eq).
    cbn [heap rglob_java trace]. now rewrite insert_insert_eq.
Qed.

End RunClaims.

(** ** The keys of the generated document *)

Section Document.

Implicit Types (paths : gmap string (gmap string OpenAPI.Operation)).

Lemma has_key_empty p k : ~ has_key ∅ p k.
Proof. intros [ops [H _]]. now rewrite lookup_empty in H. Qed.

Lemma has_key_add_endpoint r paths e p k :
  has_key (add_endpoint r paths e) p k
  <-> has_key paths p k \/ (p = path e /\ k = method_key e).
Proof.
  unfold add_endpoint, has_key.
  destruct (decide (p = path e)) as [->|Hp].
  - rewrite lookup_alter_eq.
    destruct (paths !! path e) as [ops0|] eqn:E.
    + rewrite bool_decide_eq_true_2 by eauto. rewrite E. cbn [fmap option_fmap option_map].
      split.
      * intros [ops [[= <-] Hk]].
        apply lookup_insert_is_Some in Hk as [<-|[Hne Hk]]; [now right |].
        left. exists ops0. split; [reflexivity | exact Hk].
      * intros [[ops [[= <-] Hk]]|[_ ->]].
        -- eexists. split; [reflexivity|]. apply lookup_insert_is_Some.
           destruct (decide (method_key e = k)); [now left | now right].
        -- eexists. split; [reflexivity|]. apply lookup_insert_is_Some. now left.
    + rewrite bool_decide_eq_false_2 by (intros [? ?]; discriminate).
      rewrite lookup_insert_eq. cbn [fmap option_fmap option_map].
      split.
      * intros [ops [[= <-] Hk]].
        apply lookup_insert_is_Some in Hk as [<-|[Hne Hk]]; [now right |].
        rewrite lookup_empty in Hk. now destruct Hk.
      * intros [[ops [[=] _]]|[_ ->]].
        eexists. split; [reflexivity|]. apply lookup_insert_is_Some. now left.
  - rewrite lookup_alter_ne by congruence.
    assert ((if bool_decide (is_Some (paths !! path e)) then paths
             else <[path e := ∅]> paths) !! p = paths !! p) as ->.
    { destruct (bool_decide _); [reflexivity|]. apply lookup_insert_ne. congruence. }
    split; [now left | intros [H|[? _]]; [exact H | contradiction]].
Qed.

Lemma has_key_add_resource paths r p k :
  has_key (add_resource paths r) p k
  <-> has_key paths p k
      \/ exists e, In e (endpoints r) /\ p = path e /\ k = method_key e.
Proof.
  unfold add_resource. revert paths.
  induction (endpoints r) as [|e es IH]; intros paths; cbn [fold_left].
  - split; [now left | intros [H|[e [[] _]]]; exact H].
  - rewrite IH, has_key_add_endpoint. split.
    + intros [[H|H]|[e' [Hin H]]].
      * now left.
      * right. exists e. split; [now left | exact H].
      * right. exists e'. split; [now right | exact H].
    + intros [H|[e' [[<-|Hin] H]]].
      * left. now left.
      * left. now right.
      * right. exists e'. split; [exact Hin | exact H].
Qed.

Lemma has_key_generate rs p k :
  forall paths,
    has_key (fold_left add_resource rs paths) p k
    <-> has_key paths p k
        \/ exists r e, In r rs /\ In e (endpoints r)
                       /\ p = path e /\ k = method_key e.
Proof.
  induction rs as [|r rs IH]; intros paths; cbn [fold_left].
  - split; [now left | intros [H|[r [e [[] _]]]]; exact H].
  - rewrite IH, has_key_add_resource. split.
    + intros [[H|[e [Hin H]]]|[r' [e [Hr H]]]].
      * now left.
      * right. exists r, e. split; [now left | split; [exact Hin | exact H]].
      * right. exists r', e. split; [now right | exact H].
    + intros [H|[r' [e [[<-|Hr] [Hin H]]]]].
      * left. now left.
      * left. right. exists e. split; [exact Hin | exact H].
      * right. exists r', e. split; [exact Hr | split; [exact Hin | exact H]].
Qed.

Lemma elem_of_document_pairs (d : OpenAPI.Spec) p k :
  (p, k) ∈ document_pairs d <-> has_key (OpenAPI.paths d) p k.
Proof.
  unfold document_pairs, has_key.
  rewrite elem_of_list_to_set, list_elem_of_In, in_flat_map. split.
  - intros [[p' ops] [Hin Hk]].
    apply list_elem_of_In, elem_of_map_to_list in Hin.
    apply list_elem_of_In, list_elem_of_fmap in Hk as [[k' op] [[= -> ->] Hk]].
    apply elem_of_map_to_list in Hk.
    exists ops. split; [exact Hin | now exists op].
  - intros [ops [Hp [op Hk]]]. exists (p, ops). split.
    + now apply list_elem_of_In, elem_of_map_to_list.
    + apply list_elem_of_In, list_elem_of_fmap. exists (k, op).
      split; [reflexivity | now apply elem_of_map_to_list].
Qed.

Lemma elem_of_model_pairs rs p k :
  (p, k) ∈ model_pairs rs
  <-> exists r e, In r rs /\ In e (endpoints r) /\ p = path e /\ k = method_key e.
Proof.
  unfold model_pairs.
  rewrite elem_of_list_to_set, list_elem_of_In, in_flat_map. split.
  - intros [r [Hr He]].
    apply list_elem_of_In, list_elem_of_fmap in He as [e [[= -> ->] He]].
    exists r, e. split; [exact Hr | split; [now apply list_elem_of_In | tauto]].
  - intros [r [e (Hr & He & -> & ->)]]. exists r. split; [exact Hr|].
    apply list_elem_of_In, list_elem_of_fmap. exists e.
    split; [reflexivity | now apply list_elem_of_In].
Qed.

(** The (path, operation key) pairs of the dictionary [generate] builds are
    the (path, lowercased method) pairs of the endpoints of the resources it
    was given, as sets (equal pairs collapse into one entry).  The keys of
    the seven methods are get, post, put, delete, patch, head and options,
    and the key determines the method.  This is the value handed to
    [yaml.dump]; what the writer makes of it is not part of the statement. *)
Theorem document_pairs_of_model (rs : list APIResource)
    (title version : string) :
  document_pairs (generate_from rs title version) = model_pairs rs
  /\ (forall e : Endpoint,
        method_key e
        = match method e with
          | GET => "get" | POST => "post" | PUT => "put" | DELETE => "delete"
          | PATCH => "patch" | HEAD => "head" | OPTIONS => "options"
          end)
  /\ (forall p k,
        (exists ops op, OpenAPI.paths (generate_from rs title version) !! p = Some ops
                        /\ ops !! k = Some op)
        <-> (exists r e, In r rs /\ In e (endpoints r)
                         /\ p = path e /\ k = Str.lower (value (method e))))
  /\ (forall h1 h2 : HttpMethod,
        Str.lower (value h1) = Str.lower (value h2) <-> h1 = h2).
Proof.
  assert (forall p k,
            has_key (OpenAPI.paths (generate_from rs title version)) p k
            <-> exists r e, In r rs /\ In e (endpoints r)
                            /\ p = path e /\ k = method_key e) as Hkeys.
  { intros p k. cbn [generate_from OpenAPI.paths]. rewrite has_key_generate.
    split; [intros [H|H]; [now apply has_key_empty in H | exact H] | now right]. }
  split; [|split; [|split]].
  - apply set_eq. intros [p k].
    now rewrite elem_of_document_pairs, elem_of_model_pairs, Hkeys.
  - intros e. unfold method_key. now destruct (method e).
  - intros p k. rewrite <- (Hkeys p k). unfold has_key. split.
    + intros [ops [op [H1 H2]]]. exists ops. split; [exact H1 | now exists op].
    + intros [ops [H1 [op H2]]]. now exists ops, op.
  - intros h1 h2. split; [|now intros ->].
    destruct h1, h2; vm_compute; intros H; try reflexivity; discriminate.
Qed.

End Document.

(** ** Annotated signatures under the method pattern (C2) *)

Section Blocks.
Import Re.

Lemma word_not_space a : CharClass.word a = true -> CharClass.space a = false.
Proof. destruct a as [[] [] [] [] [] [] [] []]; vm_compute; congruence. Qed.

Lemma space_not_word a : CharClass.space a = true -> CharClass.word a = false.
Proof. destruct a as [[] [] [] [] [] [] [] []]; vm_compute; congruence. Qed.

(** A run of characters of one class, before a text that stops another
    class, stops that class when the two classes are disjoint. *)
Lemma stops_app (p q : ascii -> bool) u rest :
  (forall a, q a = true -> p a = false) ->
  Str.all q u = true -> stops p rest = true -> stops p (u ++ rest) = true.
Proof.
  intros D Hu Hr. destruct u as [|a u]; [exact Hr|].
  cbn [Str.all] in Hu. apply andb_true_iff in Hu as [Ha _].
  cbn [append stops]. now rewrite (D a Ha).
Qed.

Lemma stops_app_nonempty (p q : ascii -> bool) u rest :
  (forall a, q a = true -> p a = false) ->
  nonempty u = true -> Str.all q u = true -> stops p (u ++ rest) = true.
Proof.
  intros D Hn Hu. destruct u as [|a u]; [discriminate|].
  cbn [Str.all] in Hu. apply andb_true_iff in Hu as [Ha _].
  cbn [append stops]. now rewrite (D a Ha).
Qed.

Lemma take_all s : Str.take (Str.len s) s = s.
Proof. rewrite <- (str_app_nil_r s) at 2. rewrite take_app. reflexivity. Qed.

Lemma consumed_all s : consumed s "" = s.
Proof.
  unfold consumed. cbn [Str.len String.length]. rewrite Nat.sub_0_r. apply take_all.
Qed.

Lemma len_app_lt u rest : nonempty u = true -> Str.len rest < Str.len (u ++ rest).
Proof.
  intros H. destruct u as [|a u]; [discriminate|].
  rewrite len_app, len_cons. lia.
Qed.

(** The signature part of the method pattern on a signature. *)
Lemma exec_signature g rest caps k res :
  wf_sig g = true ->
  k rest ((2, sig_name g) :: caps) = Some res ->
  exec Pat.signature_tail (render_sig g ++ rest) caps k = Some res.
Proof.
  unfold wf_sig. intros W Hk.
  repeat (apply andb_true_iff in W as [W ?]).
  unfold render_sig, Pat.signature_tail.
  rewrite !str_app_assoc.
  rewrite exec_seq.
  apply (exec_star_cls_greedy _ "" _); [reflexivity | reflexivity |].
  rewrite exec_seq, exec_lit.
  cbn [Str.starts_with Str.drop Str.len String.length Ascii.eqb Bool.eqb andb].
  rewrite exec_seq.
  apply exec_plus_cls_greedy; [assumption | assumption | |].
  { eapply stops_app_nonempty; [apply word_not_space | |]; assumption. }
  rewrite exec_seq.
  apply exec_plus_cls_greedy; [assumption | assumption | |].
  { eapply stops_app_nonempty; [apply space_not_word | |]; assumption. }
  rewrite exec_seq.
  apply exec_plus_cls_greedy; [assumption | assumption | |].
  { eapply stops_app_nonempty; [apply word_not_space | |]; assumption. }
  rewrite exec_seq, exec_grp.
  apply exec_plus_cls_greedy; [assumption | assumption | |].
  { eapply stops_app; [apply space_not_word | assumption | reflexivity]. }
  rewrite exec_seq.
  apply exec_star_cls_greedy; [assumption | reflexivity |].
  cbn [append]. rewrite exec_seq, exec_chr, exec_seq.
  apply exec_star_cls_greedy; [assumption | reflexivity |].
  cbn [append]. rewrite exec_chr.
  rewrite <- Hk. f_equal. f_equal. f_equal. apply consumed_app.
Qed.

Lemma exec_opt_skip r s caps k :
  exec r s caps k = None -> exec (Opt r) s caps k = k s caps.
Proof. intros H. unfold Opt. cbn [exec]. now rewrite H. Qed.

Lemma exec_opt_take r s caps k res :
  exec r s caps k = Some res -> exec (Opt r) s caps k = Some res.
Proof. intros H. unfold Opt. cbn [exec]. now rewrite H. Qed.

Lemma exec_chr_stop c r rest caps k :
  stops (Ascii.eqb c) rest = true -> exec (Seq (Chr c) r) rest caps k = None.
Proof.
  intros H. rewrite exec_seq. destruct rest as [|a rest]; [reflexivity|].
  cbn [stops] in H. apply negb_true_iff in H. cbn [exec].
  now rewrite Ascii.eqb_sym, H.
Qed.

(** One repetition of the first group on an annotation block. *)
(** Concatenations are put in right-nested form, literals unfolded. *)
Ltac norm_app := repeat progress (rewrite ?str_app_assoc; cbn [append]).

Lemma exec_block b rest caps k res :
  wf_block b = true -> follows b rest = true ->
  k rest ((1, render b) :: caps) = Some res ->
  exec (Grp 1 Pat.annotation_block) (render b ++ rest) caps k = Some res.
Proof.
  destruct b as [name blank args].
  unfold wf_block, follows. cbn [b_name b_blank b_args].
  intros W F Hk.
  apply andb_true_iff in W as [W Wargs].
  apply andb_true_iff in W as [W Wblank].
  apply andb_true_iff in W as [Wne Wname].
  apply andb_true_iff in F as [Fsp F].
  rewrite exec_grp. unfold Pat.annotation_block.
  set (s0 := render (mkBlock name blank args) ++ rest) at 2.
  unfold render. cbn [b_name b_blank b_args].
  norm_app. rewrite exec_seq, exec_chr, exec_seq.
  destruct args as [[args blank']|].
  - apply andb_true_iff in Wargs as [Wa Wb].
    norm_app.
    apply exec_plus_cls_greedy; [exact Wne | exact Wname | |].
    { eapply stops_app; [apply space_not_word | exact Wblank | reflexivity]. }
    rewrite exec_seq.
    apply exec_star_cls_greedy; [exact Wblank | reflexivity |].
    rewrite exec_seq. apply exec_opt_take.
    rewrite exec_seq, exec_chr, exec_seq.
    apply exec_star_cls_greedy; [exact Wa | reflexivity |].
    rewrite exec_chr.
    apply exec_star_cls_greedy; [exact Wb | exact Fsp |].
    rewrite <- Hk. f_equal. f_equal. f_equal. subst s0. apply consumed_app.
  - cbn [bool_decide decide_rel] in F.
    assert (stops (Ascii.eqb "(") rest = true
            /\ (nonempty blank || stops CharClass.word rest) = true) as [Fp Fw].
    { destruct (bool_decide (is_Some (@None (string * string)))) eqn:E.
      - apply bool_decide_eq_true in E. now destruct E.
      - cbn [orb] in F. now apply andb_true_iff in F. }
    rewrite ?str_app_nil_r. norm_app.
    apply exec_plus_cls_greedy; [exact Wne | exact Wname | |].
    { destruct blank as [|c blank]; [exact Fw |].
      eapply stops_app_nonempty; [apply space_not_word | reflexivity | exact Wblank]. }
    rewrite exec_seq.
    apply exec_star_cls_greedy; [exact Wblank | exact Fsp |].
    rewrite exec_seq, exec_opt_skip by (apply exec_chr_stop, Fp).
    apply (exec_star_cls_greedy _ "" _); [reflexivity | exact Fsp |].
    rewrite <- Hk. f_equal. f_equal. f_equal. subst s0. apply consumed_app.
Qed.

Lemma render_starts b : exists t, render b = String "@" t.
Proof. unfold render. cbn [append]. eauto. Qed.

Lemma render_all_starts bs t0 :
  exists t, render_all bs ++ String "@" t0 = String "@" t.
Proof.
  destruct bs as [|b bs]; cbn [render_all append]; [eauto|].
  destruct (render_starts b) as [t ->]. cbn [append]. eauto.
Qed.

Lemma follows_at b t : follows b (String "@" t) = true.
Proof.
  unfold follows. cbn [stops].
  destruct (bool_decide _), (nonempty _); reflexivity.
Qed.

Lemma follows_signature b g :
  closed_block b = true -> follows b (render_sig g) = true.
Proof.
  unfold closed_block, follows, render_sig, nonempty. cbn [append stops].
  intros H. apply orb_true_iff in H as [->| ->]; [|reflexivity].
  now destruct (bool_decide _).
Qed.

(** The repetition of the first group fails to start on a signature. *)
Lemma exec_block_signature g rest caps k :
  exec (Grp 1 Pat.annotation_block) (render_sig g ++ rest) caps k = None.
Proof.
  rewrite exec_grp. unfold Pat.annotation_block, render_sig. cbn [append].
  now rewrite exec_chr_stop.
Qed.

Lemma exec_block_signature_end g caps k :
  exec (Grp 1 Pat.annotation_block) (render_sig g) caps k = None.
Proof.
  rewrite <- (str_app_nil_r (render_sig g)). apply exec_block_signature.
Qed.

Lemma exec_signature_end g caps k res :
  wf_sig g = true ->
  k "" ((2, sig_name g) :: caps) = Some res ->
  exec Pat.signature_tail (render_sig g) caps k = Some res.
Proof.
  intros W H. rewrite <- (str_app_nil_r (render_sig g)).
  now apply exec_signature.
Qed.

(** The repetition of the first group runs through the blocks [bs], each
    repetition capturing its block. *)
Lemma exec_blocks bs :
  forall caps t0 k res,
    forallb wf_block bs = true ->
    exec (Star (Grp 1 Pat.annotation_block)) (String "@" t0)
      (block_captures bs caps) k = Some res ->
    exec (Star (Grp 1 Pat.annotation_block)) (render_all bs ++ String "@" t0)
      caps k = Some res.
Proof.
  induction bs as [|b bs IH]; intros caps t0 k res W H.
  - exact H.
  - cbn [forallb] in W. apply andb_true_iff in W as [Wb W].
    cbn [render_all block_captures] in *. rewrite str_app_assoc.
    rewrite exec_star.
    destruct (render_all_starts bs t0) as [t Et].
    rewrite (exec_block b _ caps _ res Wb); [reflexivity | |].
    + rewrite Et. apply follows_at.
    + rewrite (proj2 (Nat.ltb_lt _ _)).
      * apply IH; assumption.
      * apply len_app_lt. destruct (render_starts b) as [t' ->]. reflexivity.
Qed.

(** The method pattern on annotation blocks followed by a signature: the
    whole text is matched, the first group holds the last block and the
    second group the name of the method. *)
Lemma match_at_annotated bs b g rest adv :
  forallb wf_block bs = true -> wf_block b = true -> closed_block b = true ->
  wf_sig g = true ->
  match_at Pat.method_pattern
    (render_all bs ++ render b ++ render_sig g ++ rest) adv
  = Some (rest, (2, sig_name g) :: (1, render b) :: block_captures bs []).
Proof.
  intros Wbs Wb Cb Wg. unfold match_at, Pat.method_pattern.
  rewrite exec_seq.
  destruct (render_starts b) as [t Et].
  assert (render b ++ render_sig g ++ rest
          = String "@" (t ++ render_sig g ++ rest)) as Etail
    by now rewrite Et.
  rewrite Etail. apply exec_blocks; [exact Wbs |]. rewrite <- Etail.
  rewrite exec_star.
  rewrite (exec_block b _ _ _ (rest, (2, sig_name g) :: (1, render b)
                                     :: block_captures bs []) Wb);
    [reflexivity | |].
  { unfold render_sig. rewrite !str_app_assoc.
    apply (follows_signature b (mkSignature (sig_blank1 g) (sig_type g)
             (sig_blank2 g) (sig_name g) (sig_blank3 g)
             (sig_params g ++ ")" ++ rest)) Cb). }
  rewrite (proj2 (Nat.ltb_lt _ _))
    by (apply len_app_lt; rewrite Et; reflexivity).
  rewrite exec_star.
  rewrite exec_block_signature. cbn [or_else].
  apply exec_signature; [exact Wg |].
  assert ((Str.len rest
           =? Str.len (render_all bs ++ render b ++ render_sig g ++ rest))%nat
          = false) as ->.
  { apply Nat.eqb_neq. rewrite Et, !len_app. cbn [append]. rewrite len_cons.
    lia. }
  now rewrite andb_false_r.
Qed.

Lemma match_at_method_pattern_nil adv :
  match_at Pat.method_pattern "" adv = None.
Proof. reflexivity. Qed.

(** The first match the iterator gives on annotation blocks, a signature
    and any text after them. *)
Lemma finditer_annotated bs b g rest :
  forallb wf_block bs = true -> wf_block b = true -> closed_block b = true ->
  wf_sig g = true ->
  let annotated := render_all bs ++ render b ++ render_sig g in
  exists more,
    finditer Pat.method_pattern (annotated ++ rest)
    = mkMatch 0 (Str.len annotated) annotated
        ((2, sig_name g) :: (1, render b) :: block_captures bs []) :: more
    /\ (rest = "" -> more = []).
Proof.
  intros Wbs Wb Cb Wg annotated. unfold finditer.
  replace (2 * Str.len (annotated ++ rest) + 2)
    with (S (S (2 * Str.len (annotated ++ rest)))) by lia.
  cbn [finditer_from].
  assert (search_from Pat.method_pattern 0 (annotated ++ rest) false
          = Some (mkMatch 0 (Str.len annotated) annotated
                    ((2, sig_name g) :: (1, render b) :: block_captures bs []),
                  rest)) as ->.
  { unfold annotated. rewrite !str_app_assoc.
    rewrite (search_from_hit _ _ _ _ _ _
               (match_at_annotated bs b g rest false Wbs Wb Cb Wg)).
    rewrite <- (str_app_assoc (render b)), <- (str_app_assoc (render_all bs)).
    now rewrite consumed_app. }
  eexists. split; [reflexivity |].
  intros ->. cbn [m_end m_start search_from].
  now rewrite match_at_method_pattern_nil.
Qed.

End Blocks.

Section Blanks.
Import Re.

(** Blanks after a text add no occurrence of a string without blanks. *)
Lemma starts_with_blank l u blank :
  nonempty l = true -> Str.all not_space l = true ->
  Str.all CharClass.space blank = true ->
  Str.starts_with l (u ++ blank) = Str.starts_with l u.
Proof.
  intros Hn Hl Hb. revert u Hn Hl.
  induction l as [|x l IH]; intros u Hn Hl; [discriminate|].
  cbn [Str.all] in Hl. apply andb_true_iff in Hl as [Hx Hl].
  destruct u as [|a u]; cbn [append Str.starts_with].
  - destruct blank as [|c blank]; [reflexivity|]. cbn [Str.starts_with].
    cbn [Str.all] in Hb. apply andb_true_iff in Hb as [Hc _].
    destruct (Ascii.eqb x c) eqn:E; [|reflexivity].
    apply Ascii.eqb_eq in E. subst c. unfold not_space in Hx.
    rewrite Hc in Hx. discriminate.
  - destruct l as [|y l]; [reflexivity|]. now rewrite IH.
Qed.

Lemma contains_blank l u blank :
  nonempty l = true -> Str.all not_space l = true ->
  Str.all CharClass.space blank = true ->
  Str.contains l (u ++ blank) = Str.contains l u.
Proof.
  intros Hn Hl Hb. induction u as [|a u IH].
  - cbn [append]. destruct l as [|x l]; [discriminate|].
    cbn [Str.all] in Hl. apply andb_true_iff in Hl as [Hx _].
    rewrite (contains_all_false CharClass.space x l blank); [reflexivity | | exact Hb].
    unfold not_space in Hx. now apply negb_true_iff in Hx.
  - cbn [append Str.contains].
    rewrite <- IH. f_equal.
    apply (starts_with_blank l (String a u) blank Hn Hl Hb).
Qed.

Lemma extract_http_method_blank pre blank :
  Str.all CharClass.space blank = true ->
  _extract_http_method (pre ++ blank) = _extract_http_method pre.
Proof.
  intros Hb. unfold _extract_http_method, JAX_RS_ANNOTATIONS.
  cbn [first_http_method].
  now rewrite !(fun l H1 H2 => contains_blank l pre blank H1 H2 Hb) by reflexivity.
Qed.

Lemma extract_method_path_absent annotations :
  Str.contains "@Path" annotations = false ->
  _extract_method_path annotations = "".
Proof.
  intros H. unfold _extract_method_path, Pat.path_pattern.
  now rewrite search_lit_absent.
Qed.

Lemma extract_media_types_absent annotations annotation_type :
  Str.contains annotation_type annotations = false ->
  _extract_media_types annotations annotation_type = [].
Proof.
  intros H. unfold _extract_media_types, Pat.media_pattern.
  now rewrite search_lit_absent.
Qed.

(** A bare HTTP-method annotation followed by blanks: its method is found,
    and neither a path nor a media type. *)
Lemma method_block_extraction h blank :
  Str.all CharClass.space blank = true ->
  _extract_http_method (render (method_block h blank)) = Some h
  /\ _extract_method_path (render (method_block h blank)) = ""
  /\ _extract_media_types (render (method_block h blank)) "@Consumes" = []
  /\ _extract_media_types (render (method_block h blank)) "@Produces" = [].
Proof.
  intros Hb. unfold render, method_block. cbn [b_name b_blank b_args].
  rewrite str_app_nil_r, <- str_app_assoc.
  repeat split.
  - rewrite extract_http_method_blank by exact Hb. now destruct h.
  - apply extract_method_path_absent.
    rewrite contains_blank by (reflexivity || exact Hb). now destruct h.
  - apply extract_media_types_absent.
    rewrite contains_blank by (reflexivity || exact Hb). now destruct h.
  - apply extract_media_types_absent.
    rewrite contains_blank by (reflexivity || exact Hb). now destruct h.
Qed.

End Blanks.

Section LastAnnotation.
Import Re.

(** The endpoint built from the annotation text [annotations] alone, for
    the method [h] found in it. *)
Lemma endpoint_of_annotated content base start stop text annotations method_name caps :
  endpoint_of_match content base
    (mkMatch start stop text ((2, method_name) :: (1, annotations) :: caps))
  = match _extract_http_method annotations with
    | None => None
    | Some h =>
        Some (mkEndpoint
                (_combine_paths base (_extract_method_path annotations))
                h method_name "" "" (_extract_parameters text content) None ∅
                (or_json (_extract_media_types annotations "@Consumes"))
                (or_json (_extract_media_types annotations "@Produces")) [])
    end.
Proof. reflexivity. Qed.




End LastAnnotation.

(** ** One file, one GET method (C3) *)

Section EndToEnd.
Import Re.

Lemma get_annotation_extraction blank :
  Str.all CharClass.space blank = true ->
  _extract_http_method ("@GET" ++ blank) = Some GET
  /\ _extract_method_path ("@GET" ++ blank) = ""
  /\ _extract_media_types ("@GET" ++ blank) "@Consumes" = []
  /\ _extract_media_types ("@GET" ++ blank) "@Produces" = [].
Proof.
  intros Hb.
  destruct (method_block_extraction GET blank Hb) as (E1 & E2 & E3 & E4).
  unfold render, method_block in *. cbn [b_name b_blank b_args value] in *.
  rewrite str_app_nil_r in *. cbn [append] in *. auto.
Qed.

(** What the analysis discovers in one file that qualifies, has the class
    path /users and one captured signature, annotated with GET only and
    without a parameter binding. *)
Lemma single_get_discovered (file text blank : string) (m : Match) :
  _is_jaxrs_resource text = true ->
  _extract_class_path text = Some "/users" ->
  finditer Pat.method_pattern text = [m] ->
  group 1 m = Some ("@GET" ++ blank) ->
  Str.all CharClass.space blank = true ->
  _extract_parameters (m_text m) text = [] ->
  discovered [mkJavaFile file (inl text)]
  = [ mkAPIResource (_extract_class_name text) "/users"
        [ json_endpoint "/users" GET (default "" (group 2 m)) ] "" ].
Proof.
  intros Hq Hpath Hm Hg Hb Hp.
  assert (_extract_endpoints text (Some "/users")
          = [ json_endpoint "/users" GET (default "" (group 2 m)) ]) as He.
  { unfold _extract_endpoints. rewrite Hm. cbn [omap list_omap].
    unfold endpoint_of_match, annotations_of. rewrite Hg.
    cbn [default from_option id].
    destruct (get_annotation_extraction blank Hb) as (-> & -> & -> & ->).
    rewrite Hp. reflexivity. }
  unfold discovered, resource_of_file, analyze_content.
  cbn [omap list_omap file_read]. rewrite Hq, Hpath.
  cbn [negb default from_option id]. rewrite He. reflexivity.
Qed.

(** What a new analyzer holds after its first analysis. *)
Lemma first_analysis (w : World) (root : string) :
  let '(self, w0) := JaxRSAnalyzer_init root w in
  let '(r, w1) := analyze self w0 in
  r = resources self /\ heap w1 !! r = Some (discovered (rglob_java w root)).
Proof.
  rewrite init_spec.
  rewrite (analyze_spec _ _ []) by (cbn [heap resources]; apply lookup_insert_eq).
  cbn [heap rglob_java trace resources repo_path app].
  split; [reflexivity | apply lookup_insert_eq].
Qed.

End EndToEnd.

(** ** Parameter bindings under the parameter pattern *)

Section Bindings.
Import Re.

Lemma exec_cls p a s caps k :
  p a = true -> exec (Cls p) (String a s) caps k = k s caps.
Proof. intros H. cbn [exec]. now rewrite H. Qed.

Lemma starts_with_stops p x l rest :
  p x = true -> stops p rest = true -> Str.starts_with (String x l) rest = false.
Proof.
  intros Hx Hr. destruct rest as [|a rest]; [reflexivity|].
  cbn [stops] in Hr. apply negb_true_iff in Hr. cbn [Str.starts_with].
  destruct (Ascii.eqb x a) eqn:E; [|reflexivity].
  apply Ascii.eqb_eq in E. subst. congruence.
Qed.

Lemma quote_not_space a : is_quote a = true -> CharClass.space a = false.
Proof. destruct a as [[] [] [] [] [] [] [] []]; vm_compute; congruence. Qed.

Lemma quote_stops a s : is_quote a = true -> stops not_quote (String a s) = true.
Proof.
  intros H. cbn [stops]. unfold not_quote, CharClass.none_of.
  unfold is_quote in H. now rewrite H.
Qed.

(** The kind of a form binding: the run of word characters is given back
    up to the literal. *)
Lemma exec_form_kind tail caps k :
  stops CharClass.word tail = true ->
  exec (Seq (Plus Pat.w) (Lit "Param")) ("FormParam" ++ tail) caps k
  = k tail caps.
Proof.
  intros Ht. unfold Plus, Pat.w. cbn [append]. rewrite !exec_seq.
  rewrite exec_cls by reflexivity.
  rewrite !exec_star_cls_cons by reflexivity.
  rewrite exec_star_cls_stops by exact Ht.
  rewrite !exec_lit.
  rewrite (starts_with_stops CharClass.word) by (reflexivity || exact Ht).
  cbn [Str.starts_with Str.drop Str.len String.length Ascii.eqb Bool.eqb
       andb or_else].
  now rewrite !or_else_none_r.
Qed.

Lemma exec_chr_app c s caps k :
  exec (Chr c) (String c "" ++ s) caps k = k s caps.
Proof. apply exec_chr. Qed.

Lemma exec_cls_app p a s caps k :
  p a = true -> exec (Cls p) (String a "" ++ s) caps k = k s caps.
Proof. apply exec_cls. Qed.

(** The parameter pattern on a form binding: it matches, and its first
    group holds the form kind. *)
Lemma match_at_form_binding d rest adv :
  wf_binding d = true -> stops CharClass.word rest = true ->
  match_at Pat.param_pattern (render_binding "FormParam" d ++ rest) adv
  = Some (rest, [(4, bd_var d); (3, bd_type d); (2, bd_name d);
                 (1, "FormParam")]).
Proof.
  unfold wf_binding. intros W Hr.
  repeat (apply andb_true_iff in W as [W ?]).
  unfold match_at, Pat.param_pattern, Pat.quoted, render_binding.
  unfold Pat.quote, Pat.not_quote, Pat.sp, Pat.w.
  set (whole := (_ ++ rest)) at 2.
  rewrite !str_app_assoc.
  rewrite exec_seq, exec_chr_app, exec_seq, exec_grp.
  rewrite exec_form_kind, consumed_app.
  2:{ eapply stops_app; [apply space_not_word | eassumption | reflexivity]. }
  rewrite exec_seq.
  apply exec_star_cls_greedy; [assumption | reflexivity |].
  rewrite exec_seq, exec_chr_app, exec_seq.
  apply exec_star_cls_greedy; [assumption | |].
  { cbn [append stops]. now rewrite quote_not_space. }
  rewrite !exec_seq. rewrite exec_cls_app by assumption.
  rewrite exec_seq, exec_grp.
  apply exec_plus_cls_greedy; [assumption | assumption | |].
  { cbn [append]. now apply quote_stops. }
  rewrite exec_cls_app by assumption.
  rewrite consumed_app, exec_seq.
  apply exec_star_cls_greedy; [assumption | reflexivity |].
  rewrite exec_seq, exec_chr_app, exec_seq.
  apply exec_plus_cls_greedy; [assumption | assumption | |].
  { eapply stops_app_nonempty; [apply word_not_space | |]; assumption. }
  rewrite exec_seq, exec_grp.
  apply exec_plus_cls_greedy; [assumption | assumption | |].
  { eapply stops_app_nonempty; [apply space_not_word | |]; assumption. }
  rewrite consumed_app, exec_seq.
  apply exec_plus_cls_greedy; [assumption | assumption | |].
  { eapply stops_app_nonempty; [apply word_not_space | |]; assumption. }
  rewrite exec_grp.
  apply exec_plus_cls_greedy; [assumption | assumption | exact Hr |].
  rewrite consumed_app.
  assert ((Str.len rest =? Str.len whole)%nat = false) as ->.
  { apply Nat.eqb_neq. subst whole. rewrite len_app. cbn [append].
    rewrite len_cons. lia. }
  now rewrite andb_false_r.
Qed.

(** The first match the iterator gives on a form binding. *)
Lemma finditer_form_binding d rest :
  wf_binding d = true -> stops CharClass.word rest = true ->
  exists more,
    finditer Pat.param_pattern (render_binding "FormParam" d ++ rest)
    = mkMatch 0 (Str.len (render_binding "FormParam" d))
        (render_binding "FormParam" d)
        [(4, bd_var d); (3, bd_type d); (2, bd_name d); (1, "FormParam")]
      :: more
    /\ (rest = "" -> more = []).
Proof.
  intros W Hr. unfold finditer.
  replace (2 * Str.len (render_binding "FormParam" d ++ rest) + 2)
    with (S (S (2 * Str.len (render_binding "FormParam" d ++ rest)))) by lia.
  cbn [finditer_from].
  rewrite (search_from_hit _ _ _ _ _ _ (match_at_form_binding d rest false W Hr)).
  rewrite consumed_app.
  eexists. split; [reflexivity |].
  intros ->. reflexivity.
Qed.

(** C7: a binding of the form kind is matched by the parameter pattern (the
    first match on such a binding covers it, and its kind is FormParam) but
    adds no parameter: nothing is extracted from the binding, and the matches
    of that kind can be left out of any extraction; and every parameter of
    every extracted list, endpoint and discovered resource is located in the
    path, the query, a header or a cookie, never in form data. *)
Theorem C7_form_params_not_collected (d : Binding) (rest sig content : string)
    (base : option string) (files : list JavaFile) :
  wf_binding d = true -> stops CharClass.word rest = true ->
  (exists m more,
      finditer Pat.param_pattern (render_binding "FormParam" d ++ rest)
      = m :: more
      /\ (rest = "" -> more = [])
      /\ m_text m = render_binding "FormParam" d
      /\ binding_kind m = "FormParam"
      /\ group 2 m = Some (bd_name d)
      /\ parameter_of_match m = []
      /\ _extract_parameters (render_binding "FormParam" d ++ rest) content
         = concat (parameter_of_match <$> more))
  /\ _extract_parameters (render_binding "FormParam" d) content = []
  /\ _extract_parameters sig content
     = concat (parameter_of_match <$>
                 List.filter (fun m => negb (String.eqb (binding_kind m) "FormParam"))
                   (finditer Pat.param_pattern sig))
  /\ Forall collected_location (_extract_parameters sig content)
  /\ Forall (fun e => Forall collected_location (parameters e))
       (_extract_endpoints content base)
  /\ Forall (fun r => Forall (fun e => Forall collected_location (parameters e))
                        (endpoints r))
       (discovered files).
Proof.
  intros W Hr. split; [|split; [|split; [|split; [|split]]]].
  - destruct (finditer_form_binding d rest W Hr) as [more [Hf Hmore]].
    eexists. exists more. split; [exact Hf |]. split; [exact Hmore |].
    repeat (split; [reflexivity |]).
    unfold _extract_parameters. rewrite Hf. reflexivity.
  - destruct (finditer_form_binding d "" W eq_refl) as [more [Hf Hmore]].
    rewrite str_app_nil_r in Hf.
    unfold _extract_parameters. rewrite Hf, (Hmore eq_refl). reflexivity.
  - unfold _extract_parameters.
    induction (finditer Pat.param_pattern sig) as [|m l IH]; [reflexivity|].
    cbn [fmap list_fmap concat List.filter].
    destruct (String.eqb (binding_kind m) "FormParam") eqn:E; cbn [negb].
    + apply String.eqb_eq in E. rewrite (parameter_of_match_form m E).
      exact IH.
    + cbn [fmap list_fmap concat]. now rewrite <- IH.
  - apply collected_location_extracted.
  - apply endpoints_forall_parameters. intros sig'.
    apply collected_location_extracted.
  - apply discovered_forall_parameters. intros sig' content'.
    apply collected_location_extracted.
Qed.

Lemma C7_form_params_not_collected_witness :
  wf_binding sample_binding = true
  /\ render_binding "FormParam" sample_binding = sample_form
  /\ _extract_parameters sample_form "" = [].
Proof.
  split; [reflexivity | split; [reflexivity |]].
  exact (proj1 (proj2 (C7_form_params_not_collected sample_binding "" "" ""
                         None [] eq_refl eq_refl))).
Defined.

End Bindings.

(** ** Matching on a known prefix *)

Section Prefix.
Import Re.

Lemma take_app_le n pre T :
  n <= Str.len pre -> Str.take n (pre ++ T) = Str.take n pre.
Proof.
  revert pre. induction n as [|n IH]; intros pre H.
  - now destruct pre; destruct T.
  - destruct pre as [|a pre]; [cbn in H; lia|].
    rewrite len_cons in H. cbn [append Str.take]. rewrite IH by lia. reflexivity.
Qed.

Lemma consumed_app_r pre s1 T : consumed (pre ++ T) (s1 ++ T) = consumed pre s1.
Proof.
  unfold consumed. rewrite !len_app.
  replace (Str.len pre + Str.len T - (Str.len s1 + Str.len T))
    with (Str.len pre - Str.len s1) by lia.
  apply take_app_le. lia.
Qed.

Lemma ltb_len_app s1 pre T :
  (Str.len (s1 ++ T) <? Str.len (pre ++ T))%nat = (Str.len s1 <? Str.len pre)%nat.
Proof.
  rewrite !len_app.
  destruct (Str.len s1 <? Str.len pre)%nat eqn:E.
  - apply Nat.ltb_lt in E. apply Nat.ltb_lt. lia.
  - apply Nat.ltb_ge in E. apply Nat.ltb_ge. lia.
Qed.

(** The verdict on the prefix holds for every text that starts with it. *)
Lemma pexec_sound r T :
  forall pre caps k K,
    (forall s1 c1, agrees T (k s1 c1) (K (s1 ++ T) c1)) ->
    agrees T (pexec r pre caps k) (exec r (pre ++ T) caps K).
Proof.
  induction r as [|c|p|r1 IH1 r2 IH2|r1 IH1 r2 IH2|r1 IH1|n r1 IH1];
    intros pre caps k K H.
  - apply H.
  - destruct pre as [|a s]; [exact I|]. cbn [pexec exec append].
    destruct (Ascii.eqb a c); [apply H | reflexivity].
  - destruct pre as [|a s]; [exact I|]. cbn [pexec exec append].
    destruct (p a); [apply H | reflexivity].
  - cbn [pexec]. rewrite exec_seq. apply IH1. intros s1 c1. now apply IH2.
  - cbn [pexec exec].
    pose proof (IH1 pre caps k K H) as A1. pose proof (IH2 pre caps k K H) as A2.
    destruct (pexec r1 pre caps k); cbn [agrees] in *.
    + rewrite A1. exact A2.
    + exact I.
    + now rewrite A1.
  - cbn [pexec]. generalize (S (Str.len pre)). intros fuel.
    revert pre caps. induction fuel as [|fuel IHf]; intros pre caps; [exact I|].
    cbn [ploop]. rewrite exec_star.
    match goal with
    | |- agrees _ (match pexec r1 pre caps ?k' with _ => _ end)
           (or_else (exec r1 _ _ ?K') _) =>
        assert (agrees T (pexec r1 pre caps k') (exec r1 (pre ++ T) caps K')) as A
    end.
    { apply IH1. intros s1 c1. rewrite ltb_len_app.
      destruct (Str.len s1 <? Str.len pre)%nat; [apply IHf | apply H]. }
    destruct (pexec r1 pre caps _); cbn [agrees] in *.
    + rewrite A. apply H.
    + exact I.
    + now rewrite A.
  - cbn [pexec]. rewrite exec_grp. apply IH1. intros s1 c1.
    rewrite consumed_app_r. apply H.
Qed.

Lemma pmatch_at_sound r pre T :
  agrees T (pmatch_at r pre) (match_at r (pre ++ T) false).
Proof. unfold pmatch_at, match_at. apply pexec_sound. intros s1 c1. reflexivity. Qed.

Lemma pmatch_at_dead r pre T :
  pmatch_at r pre = Dead -> match_at r (pre ++ T) false = None.
Proof. intros H. pose proof (pmatch_at_sound r pre T) as A. now rewrite H in A. Qed.

Lemma pmatch_at_hit r pre T s2 c2 :
  pmatch_at r pre = Hit s2 c2 ->
  match_at r (pre ++ T) false = Some (s2 ++ T, c2).
Proof. intros H. pose proof (pmatch_at_sound r pre T) as A. now rewrite H in A. Qed.

(** The search skips the positions of the prefix where no attempt
    succeeds. *)
Lemma search_from_dead r T :
  forall n pre pos,
    dead_upto r n pre = true ->
    search_from r pos (pre ++ T) false
    = search_from r (pos + n) (Str.drop n pre ++ T) false.
Proof.
  induction n as [|n IH]; intros pre pos H.
  - rewrite Nat.add_0_r. now destruct pre.
  - destruct pre as [|a pre]; [discriminate|]. cbn [dead_upto] in H.
    destruct (pmatch_at r (String a pre)) eqn:E; try discriminate.
    cbn [append search_from].
    change (String a (pre ++ T)) with (String a pre ++ T).
    rewrite (pmatch_at_dead _ _ T E).
    rewrite (IH pre (S pos) H). cbn [Str.drop]. f_equal. lia.
Qed.

(** A search whose first attempt hits inside the prefix. *)
Lemma search_prefix_hit r pre T s2 c2 :
  pmatch_at r pre = Hit s2 c2 ->
  search r (pre ++ T)
  = Some (mkMatch 0 (Str.len (consumed pre s2)) (consumed pre s2) c2).
Proof.
  intros H. unfold search.
  rewrite (search_from_hit _ _ _ _ _ _ (pmatch_at_hit r pre T s2 c2 H)).
  now rewrite consumed_app_r.
Qed.

End Prefix.

(** ** A resource class with one GET method *)

Section Family.
Import Re.

Lemma contains_of_starts l s : Str.starts_with l s = true -> Str.contains l s = true.
Proof. intros H. destruct s; cbn [Str.contains]; now rewrite H. Qed.

Lemma contains_app_r l u v :
  Str.contains l v = true -> Str.contains l (u ++ v) = true.
Proof.
  intros H. induction u as [|a u IH]; [exact H|].
  cbn [append Str.contains]. rewrite IH. apply orb_true_r.
Qed.

Lemma contains_tail l a s :
  Str.contains l (String a s) = false -> Str.contains l s = false.
Proof. cbn [Str.contains]. intros H. now apply orb_false_iff in H as [_ H]. Qed.

Lemma contains_char_app c u v :
  Str.contains (String c "") (u ++ v)
  = Str.contains (String c "") u || Str.contains (String c "") v.
Proof.
  induction u as [|a u IH].
  - cbn [append]. now destruct v.
  - cbn [append Str.contains]. rewrite IH.
    cbn [Str.starts_with]. now rewrite orb_assoc.
Qed.

(** A pattern all of whose matches hold a given text finds nothing in a
    text that does not hold it. *)
Lemma search_from_absent r l :
  (forall s adv res, match_at r s adv = Some res -> Str.contains l s = true) ->
  forall s pos adv, Str.contains l s = false -> search_from r pos s adv = None.
Proof.
  intros Hr. induction s as [|a s IH]; intros pos adv H; cbn [search_from].
  - destruct (match_at r "" adv) as [[rest c]|] eqn:E; [|reflexivity].
    apply Hr in E. congruence.
  - destruct (match_at r (String a s) adv) as [[rest c]|] eqn:E.
    + apply Hr in E. congruence.
    + apply IH. eapply contains_tail, H.
Qed.

Lemma method_match_has_public s adv res :
  match_at Pat.method_pattern s adv = Some res ->
  Str.contains "public" s = true.
Proof.
  unfold match_at, Pat.method_pattern. rewrite exec_seq. intros H.
  apply exec_reaches in H as (u & s1 & c1 & -> & H).
  unfold Pat.signature_tail in H. rewrite exec_seq in H.
  apply exec_reaches in H as (u2 & s2 & c2 & -> & H).
  rewrite exec_seq, exec_lit in H.
  destruct (Str.starts_with "public" s2) eqn:E; [|discriminate].
  now apply contains_app_r, contains_app_r, contains_of_starts.
Qed.

Lemma param_match_has_at s adv res :
  match_at Pat.param_pattern s adv = Some res -> Str.contains "@" s = true.
Proof.
  unfold match_at, Pat.param_pattern. rewrite exec_seq. intros H.
  destruct s as [|a s]; [discriminate|]. cbn [exec] in H.
  destruct (Ascii.eqb a "@") eqn:E; [|discriminate].
  apply Ascii.eqb_eq in E. subst a. reflexivity.
Qed.

Lemma finditer_none r s :
  search_from r 0 s false = None -> finditer r s = [].
Proof.
  intros H. unfold finditer. rewrite Nat.add_comm. cbn [Nat.add finditer_from].
  now rewrite H.
Qed.

(** After GET, the run of word characters never ends before the literal of
    the parameter kinds. *)
Lemma exec_get_kind tail caps k :
  stops CharClass.word tail = true ->
  exec (Seq (Plus Pat.w) (Lit "Param")) ("GET" ++ tail) caps k = None.
Proof.
  intros Ht. unfold Plus, Pat.w. cbn [append]. rewrite !exec_seq.
  rewrite exec_cls by reflexivity.
  rewrite !exec_star_cls_cons by reflexivity.
  rewrite exec_star_cls_stops by exact Ht.
  rewrite !exec_lit.
  rewrite (starts_with_stops CharClass.word) by (reflexivity || exact Ht).
  reflexivity.
Qed.

(** A signature annotated with GET only, without an annotation in its
    parameter list, holds no parameter binding. *)
Lemma get_signature_no_binding blank g content :
  nonempty blank = true -> Str.all CharClass.space blank = true ->
  wf_sig g = true -> Str.contains "@" (sig_params g) = false ->
  _extract_parameters ("@GET" ++ blank ++ render_sig g) content = [].
Proof.
  intros Hn Hb W Hp. unfold wf_sig in W.
  repeat (apply andb_true_iff in W as [W ?]).
  unfold _extract_parameters. rewrite finditer_none; [reflexivity|].
  change ("@GET" ++ blank ++ render_sig g)
    with (String "@" ("GET" ++ blank ++ render_sig g)).
  cbn [search_from].
  assert (match_at Pat.param_pattern
            (String "@" ("GET" ++ blank ++ render_sig g)) false = None) as ->.
  { unfold match_at, Pat.param_pattern.
    rewrite exec_seq, exec_chr, exec_seq, exec_grp.
    rewrite exec_get_kind; [reflexivity|].
    eapply stops_app_nonempty; [apply space_not_word | |]; assumption. }
  apply (search_from_absent _ "@" param_match_has_at).
  unfold render_sig.
  rewrite !contains_char_app.
  rewrite (contains_all_false CharClass.space "@" "" blank eq_refl Hb).
  rewrite (contains_all_false CharClass.space "@" "" (sig_blank1 g) eq_refl) by assumption.
  rewrite (contains_all_false CharClass.word "@" "" (sig_type g) eq_refl) by assumption.
  rewrite (contains_all_false CharClass.space "@" "" (sig_blank2 g) eq_refl) by assumption.
  rewrite (contains_all_false CharClass.word "@" "" (sig_name g) eq_refl) by assumption.
  rewrite (contains_all_false CharClass.space "@" "" (sig_blank3 g) eq_refl) by assumption.
  rewrite Hp. reflexivity.
Qed.

(** The header of the resource class qualifies the file, with the class
    path /users and the class name UserResource, whatever follows it. *)
Lemma header_qualifies T : _is_jaxrs_resource (resource_header ++ T) = true.
Proof.
  unfold _is_jaxrs_resource, Pat.jaxrs_patterns. cbn [existsb].
  eassert (pmatch_at (Lit "@Path" +++ Star Pat.sp +++ Chr "(") resource_header
           = Hit _ _) as E by (vm_compute; reflexivity).
  now rewrite (search_prefix_hit _ _ T _ _ E).
Qed.

Lemma header_class_path T :
  _extract_class_path (resource_header ++ T) = Some "/users".
Proof.
  unfold _extract_class_path.
  eassert (pmatch_at Pat.class_pattern resource_header = Hit _ _) as E
    by (vm_compute; reflexivity).
  now rewrite (search_prefix_hit _ _ T _ _ E).
Qed.

Lemma header_class_name T :
  _extract_class_name (resource_header ++ T) = "UserResource".
Proof.
  unfold _extract_class_name, search.
  rewrite (search_from_dead _ _ 16) by (vm_compute; reflexivity).
  eassert (pmatch_at Pat.class_name_pattern (Str.drop 16 resource_header)
           = Hit _ _) as E by (vm_compute; reflexivity).
  now rewrite (search_from_hit _ _ _ _ _ _ (pmatch_at_hit _ _ T _ _ E)).
Qed.

(** The method pattern has one match in the file: the annotated
    signature. *)
Lemma get_method_file_matches blank g rest :
  nonempty blank = true -> Str.all CharClass.space blank = true ->
  wf_sig g = true -> Str.contains "public" rest = false ->
  let annotated := "@GET" ++ blank ++ render_sig g in
  finditer Pat.method_pattern (get_method_file blank g rest)
  = [ mkMatch 48 (48 + Str.len annotated) annotated
        [(2, sig_name g); (1, "@GET" ++ blank)] ].
Proof.
  intros Hn Hb Wg Hr annotated. unfold finditer.
  replace (2 * Str.len (get_method_file blank g rest) + 2)
    with (S (S (2 * Str.len (get_method_file blank g rest)))) by lia.
  cbn [finditer_from].
  assert (search_from Pat.method_pattern 0 (get_method_file blank g rest) false
          = Some (mkMatch 48 (48 + Str.len annotated) annotated
                    [(2, sig_name g); (1, "@GET" ++ blank)], rest)) as ->.
  { unfold get_method_file.
    change (resource_header ++ "@GET" ++ blank ++ render_sig g ++ rest)
      with ((resource_header ++ "@") ++ "GET" ++ blank ++ render_sig g ++ rest).
    rewrite (search_from_dead _ _ 48) by (vm_compute; reflexivity).
    change (Str.drop 48 (resource_header ++ "@")) with "@".
    change (0 + 48) with 48.
    assert (wf_block (method_block GET blank) = true) as Wb.
    { unfold wf_block, method_block. cbn. now rewrite Hb. }
    assert (closed_block (method_block GET blank) = true) as Cb.
    { unfold closed_block, method_block. cbn [b_blank].
      destruct blank; [discriminate | reflexivity]. }
    pose proof (match_at_annotated [] (method_block GET blank) g rest false
                  eq_refl Wb Cb Wg) as M.
    unfold render, method_block in M.
    cbn [render_all b_name b_blank b_args value block_captures append] in M.
    rewrite !str_app_nil_r in M.
    cbn [append].
    rewrite (search_from_hit _ _ _ _ _ _ M).
    assert (String "@" (String "G" (String "E" (String "T"
              (blank ++ render_sig g ++ rest)))) = annotated ++ rest) as ->.
    { unfold annotated. cbn [append]. now rewrite !str_app_assoc. }
    now rewrite consumed_app. }
  cbn [m_end m_start].
  now rewrite (search_from_absent _ "public" method_match_has_public).
Qed.

(** A file of the family: the header of the class UserResource with the
    class path /users, then one public method annotated with GET only. *)
Lemma get_method_file_discovered (file blank : string) (g : Signature)
    (rest : string) :
  nonempty blank = true -> Str.all CharClass.space blank = true ->
  wf_sig g = true -> Str.contains "@" (sig_params g) = false ->
  Str.contains "public" rest = false ->
  discovered [mkJavaFile file (inl (get_method_file blank g rest))]
  = [ mkAPIResource "UserResource" "/users"
        [ json_endpoint "/users" GET (sig_name g) ] "" ].
Proof.
  intros Hn Hb Wg Hp Hr.
  pose proof (get_method_file_matches blank g rest Hn Hb Wg Hr) as Hm.
  cbv zeta in Hm. unfold get_method_file in *.
  rewrite (single_get_discovered file _ blank _
             (header_qualifies _) (header_class_path _) Hm eq_refl Hb
             (get_signature_no_binding blank g _ Hn Hb Wg Hp)).
  now rewrite header_class_name.
Qed.

(** The first analysis of a repository whose one file belongs to a
    syntactic family leaves one resource with one GET endpoint.  The family:
    the header of the class UserResource with the class path /users, the GET
    annotation, one or more blanks, a well-formed public signature without
    an annotation in its parameter list, and any text after it that does not
    hold the word public.  The endpoint carries the name of the method. *)
Theorem get_method_file_analysis (w : World) (root file blank : string)
    (g : Signature) (rest : string) :
  rglob_java w root = [mkJavaFile file (inl (get_method_file blank g rest))] ->
  nonempty blank = true -> Str.all CharClass.space blank = true ->
  wf_sig g = true -> Str.contains "@" (sig_params g) = false ->
  Str.contains "public" rest = false ->
  let '(self, w0) := JaxRSAnalyzer_init root w in
  let '(r, w1) := analyze self w0 in
  heap w1 !! r
  = Some [ mkAPIResource "UserResource" "/users"
             [ json_endpoint "/users" GET (sig_name g) ] "" ].
Proof.
  intros Hfiles Hn Hb Wg Hp Hr.
  pose proof (first_analysis w root) as F.
  destruct (JaxRSAnalyzer_init root w) as [self w0].
  destruct (analyze self w0) as [r w1]. destruct F as [_ F].
  rewrite F, Hfiles.
  now rewrite (get_method_file_discovered file blank g rest Hn Hb Wg Hp Hr).
Qed.

Lemma get_method_file_analysis_witness :
  let w :=
    initial_world
      (fun _ => [ mkJavaFile "Ping.java"
                    (inl (get_method_file " "
                            (mkSignature " " "String" " " "ping" " " "int n")
                            " { return null; } }")) ]) in
  let '(self, w0) := JaxRSAnalyzer_init "repo" w in
  let '(r, w1) := analyze self w0 in
  heap w1 !! r
  = Some [ mkAPIResource "UserResource" "/users"
             [ json_endpoint "/users" GET "ping" ] "" ].
Proof.
  apply (get_method_file_analysis
           (initial_world
              (fun _ => [ mkJavaFile "Ping.java"
                            (inl (get_method_file " "
                                    (mkSignature " " "String" " " "ping" " "
                                       "int n")
                                    " { return null; } }")) ]))
           "repo" "Ping.java" " "
           (mkSignature " " "String" " " "ping" " " "int n")
           " { return null; } }");
    reflexivity.
Defined.

End Family.

(** ** Files that contribute nothing *)

Section Files.
Import Re.

Lemma discovered_app l1 l2 :
  discovered (l1 ++ l2)%list = (discovered l1 ++ discovered l2)%list.
Proof. unfold discovered. apply omap_app. Qed.

Lemma read_errors_app l1 l2 :
  read_errors (l1 ++ l2)%list = (read_errors l1 ++ read_errors l2)%list.
Proof. unfold read_errors. apply omap_app. Qed.

(** A file whose text holds none of the literals @Path, @GET, @POST, @PUT
    and @DELETE does not qualify, and contributes no resource; an annotation
    of another HTTP method alone does not qualify a file. *)
Theorem unmarked_file_no_resource (file content : string) :
  lacks_markers content = true ->
  _is_jaxrs_resource content = false
  /\ discovered [mkJavaFile file (inl content)] = [].
Proof.
  unfold lacks_markers, qualifying_markers. cbn [forallb]. intros H.
  repeat (apply andb_true_iff in H as [?%negb_true_iff H]).
  assert (_is_jaxrs_resource content = false) as Hq.
  { unfold _is_jaxrs_resource, Pat.jaxrs_patterns. cbn [existsb].
    now rewrite !search_lit_absent by assumption. }
  split; [exact Hq|].
  unfold discovered, resource_of_file, analyze_content.
  cbn [omap list_omap file_read]. now rewrite Hq.
Qed.

Lemma unmarked_file_no_resource_witness :
  _is_jaxrs_resource "@PATCH public void touch() {}" = false
  /\ discovered [mkJavaFile "A.java" (inl "@PATCH public void touch() {}")] = [].
Proof.
  apply (unmarked_file_no_resource "A.java" "@PATCH public void touch() {}").
  reflexivity.
Defined.

(** Every resource in the result of an analysis has at least one
    endpoint. *)
Theorem discovered_have_endpoints (files : list JavaFile) :
  Forall (fun r => endpoints r <> []) (discovered files).
Proof.
  apply Forall_forall. intros r H. unfold discovered in H.
  apply list_elem_of_omap in H as (f & _ & H).
  unfold resource_of_file in H.
  destruct (file_read f) as [content|e]; [|discriminate].
  destruct (analyze_content content) as [r0|]; [|discriminate].
  destruct (endpoints r0) eqn:E; [discriminate|].
  injection H as <-. now rewrite E.
Qed.

(** A file that cannot be read is reported with one printed line and
    contributes no resource; the files before it and after it are analysed
    as without it. *)
Theorem unreadable_file_skipped (w : World) (root f e : string)
    (before after : list JavaFile) :
  rglob_java w root = (before ++ mkJavaFile f (inr e) :: after)%list ->
  let '(self, w0) := JaxRSAnalyzer_init root w in
  let '(r, w1) := analyze self w0 in
  heap w1 !! r = Some (discovered before ++ discovered after)%list
  /\ trace w1
     = (trace w ++ read_errors before
        ++ Print ("Error analyzing " ++ f ++ ": " ++ e)
        :: read_errors after)%list.
Proof.
  intros Hfiles. rewrite init_spec.
  rewrite (analyze_spec _ _ []) by (cbn [heap resources]; apply lookup_insert_eq).
  cbn [heap rglob_java trace resources repo_path app]. rewrite Hfiles.
  rewrite discovered_app, read_errors_app.
  rewrite (discovered_cons _ after), (read_errors_cons _ after).
  split; [apply lookup_insert_eq | reflexivity].
Qed.

Lemma unreadable_file_skipped_witness :
  let w :=
    initial_world
      (fun _ => [ mkJavaFile "Bad.java" (inr "invalid start byte");
                  mkJavaFile "repo/UserResource.java"
                    (inl sample_user_resource) ]) in
  let '(self, w0) := JaxRSAnalyzer_init "repo" w in
  let '(r, w1) := analyze self w0 in
  heap w1 !! r
  = Some (discovered []
          ++ discovered [ mkJavaFile "repo/UserResource.java"
                            (inl sample_user_resource) ])%list
  /\ trace w1
     = ([] ++ read_errors []
        ++ Print ("Error analyzing " ++ "Bad.java" ++ ": " ++ "invalid start byte")
        :: read_errors [ mkJavaFile "repo/UserResource.java"
                           (inl sample_user_resource) ])%list.
Proof.
  apply (unreadable_file_skipped
           (initial_world
              (fun _ => [ mkJavaFile "Bad.java" (inr "invalid start byte");
                          mkJavaFile "repo/UserResource.java"
                            (inl sample_user_resource) ]))
           "repo" "Bad.java" "invalid start byte" []
           [ mkJavaFile "repo/UserResource.java" (inl sample_user_resource) ]).
  reflexivity.
Defined.

End Files.

(** ** The method, the types and the path of an endpoint *)

Section Fields.
Import Re.

(** Where the annotation text holds the markers of several HTTP methods, the
    method is that of the first marker in the order of the table (GET, POST,
    PUT, DELETE, HEAD, OPTIONS, PATCH) that occurs in the text, wherever it
    occurs; the marker of a method alone gives that method. *)
Theorem http_method_priority (annotations : string) :
  _extract_http_method annotations
  = hd_error
      (List.filter (fun h => Str.contains ("@" ++ value h) annotations)
         method_priority)
  /\ (forall h, _extract_http_method ("@" ++ value h) = Some h).
Proof.
  split.
  - unfold _extract_http_method, JAX_RS_ANNOTATIONS, method_priority.
    cbn [first_http_method List.filter value append].
    repeat (destruct (Str.contains _ annotations); [reflexivity|]).
    reflexivity.
  - intros []; reflexivity.
Qed.

Lemma type_mapping_range (java_type v : string) :
  type_mapping !! java_type = Some v -> In v openapi_types.
Proof.
  unfold type_mapping. intros H.
  apply elem_of_list_to_map_2 in H.
  repeat (apply elem_of_cons in H as [H|H];
          [injection H as _ ->; unfold openapi_types; simpl; tauto |]).
  now apply elem_of_nil in H.
Qed.

(** The type of a parameter is one of string, integer, number and boolean;
    a Java type that is not a key of the table, such as a lower-case or a
    generic one, gives string. *)
Theorem openapi_type_range (java_type sig content : string) :
  In (_map_java_to_openapi_type java_type) openapi_types
  /\ (type_mapping !! java_type = None
      -> _map_java_to_openapi_type java_type = "string")
  /\ Forall (fun p => In (type_ p) openapi_types)
       (_extract_parameters sig content).
Proof.
  assert (forall t, In (_map_java_to_openapi_type t) openapi_types) as R.
  { intros t. unfold _map_java_to_openapi_type.
    destruct (type_mapping !! t) as [v|] eqn:E.
    - exact (type_mapping_range t v E).
    - simpl. tauto. }
  split; [apply R|]. split.
  - unfold _map_java_to_openapi_type. now intros ->.
  - apply List.Forall_forall. intros p Hp.
    apply in_extract_parameters in Hp as [m [_ Hp]].
    unfold parameter_of_match in Hp.
    destruct (existsb _ _); [|destruct Hp].
    destruct Hp as [<-|[]]. cbn [type_]. apply R.
Qed.

Lemma nonempty_app_cons (u : string) (c : ascii) (v : string) :
  nonempty (u ++ String c v) = true.
Proof. now destruct u. Qed.

Lemma combine_paths_nonempty_result (base : option string) (m : string) :
  nonempty (_combine_paths base m) = true.
Proof.
  unfold _combine_paths.
  destruct base as [[|a b]|]; destruct m as [|c m];
    cbn [truthy negb default from_option id]; try reflexivity.
  apply nonempty_app_cons.
Qed.

(** The path of an endpoint is never empty, whatever the class path and
    the method path are. *)
Theorem endpoint_path_nonempty (content : string) (base : option string)
    (files : list JavaFile) :
  (forall m, nonempty (_combine_paths base m) = true)
  /\ Forall (fun e => nonempty (path e) = true) (_extract_endpoints content base)
  /\ Forall (fun r => Forall (fun e => nonempty (path e) = true) (endpoints r))
       (discovered files).
Proof.
  split; [apply combine_paths_nonempty_result|].
  assert (forall c b, Forall (fun e => nonempty (path e) = true)
                        (_extract_endpoints c b)) as E.
  { intros c b. apply List.Forall_forall. intros e He.
    apply in_extract_endpoints in He as [m [_ He]].
    apply endpoint_of_match_some in He as [h [_ ->]]. cbn [path].
    apply combine_paths_nonempty_result. }
  split; [apply E|].
  apply List.Forall_forall. intros r Hr.
  apply in_discovered in Hr as [c ->]. cbn [endpoints]. apply E.
Qed.

End Fields.

(** ** The generated documents *)

Section Generated.

Lemma media_content_fold (l : list string) (k : string) :
  forall d : gmap string OpenAPI.MediaType,
    fold_left (fun d media_type => <[media_type := object_schema]> d) l d !! k
    = if bool_decide (k ∈ l) then Some object_schema else d !! k.
Proof.
  induction l as [|a l IH]; intros d; cbn [fold_left].
  - rewrite bool_decide_eq_false_2; [reflexivity | apply not_elem_of_nil].
  - rewrite IH. destruct (decide (k ∈ l)) as [Hin|Hin].
    + rewrite !bool_decide_eq_true_2; [reflexivity | now right | exact Hin].
    + rewrite (bool_decide_eq_false_2 _ Hin).
      destruct (decide (k = a)) as [->|Hne].
      * rewrite lookup_insert_eq, bool_decide_eq_true_2; [reflexivity | now left].
      * rewrite lookup_insert_ne by congruence.
        rewrite bool_decide_eq_false_2; [reflexivity|].
        intros [?|?]%elem_of_cons; contradiction.
Qed.

(** The content dictionary of a list of media types has exactly the media
    types of the list as keys, each with the object schema: a media type
    listed twice gives one entry. *)
Theorem media_content_keys (l : list string) (k : string) :
  media_content l !! k
  = (if bool_decide (k ∈ l) then Some object_schema else None)
  /\ dom (media_content l) = list_to_set l
  /\ media_content (l ++ l) = media_content l.
Proof.
  assert (forall l' k', media_content l' !! k'
           = if bool_decide (k' ∈ l') then Some object_schema else None) as L.
  { intros l' k'. unfold media_content. rewrite media_content_fold.
    now rewrite lookup_empty. }
  split; [apply L|]. split.
  - apply set_eq. intros x. rewrite elem_of_dom, L, elem_of_list_to_set.
    destruct (decide (x ∈ l)) as [Hin|Hin].
    + rewrite bool_decide_eq_true_2 by exact Hin. split; eauto.
    + rewrite bool_decide_eq_false_2 by exact Hin.
      split; [intros [? [=]] | contradiction].
  - apply map_eq. intros x. rewrite !L.
    destruct (decide (x ∈ l)) as [Hin|Hin].
    + rewrite !bool_decide_eq_true_2; [reflexivity | exact Hin |].
      apply elem_of_app. now left.
    + rewrite !bool_decide_eq_false_2; [reflexivity | exact Hin |].
      intros [?|?]%elem_of_app; contradiction.
Qed.

Lemma extracted_operation_of_match content base m e (r : APIResource) :
  endpoint_of_match content base m = Some e -> extracted_operation r e.
Proof.
  intros H. apply endpoint_of_match_some in H as [h [_ ->]].
  unfold extracted_operation, operation_of, has_body.
  cbn [summary method path consumes produces parameters truthy
       OpenAPI.op_summary OpenAPI.requestBody OpenAPI.op_parameters].
  split; [reflexivity|]. split.
  - destruct (existsb _ _); [|reflexivity].
    now destruct (_extract_media_types (annotations_of m) "@Consumes").
  - split.
    + destruct (_extract_parameters _ _); split; (reflexivity || discriminate).
    + split.
      * now destruct (_extract_media_types (annotations_of m) "@Consumes").
      * now destruct (_extract_media_types (annotations_of m) "@Produces").
Qed.

(** For every endpoint of every discovered resource, the operation written
    has the summary made of the method and the path (the extractor sets no
    summary), a request body exactly for POST, PUT and PATCH (the list of
    consumed media types is never empty), and the key of the parameters
    exactly when the endpoint has parameters. *)
Theorem discovered_operations (files : list JavaFile) :
  Forall (fun r => Forall (extracted_operation r) (endpoints r))
    (discovered files).
Proof.
  apply List.Forall_forall. intros r Hr.
  apply List.Forall_forall. intros e He.
  apply in_discovered in Hr as [content Hr].
  assert (In e (_extract_endpoints content (_extract_class_path content))) as He'.
  { now rewrite Hr in He. }
  apply in_extract_endpoints in He' as [m [_ Hm]].
  exact (extracted_operation_of_match _ _ _ _ r Hm).
Qed.

Lemma lookup_operation_add_endpoint r paths e p k :
  lookup_operation (add_endpoint r paths e) p k
  = if String.eqb (path e) p && String.eqb (method_key e) k
    then Some (operation_of r e)
    else lookup_operation paths p k.
Proof.
  unfold lookup_operation, add_endpoint.
  destruct (String.eqb_spec (path e) p) as [<-|Hp]; cbn [andb].
  - rewrite lookup_alter_eq.
    destruct (paths !! path e) as [ops0|] eqn:E.
    + rewrite bool_decide_eq_true_2 by eauto. rewrite E.
      cbn [fmap option_fmap option_map].
      destruct (String.eqb_spec (method_key e) k) as [<-|Hk].
      * apply lookup_insert_eq.
      * now rewrite lookup_insert_ne.
    + rewrite bool_decide_eq_false_2 by (intros [? [=]]).
      rewrite lookup_insert_eq. cbn [fmap option_fmap option_map].
      destruct (String.eqb_spec (method_key e) k) as [<-|Hk].
      * apply lookup_insert_eq.
      * rewrite lookup_insert_ne by exact Hk. apply lookup_empty.
  - rewrite lookup_alter_ne by exact Hp.
    destruct (bool_decide _); [reflexivity|].
    now rewrite lookup_insert_ne.
Qed.

Lemma lookup_operation_add_resource r p k :
  forall es paths,
    lookup_operation (fold_left (add_endpoint r) es paths) p k
    = fold_left
        (fun acc '(p', k', op) =>
           if String.eqb p' p && String.eqb k' k then Some op else acc)
        ((fun e => (path e, method_key e, operation_of r e)) <$> es)
        (lookup_operation paths p k).
Proof.
  induction es as [|e es IH]; intros paths; cbn [fold_left fmap list_fmap].
  - reflexivity.
  - now rewrite IH, lookup_operation_add_endpoint.
Qed.

Lemma lookup_operation_generate p k :
  forall rs paths,
    lookup_operation (fold_left add_resource rs paths) p k
    = fold_left
        (fun acc '(p', k', op) =>
           if String.eqb p' p && String.eqb k' k then Some op else acc)
        (model_operations rs) (lookup_operation paths p k).
Proof.
  induction rs as [|r rs IH]; intros paths.
  - reflexivity.
  - cbn [fold_left]. unfold model_operations. cbn [flat_map].
    rewrite fold_left_app, IH. unfold add_resource.
    now rewrite lookup_operation_add_resource.
Qed.

(** No path of the dictionary is left without an operation. *)
Lemma add_endpoint_no_empty r paths e :
  (forall p ops, paths !! p = Some ops -> ops <> ∅) ->
  forall p ops, add_endpoint r paths e !! p = Some ops -> ops <> ∅.
Proof.
  intros Inv p ops. unfold add_endpoint.
  destruct (decide (p = path e)) as [->|Hp].
  - rewrite lookup_alter_eq.
    destruct (bool_decide _).
    + destruct (paths !! path e); cbn [fmap option_fmap option_map];
        [|discriminate].
      intros [= <-]. apply insert_non_empty.
    + rewrite lookup_insert_eq. cbn [fmap option_fmap option_map].
      intros [= <-]. apply insert_non_empty.
  - rewrite lookup_alter_ne by congruence.
    destruct (bool_decide _); [apply Inv|].
    rewrite lookup_insert_ne by congruence. apply Inv.
Qed.

Lemma generate_no_empty :
  forall rs paths,
    (forall p ops, paths !! p = Some ops -> ops <> ∅) ->
    forall p ops, fold_left add_resource rs paths !! p = Some ops -> ops <> ∅.
Proof.
  induction rs as [|r rs IH]; intros paths Inv; cbn [fold_left].
  - exact Inv.
  - apply IH. unfold add_resource. revert paths Inv.
    induction (endpoints r) as [|e es IHe]; intros paths Inv; cbn [fold_left].
    + exact Inv.
    + apply IHe. now apply add_endpoint_no_empty.
Qed.

(** The operation of the generated document under a path and an operation
    key is that of the last endpoint of the model with that path and that
    lowercased method, in the order of the resources and of their endpoints:
    a later endpoint replaces an earlier one with the same path and method.
    No path of the document is left without an operation. *)
Theorem generated_operation_is_last (rs : list APIResource)
    (title version p k : string) :
  lookup_operation (OpenAPI.paths (generate_from rs title version)) p k
  = last_operation p k (model_operations rs)
  /\ (forall ops, OpenAPI.paths (generate_from rs title version) !! p = Some ops
                  -> ops <> ∅).
Proof.
  unfold generate_from, last_operation. cbn [OpenAPI.paths]. split.
  - rewrite lookup_operation_generate. unfold lookup_operation.
    now rewrite lookup_empty.
  - apply (generate_no_empty rs ∅).
    intros p' ops'. now rewrite lookup_empty.
Qed.

Lemma discovered_endpoints_nonempty files r :
  In r (discovered files) -> endpoints r <> [].
Proof.
  unfold discovered. intros H.
  apply list_elem_of_In, list_elem_of_omap in H as (f & _ & H).
  unfold resource_of_file in H.
  destruct (file_read f) as [content|e]; [|discriminate].
  destruct (analyze_content content) as [r0|]; [|discriminate].
  destruct (endpoints r0) eqn:E; [discriminate|].
  injection H as <-. now rewrite E.
Qed.

(** The document generated from the result of an analysis has no path
    exactly when nothing was discovered: the document a run writes always
    has at least one path. *)
Theorem generated_paths_empty_iff (files : list JavaFile)
    (title version : string) :
  OpenAPI.paths (generate_from (discovered files) title version) = ∅
  <-> discovered files = [].
Proof.
  split.
  - intros H. destruct (discovered files) as [|r rs] eqn:E; [reflexivity|].
    exfalso.
    assert (In r (discovered files)) as Hr by (rewrite E; now left).
    pose proof (discovered_endpoints_nonempty files r Hr) as Hn.
    destruct (endpoints r) as [|e es] eqn:Ee; [now apply Hn|].
    assert (has_key (OpenAPI.paths (generate_from (r :: rs) title version))
              (path e) (method_key e)) as [ops [Hp _]].
    { unfold generate_from. cbn [OpenAPI.paths].
      apply has_key_generate. right. exists r, e.
      split; [now left|]. split; [rewrite Ee; now left | tauto]. }
    rewrite H in Hp. now rewrite lookup_empty in Hp.
  - intros ->. reflexivity.
Qed.

Lemma lower_char_not_upper (a : ascii) :
  upper_ascii (Str.lower_char a) = false.
Proof. destruct a as [[] [] [] [] [] [] [] []]; vm_compute; reflexivity. Qed.

Lemma replace_blank_not_upper (a : ascii) :
  upper_ascii a = false -> upper_ascii (if Ascii.eqb a " " then "-"%char else a) = false.
Proof. destruct (Ascii.eqb a " "); [reflexivity | tauto]. Qed.

(** The name of the catalog entry holds no blank and no upper-case ASCII
    letter; the title is the name as given, and the definition points at the
    file of the document. *)
Theorem catalog_name_shape (self : BackstageGenerator)
    (api_name openapi_path : string) :
  let entry := backstage_generate self api_name openapi_path in
  let n := Backstage.md_name (Backstage.metadata entry) in
  Str.contains " " n = false
  /\ Str.all (fun a => negb (upper_ascii a)) n = true
  /\ Backstage.md_title (Backstage.metadata entry) = api_name
  /\ Backstage.definition (Backstage.spec entry) = "$text: ./" ++ openapi_path.
Proof.
  cbn zeta. unfold backstage_generate.
  cbn [Backstage.metadata Backstage.md_name Backstage.md_title Backstage.spec
       Backstage.definition].
  repeat split.
  - induction api_name as [|a s IH]; [reflexivity|].
    cbn [Str.lower Str.replace_char Str.contains Str.starts_with].
    rewrite IH.
    destruct (Ascii.eqb (Str.lower_char a) " ") eqn:E; [reflexivity|].
    rewrite Ascii.eqb_sym, E. reflexivity.
  - induction api_name as [|a s IH]; [reflexivity|].
    cbn [Str.lower Str.replace_char Str.all]. rewrite IH.
    rewrite replace_blank_not_upper by apply lower_char_not_upper. reflexivity.
Qed.

End Generated.

(** ** The shape of the captured texts *)

Section Shapes.
Import Re.

Lemma class_within_spec q p a :
  class_within q p = true -> q a = true -> p a = true.
Proof.
  unfold class_within. rewrite forallb_forall. intros H Hq.
  assert (In a all_ascii) as Hin.
  { unfold all_ascii. rewrite <- (ascii_nat_embedding a).
    apply in_map, in_seq. pose proof (nat_ascii_bounded a). lia. }
  specialize (H a Hin). now rewrite Hq in H.
Qed.

Lemma nonempty_app_l u v : nonempty u = true -> nonempty (u ++ v) = true.
Proof. now destruct u. Qed.

Lemma nonempty_app_r u v : nonempty v = true -> nonempty (u ++ v) = true.
Proof. destruct u; [now cbn [append] | reflexivity]. Qed.

Lemma group_of_cons_is_Some n m v c :
  Nat.eqb m n = true \/ is_Some (group_of n c) ->
  is_Some (group_of n ((m, v) :: c)).
Proof.
  cbn [group_of]. destruct (Nat.eqb m n); [eauto | now intros [|]].
Qed.

Section Exec.
Variable Q : nat -> string -> Prop.

Lemma star_loop_shape r1 :
  (forall s caps k res,
     exec r1 s caps k = Some res -> caps_ok Q caps ->
     reaches_with Q r1 false s caps k res) ->
  forall fuel s caps k res,
    star_loop (exec r1) k fuel s caps = Some res -> caps_ok Q caps ->
    reaches_with Q r1 true s caps k res.
Proof.
  intros IH. induction fuel as [|fuel IHf]; intros s caps k res H Hc.
  - cbn [star_loop] in H. exists "", s, caps.
    repeat split; try assumption; try discriminate.
    intros n [[[=] _]|Hn]; exact Hn.
  - cbn [star_loop] in H.
    destruct (exec r1 s caps _) as [res'|] eqn:E.
    + cbn [or_else] in H. injection H as ->.
      apply IH in E as (u & s1 & c1 & -> & Hk & Hc1 & Hch & _ & Hb);
        [|exact Hc].
      destruct (Str.len s1 <? Str.len (u ++ s1))%nat.
      * apply IHf in Hk as (u2 & s2 & c2 & -> & Hk & Hc2 & Hch2 & _ & Hb2);
          [|exact Hc1].
        exists (u ++ u2), s2, c2. rewrite str_app_assoc.
        repeat split; try assumption; try discriminate.
        -- intros p Hp. now rewrite all_app, Hch, Hch2.
        -- intros n [[[=] _]|Hn]. apply Hb2. right. apply Hb. now right.
      * exists u, s1, c1.
        repeat split; try assumption; try discriminate.
        intros n [[[=] _]|Hn]. apply Hb. now right.
    + cbn [or_else] in H. exists "", s, caps.
      repeat split; try assumption; try discriminate.
      intros n [[[=] _]|Hn]; exact Hn.
Qed.

Lemma exec_shape r :
  grp_sound Q r ->
  forall s caps k res,
    exec r s caps k = Some res -> caps_ok Q caps ->
    reaches_with Q r false s caps k res.
Proof.
  induction r as [|c|q|r1 IH1 r2 IH2|r1 IH1 r2 IH2|r1 IH1|n r1 IH1];
    intros G s caps k res H Hc; cbn [exec] in H.
  - exists "", s, caps. repeat split; try assumption; try discriminate.
    intros n [[_ [=]]|Hn]; exact Hn.
  - destruct s as [|a s]; [discriminate|].
    destruct (Ascii.eqb_spec a c) as [->|]; [|discriminate].
    exists (String c ""), s, caps. repeat split; try assumption.
    + intros p Hp. cbn [chars_in] in Hp. cbn [Str.all]. now rewrite Hp.
    + intros n [[_ [=]]|Hn]; exact Hn.
  - destruct s as [|a s]; [discriminate|].
    destruct (q a) eqn:Hq; [|discriminate].
    exists (String a ""), s, caps. repeat split; try assumption.
    + intros p Hp. cbn [chars_in] in Hp. cbn [Str.all].
      now rewrite (class_within_spec q p a Hp Hq).
    + intros n [[_ [=]]|Hn]; exact Hn.
  - destruct G as [G1 G2].
    apply IH1 in H as (u1 & s1 & c1 & -> & Hk & Hc1 & Hch1 & Hn1 & Hb1);
      [|exact G1|exact Hc].
    apply IH2 in Hk as (u2 & s2 & c2 & -> & Hk & Hc2 & Hch2 & Hn2 & Hb2);
      [|exact G2|exact Hc1].
    exists (u1 ++ u2), s2, c2. rewrite str_app_assoc.
    repeat split; try assumption.
    + intros p Hp. cbn [chars_in] in Hp. apply andb_true_iff in Hp as [P1 P2].
      now rewrite all_app, Hch1, Hch2.
    + intros _ Hn. cbn [nullable] in Hn. apply andb_false_iff in Hn as [Hn|Hn].
      * apply nonempty_app_l, Hn1; [reflexivity | exact Hn].
      * apply nonempty_app_r, Hn2; [reflexivity | exact Hn].
    + intros n [[_ Hn]|Hn].
      * cbn [binds] in Hn. apply orb_true_iff in Hn as [Hn|Hn].
        -- apply Hb2. right. apply Hb1. now left.
        -- apply Hb2. now left.
      * apply Hb2. right. apply Hb1. now right.
  - destruct G as [G1 G2].
    destruct (exec r1 s caps k) as [res'|] eqn:E; cbn [or_else] in H.
    + injection H as ->.
      apply IH1 in E as (u & s1 & c1 & -> & Hk & Hc1 & Hch & Hn & Hb);
        [|exact G1|exact Hc].
      exists u, s1, c1. repeat split; try assumption.
      * intros p Hp. cbn [chars_in] in Hp. apply andb_true_iff in Hp as [P1 _].
        now apply Hch.
      * intros _ Hnl. cbn [nullable] in Hnl.
        apply orb_false_iff in Hnl as [Hnl _]. now apply Hn.
      * intros n [[_ Hn']|Hn']; apply Hb; [left | now right].
        cbn [binds] in Hn'. apply andb_true_iff in Hn' as [? _]. now split.
    + apply IH2 in H as (u & s1 & c1 & -> & Hk & Hc1 & Hch & Hn & Hb);
        [|exact G2|exact Hc].
      exists u, s1, c1. repeat split; try assumption.
      * intros p Hp. cbn [chars_in] in Hp. apply andb_true_iff in Hp as [_ P2].
        now apply Hch.
      * intros _ Hnl. cbn [nullable] in Hnl.
        apply orb_false_iff in Hnl as [_ Hnl]. now apply Hn.
      * intros n [[_ Hn']|Hn']; apply Hb; [left | now right].
        cbn [binds] in Hn'. apply andb_true_iff in Hn' as [_ ?]. now split.
  - cbn [grp_sound] in G.
    apply (star_loop_shape r1 (IH1 G)) in H
      as (u & s1 & c1 & -> & Hk & Hc1 & Hch & _ & Hb); [|exact Hc].
    exists u, s1, c1. repeat split; try assumption.
    + intros _ [=].
    + intros n [[_ [=]]|Hn]. apply Hb. now right.
  - destruct G as [G1 GQ].
    apply IH1 in H as (u & s1 & c1 & -> & Hk & Hc1 & Hch & Hn & Hb);
      [|exact G1|exact Hc].
    rewrite consumed_app in Hk.
    exists u, s1, ((n, u) :: c1).
    split; [reflexivity|]. split; [exact Hk|]. split; [|split; [|split]].
    + constructor; [|exact Hc1]. cbn [fst snd]. apply GQ.
      split; [exact Hch | now apply Hn].
    + exact Hch.
    + exact Hn.
    + intros n' Hn'. apply group_of_cons_is_Some.
      destruct Hn' as [[_ Hn']|Hn'].
      * cbn [binds] in Hn'. apply orb_true_iff in Hn' as [Hn'|Hn'];
          [now left | right; apply Hb; now left].
      * right. apply Hb. now right.
Qed.

Lemma match_at_shape r s adv rest c :
  grp_sound Q r -> match_at r s adv = Some (rest, c) ->
  caps_ok Q c /\ (forall n, binds n r = true -> is_Some (group_of n c)).
Proof.
  intros G H. unfold match_at in H.
  apply (exec_shape r G) in H as (u & s1 & c1 & _ & Hk & Hc & _ & _ & Hb);
    [|constructor].
  destruct (adv && _); [discriminate|]. injection Hk as _ ->.
  split; [exact Hc|]. intros n Hn. apply Hb. now left.
Qed.

Lemma group_of_ok c n v : caps_ok Q c -> group_of n c = Some v -> Q n v.
Proof.
  induction c as [|[i t] c IH]; intros Hc H; [discriminate|].
  inversion Hc as [|? ? Hq Hc']; subst. cbn [group_of] in H.
  destruct (Nat.eqb_spec i n) as [->|]; [|now apply IH].
  now injection H as <-.
Qed.

End Exec.

Lemma search_from_caps r :
  forall s pos adv m rest,
    search_from r pos s adv = Some (m, rest) ->
    exists s' adv', match_at r s' adv' = Some (rest, m_caps m).
Proof.
  induction s as [|a s IH]; intros pos adv m rest H; cbn [search_from] in H.
  - destruct (match_at r "" adv) as [[rest' c]|] eqn:E; [|discriminate].
    injection H as <- <-. now exists "", adv.
  - destruct (match_at r (String a s) adv) as [[rest' c]|] eqn:E.
    + injection H as <- <-. now exists (String a s), adv.
    + now apply IH in H.
Qed.

Lemma finditer_from_caps r :
  forall fuel pos s adv m,
    In m (finditer_from fuel r pos s adv) ->
    exists s' adv' rest, match_at r s' adv' = Some (rest, m_caps m).
Proof.
  induction fuel as [|fuel IH]; intros pos s adv m H; [destruct H|].
  cbn [finditer_from] in H.
  destruct (search_from r pos s adv) as [[m0 rest]|] eqn:E; [|destruct H].
  destruct H as [<-|H].
  - apply search_from_caps in E as (s' & adv' & E). now exists s', adv', rest.
  - now apply IH in H.
Qed.

(** A group that every match of the pattern sets is set in a match object,
    to a text with the shape of the body of the group. *)
Lemma group_shape Q r n s' adv rest m :
  grp_sound Q r -> binds n r = true ->
  match_at r s' adv = Some (rest, m_caps m) ->
  exists v, group_of n (m_caps m) = Some v /\ Q n v.
Proof.
  intros G Hb H. apply (match_at_shape Q r _ _ _ _ G) in H as [Hc Hs].
  destruct (Hs n Hb) as [v Hv]. exists v. split; [exact Hv|].
  exact (group_of_ok Q _ _ _ Hc Hv).
Qed.

Lemma search_group_shape Q r n content m :
  grp_sound Q r -> binds n r = true -> search r content = Some m ->
  exists v, group_of n (m_caps m) = Some v /\ Q n v.
Proof.
  intros G Hb H. unfold search in H.
  destruct (search_from r 0 content false) as [[m0 rest]|] eqn:E; [|discriminate].
  injection H as ->.
  apply search_from_caps in E as (s' & adv' & E).
  exact (group_shape Q r n _ _ _ _ G Hb E).
Qed.

Lemma finditer_group_shape Q r n content m :
  grp_sound Q r -> binds n r = true -> In m (finditer r content) ->
  exists v, group_of n (m_caps m) = Some v /\ Q n v.
Proof.
  intros G Hb H. apply finditer_from_caps in H as (s' & adv' & rest & E).
  exact (group_shape Q r n _ _ _ _ G Hb E).
Qed.

Lemma shape_class r p u :
  chars_in p r = true -> nullable r = false -> matched_shape r u ->
  nonempty u && Str.all p u = true.
Proof.
  intros Hc Hn [Hch Hne]. now rewrite (Hch p Hc), (Hne Hn).
Qed.

Lemma plus_identifier u : matched_shape (Plus Pat.w) u -> identifier u = true.
Proof. apply shape_class; vm_compute; reflexivity. Qed.

Lemma plus_quotable u :
  matched_shape (Plus Pat.not_quote) u -> quotable u = true.
Proof. apply shape_class; vm_compute; reflexivity. Qed.

Lemma kind_identifier u :
  matched_shape (Plus Pat.w +++ Lit "Param") u -> identifier u = true.
Proof. apply shape_class; vm_compute; reflexivity. Qed.

Lemma class_name_pattern_sound :
  grp_sound (group_is 1 identifier) Pat.class_name_pattern.
Proof.
  unfold Pat.class_name_pattern. cbn [grp_sound Lit Plus].
  repeat split. intros u Hu _. now apply plus_identifier.
Qed.

Lemma method_pattern_sound :
  grp_sound (group_is 2 identifier) Pat.method_pattern.
Proof.
  unfold Pat.method_pattern, Pat.signature_tail, Pat.annotation_block.
  cbn [grp_sound Lit Plus Opt].
  repeat split; intros u Hu; try discriminate.
  intros _. now apply plus_identifier.
Qed.

Lemma quoted_sound n : grp_sound (group_is n quotable) (Pat.quoted n).
Proof.
  unfold Pat.quoted. cbn [grp_sound]. repeat split.
  intros u Hu _. now apply plus_quotable.
Qed.

Lemma path_pattern_sound : grp_sound (group_is 1 quotable) Pat.path_pattern.
Proof.
  unfold Pat.path_pattern. cbn [grp_sound Lit Plus Opt].
  repeat split; apply quoted_sound.
Qed.

Lemma class_pattern_sound : grp_sound (group_is 1 quotable) Pat.class_pattern.
Proof.
  unfold Pat.class_pattern. cbn [grp_sound Lit Plus Opt].
  repeat split; apply quoted_sound.
Qed.

Lemma param_pattern_sound : grp_sound param_groups Pat.param_pattern.
Proof.
  unfold Pat.param_pattern, Pat.quoted. cbn [grp_sound Lit Plus Opt].
  repeat split; intros E; try discriminate E; clear E.
  - now apply kind_identifier.
  - now apply plus_quotable.
  - now apply plus_identifier.
  - now apply plus_identifier.
Qed.

End Shapes.

(** ** Names, paths and media types of the model *)

Section Names.
Import Re.

(** The class name of a resource is a non-empty run of word characters: the
    name captured after public class, or Unknown where the text holds no
    such declaration. *)
Theorem class_name_identifier (content : string) (files : list JavaFile) :
  identifier (_extract_class_name content) = true
  /\ (Str.contains "public" content = false
      -> _extract_class_name content = "Unknown")
  /\ Forall (fun r => identifier (class_name r) = true) (discovered files).
Proof.
  assert (forall c, identifier (_extract_class_name c) = true) as I.
  { intros c. unfold _extract_class_name.
    destruct (search Pat.class_name_pattern c) as [m|] eqn:E; [|reflexivity].
    destruct (search_group_shape _ _ 1 _ _ class_name_pattern_sound eq_refl E)
      as (v & Hv & Hq).
    cbn [group]. rewrite Hv. exact (Hq eq_refl). }
  split; [apply I|]. split.
  - intros H. unfold _extract_class_name, Pat.class_name_pattern.
    now rewrite search_lit_absent.
  - apply List.Forall_forall. intros r Hr.
    apply in_discovered in Hr as [c ->]. apply I.
Qed.

(** The operation identifier of every extracted endpoint is a non-empty run
    of word characters: the method name the pattern captured. *)
Theorem operation_id_identifier (content : string) (base : option string)
    (files : list JavaFile) :
  Forall (fun e => identifier (operation_id e) = true)
    (_extract_endpoints content base)
  /\ Forall (fun r => Forall (fun e => identifier (operation_id e) = true)
                        (endpoints r))
       (discovered files).
Proof.
  assert (forall c b, Forall (fun e => identifier (operation_id e) = true)
                        (_extract_endpoints c b)) as I.
  { intros c b. apply List.Forall_forall. intros e He.
    apply in_extract_endpoints in He as [m [Hm He]].
    apply endpoint_of_match_some in He as [h [_ ->]]. cbn [operation_id].
    destruct (finditer_group_shape _ _ 2 _ _ method_pattern_sound eq_refl Hm)
      as (v & Hv & Hq).
    cbn [group]. rewrite Hv. exact (Hq eq_refl). }
  split; [apply I|].
  apply List.Forall_forall. intros r Hr.
  apply in_discovered in Hr as [c ->]. apply I.
Qed.

(** The name of every extracted parameter is a non-empty text without a
    quote character. *)
Theorem parameter_name_quotable (sig content : string)
    (files : list JavaFile) :
  Forall (fun p => quotable (name p) = true) (_extract_parameters sig content)
  /\ Forall (fun r => Forall (fun e => Forall (fun p => quotable (name p) = true)
                                         (parameters e))
                        (endpoints r))
       (discovered files).
Proof.
  assert (forall s c, Forall (fun p => quotable (name p) = true)
                        (_extract_parameters s c)) as I.
  { intros s c. apply List.Forall_forall. intros p Hp.
    apply in_extract_parameters in Hp as [m [Hm Hp]].
    unfold parameter_of_match in Hp.
    destruct (existsb _ _); [|destruct Hp].
    destruct Hp as [<-|[]]. cbn [name].
    destruct (finditer_group_shape _ _ 2 _ _ param_pattern_sound eq_refl Hm)
      as (v & Hv & Hq).
    cbn [group]. rewrite Hv. destruct Hq as (_ & Hq & _). exact (Hq eq_refl). }
  split; [apply I|]. now apply discovered_forall_parameters.
Qed.

(** A class path, where one is found by either strategy, is a non-empty
    text without a quote character, and so is a method path that is not
    empty. *)
Theorem declared_path_quotable (content annotations : string) :
  match _extract_class_path content with
  | Some p => quotable p = true
  | None => True
  end
  /\ (_extract_method_path annotations = ""
      \/ quotable (_extract_method_path annotations) = true).
Proof.
  split.
  - unfold _extract_class_path.
    destruct (search Pat.class_pattern content) as [m|] eqn:E.
    + destruct (search_group_shape _ _ 1 _ _ class_pattern_sound eq_refl E)
        as (v & Hv & Hq).
      cbn [group]. rewrite Hv. exact (Hq eq_refl).
    + destruct (search Pat.path_pattern content) as [pm|] eqn:Ep; [|exact I].
      destruct (search Pat.class_decl_pattern _) as [cm|]; [|exact I].
      destruct (m_start cm <? 100)%nat; [|exact I].
      destruct (search_group_shape _ _ 1 _ _ path_pattern_sound eq_refl Ep)
        as (v & Hv & Hq).
      cbn [group]. rewrite Hv. exact (Hq eq_refl).
  - unfold _extract_method_path.
    destruct (search Pat.path_pattern annotations) as [m|] eqn:E; [|now left].
    destruct (search_group_shape _ _ 1 _ _ path_pattern_sound eq_refl E)
      as (v & Hv & Hq).
    right. cbn [group]. rewrite Hv. exact (Hq eq_refl).
Qed.

Lemma media_types_quotable annotations annotation_type :
  all_quotable (_extract_media_types annotations annotation_type).
Proof.
  unfold all_quotable, _extract_media_types.
  destruct (search _ annotations) as [m0|]; [|constructor].
  unfold findall1. apply List.Forall_forall. intros t Ht.
  apply list_elem_of_In, list_elem_of_fmap in Ht as [m [-> Hm]].
  apply list_elem_of_In in Hm.
  destruct (finditer_group_shape _ _ 1 _ _ (quoted_sound 1) eq_refl Hm)
    as (v & Hv & Hq).
  cbn [group]. rewrite Hv. exact (Hq eq_refl).
Qed.

Lemma or_json_quotable l : all_quotable l -> all_quotable (or_json l).
Proof.
  intros H. destruct l; [|exact H].
  constructor; [reflexivity | constructor].
Qed.

(** The media types extracted from an annotation are non-empty texts
    without a quote character; every endpoint consumes and produces a
    non-empty list of such media types. *)
Theorem media_types_shape (annotations annotation_type content : string)
    (base : option string) :
  all_quotable (_extract_media_types annotations annotation_type)
  /\ Forall (fun e => (consumes e <> [] /\ all_quotable (consumes e))
                      /\ (produces e <> [] /\ all_quotable (produces e)))
       (_extract_endpoints content base).
Proof.
  split; [apply media_types_quotable|].
  apply List.Forall_forall. intros e He.
  apply in_extract_endpoints in He as [m [_ He]].
  apply endpoint_of_match_some in He as [h [_ ->]]. cbn [consumes produces].
  repeat split.
  - now destruct (_extract_media_types (annotations_of m) "@Consumes").
  - apply or_json_quotable, media_types_quotable.
  - now destruct (_extract_media_types (annotations_of m) "@Produces").
  - apply or_json_quotable, media_types_quotable.
Qed.

End Names.

(** ** Bindings of the collected kinds *)

Section Collected.
Import Re.

Lemma exec_param_kind kind loc tail caps k :
  In (kind, loc) collected_kinds ->
  stops CharClass.word tail = true ->
  exec (Seq (Plus Pat.w) (Lit "Param")) (kind ++ tail) caps k = k tail caps.
Proof.
  intros Hin Ht. unfold collected_kinds in Hin. cbn [In] in Hin.
  repeat (destruct Hin as [[= <- <-]|Hin];
          [ unfold Plus, Pat.w; cbn [append]; rewrite !exec_seq;
            rewrite exec_cls by reflexivity;
            rewrite !exec_star_cls_cons by reflexivity;
            rewrite exec_star_cls_stops by exact Ht;
            rewrite !exec_lit;
            rewrite (starts_with_stops CharClass.word)
              by (reflexivity || exact Ht);
            cbn [Str.starts_with Str.drop Str.len String.length Ascii.eqb
                 Bool.eqb andb or_else];
            now rewrite ?or_else_none_r |]).
  destruct Hin.
Qed.

(** The parameter pattern on a well-formed binding of a collected kind. *)
Lemma match_at_binding kind loc d rest adv :
  In (kind, loc) collected_kinds ->
  wf_binding d = true -> stops CharClass.word rest = true ->
  match_at Pat.param_pattern (render_binding kind d ++ rest) adv
  = Some (rest, [(4, bd_var d); (3, bd_type d); (2, bd_name d); (1, kind)]).
Proof.
  unfold wf_binding. intros Hk W Hr.
  repeat (apply andb_true_iff in W as [W ?]).
  unfold match_at, Pat.param_pattern, Pat.quoted, render_binding.
  unfold Pat.quote, Pat.not_quote, Pat.sp, Pat.w.
  set (whole := (_ ++ rest)) at 2.
  rewrite !str_app_assoc.
  rewrite exec_seq, exec_chr_app, exec_seq, exec_grp.
  rewrite (exec_param_kind kind loc), consumed_app; [|exact Hk|].
  2:{ eapply stops_app; [apply space_not_word | eassumption | reflexivity]. }
  rewrite exec_seq.
  apply exec_star_cls_greedy; [assumption | reflexivity |].
  rewrite exec_seq, exec_chr_app, exec_seq.
  apply exec_star_cls_greedy; [assumption | |].
  { cbn [append stops]. now rewrite quote_not_space. }
  rewrite !exec_seq. rewrite exec_cls_app by assumption.
  rewrite exec_seq, exec_grp.
  apply exec_plus_cls_greedy; [assumption | assumption | |].
  { cbn [append]. now apply quote_stops. }
  rewrite exec_cls_app by assumption.
  rewrite consumed_app, exec_seq.
  apply exec_star_cls_greedy; [assumption | reflexivity |].
  rewrite exec_seq, exec_chr_app, exec_seq.
  apply exec_plus_cls_greedy; [assumption | assumption | |].
  { eapply stops_app_nonempty; [apply word_not_space | |]; assumption. }
  rewrite exec_seq, exec_grp.
  apply exec_plus_cls_greedy; [assumption | assumption | |].
  { eapply stops_app_nonempty; [apply space_not_word | |]; assumption. }
  rewrite consumed_app, exec_seq.
  apply exec_plus_cls_greedy; [assumption | assumption | |].
  { eapply stops_app_nonempty; [apply word_not_space | |]; assumption. }
  rewrite exec_grp.
  apply exec_plus_cls_greedy; [assumption | assumption | exact Hr |].
  rewrite consumed_app.
  assert ((Str.len rest =? Str.len whole)%nat = false) as ->.
  { apply Nat.eqb_neq. subst whole. rewrite len_app. cbn [append].
    rewrite len_cons. lia. }
  now rewrite andb_false_r.
Qed.

Lemma shift_fresh pos t c :
  shift pos (mkMatch 0 (0 + Str.len t) t c) = mkMatch pos (pos + Str.len t) t c.
Proof.
  unfold shift. cbn [m_start m_end m_text m_caps Nat.add].
  now rewrite Nat.add_0_r.
Qed.

Lemma shift_shift p q m : shift p (shift q m) = shift (p + q) m.
Proof.
  unfold shift. cbn [m_start m_end m_text m_caps]. f_equal; lia.
Qed.

Lemma search_from_shift r :
  forall s pos adv,
    search_from r pos s adv
    = (fun mr => (shift pos (fst mr), snd mr)) <$> search_from r 0 s adv.
Proof.
  induction s as [|a s IH]; intros pos adv; cbn [search_from].
  - destruct (match_at r "" adv) as [[rest c]|]; [|reflexivity].
    cbn [fmap option_fmap option_map fst snd]. now rewrite shift_fresh.
  - destruct (match_at r (String a s) adv) as [[rest c]|].
    + cbn [fmap option_fmap option_map fst snd]. now rewrite shift_fresh.
    + rewrite (IH (S pos)), (IH 1).
      destruct (search_from r 0 s false) as [[m rest]|]; [|reflexivity].
      cbn [fmap option_fmap option_map fst snd].
      rewrite shift_shift. do 3 f_equal. lia.
Qed.

Lemma finditer_from_shift r :
  forall fuel pos s adv,
    finditer_from fuel r pos s adv = shift pos <$> finditer_from fuel r 0 s adv.
Proof.
  induction fuel as [|fuel IH]; intros pos s adv; [reflexivity|].
  cbn [finditer_from]. rewrite search_from_shift.
  destruct (search_from r 0 s adv) as [[m rest]|]; [|reflexivity].
  cbn [fmap option_fmap option_map fst snd list_fmap].
  f_equal.
  replace (m_end (shift pos m) =? m_start (shift pos m))%nat
    with (m_end m =? m_start m)%nat.
  2:{ unfold shift. cbn [m_start m_end].
      destruct (Nat.eqb_spec (m_end m) (m_start m)) as [->|Hne].
      - now rewrite Nat.eqb_refl.
      - symmetry. apply Nat.eqb_neq. lia. }
  rewrite (IH (m_end (shift pos m))), (IH (m_end m)).
  rewrite <- list_fmap_compose. apply list_fmap_ext. intros _ m' _.
  unfold compose. rewrite shift_shift. reflexivity.
Qed.

Lemma parameter_of_match_shift pos m :
  parameter_of_match (shift pos m) = parameter_of_match m.
Proof. reflexivity. Qed.

(** The parameters of the matches found from any position, with enough
    fuel, are those extracted from the text. *)
Lemma extract_parameters_at fuel pos s content :
  2 * Str.len s + 1 < fuel ->
  concat (parameter_of_match <$> finditer_from fuel Pat.param_pattern pos s false)
  = _extract_parameters s content.
Proof.
  intros Hf. unfold _extract_parameters, finditer.
  rewrite finditer_from_shift.
  rewrite (finditer_from_fuel _ fuel (2 * Str.len s + 2) 0 s false) by lia.
  rewrite <- list_fmap_compose. f_equal.
Qed.

(** The text before the first at sign holds no match of a pattern that
    starts with it. *)
Lemma search_from_skip c r pre s :
  Str.all (fun a => negb (Ascii.eqb a c)) pre = true ->
  forall pos,
    search_from (Seq (Chr c) r) pos (pre ++ s) false
    = search_from (Seq (Chr c) r) (pos + Str.len pre) s false.
Proof.
  induction pre as [|a pre IH]; intros H pos.
  - cbn [append]. unfold Str.len. cbn [String.length].
    now rewrite Nat.add_0_r.
  - cbn [Str.all] in H. apply andb_true_iff in H as [Ha H].
    apply negb_true_iff in Ha.
    cbn [append search_from]. unfold match_at at 1. cbn [exec]. rewrite Ha.
    rewrite (IH H). rewrite len_cons. f_equal. lia.
Qed.

Lemma extract_parameters_skip pre s content :
  Str.all not_at pre = true ->
  _extract_parameters (pre ++ s) content = _extract_parameters s content.
Proof.
  intros H. unfold _extract_parameters at 1. unfold finditer.
  rewrite <- (extract_parameters_at (2 * Str.len (pre ++ s) + 2) (Str.len pre)
                s content) by (rewrite len_app; lia).
  f_equal. f_equal.
  destruct (2 * Str.len (pre ++ s) + 2) as [|fuel] eqn:E; [lia|].
  cbn [finditer_from]. unfold Pat.param_pattern.
  now rewrite (search_from_skip _ _ pre s H 0).
Qed.

(** A well-formed binding of one of the four collected kinds gives exactly
    its parameter: the quoted name, the location of the kind, the mapped
    type, required for the path kind only; the text before the binding is
    skipped where it holds no at sign, and the extraction goes on after
    it. *)
Theorem binding_extracted (kind loc : string) (d : Binding)
    (pre rest content : string) :
  In (kind, loc) collected_kinds ->
  wf_binding d = true ->
  Str.all not_at pre = true ->
  stops CharClass.word rest = true ->
  _extract_parameters (pre ++ render_binding kind d ++ rest) content
  = parameter_of_binding loc d :: _extract_parameters rest content.
Proof.
  intros Hk W Hp Hr. rewrite (extract_parameters_skip pre _ content Hp).
  unfold _extract_parameters at 1. unfold finditer.
  assert (0 < Str.len (render_binding kind d)) as Hlen.
  { unfold render_binding. cbn [append]. rewrite len_cons. lia. }
  replace (2 * Str.len (render_binding kind d ++ rest) + 2)
    with (S (2 * Str.len (render_binding kind d ++ rest) + 1)) by lia.
  cbn [finditer_from].
  rewrite (search_from_hit _ _ _ _ _ _ (match_at_binding kind loc d rest false Hk W Hr)).
  rewrite consumed_app.
  cbn [fmap list_fmap concat m_end m_start].
  replace (0 + Str.len (render_binding kind d) =? 0)%nat with false
    by (symmetry; apply Nat.eqb_neq; lia).
  rewrite (extract_parameters_at _ _ rest content) by (rewrite len_app; lia).
  assert (forall (x : Param) l1 l2, l1 = [x] -> (l1 ++ l2)%list = x :: l2) as L
    by (now intros x l1 l2 ->).
  apply L.
  unfold parameter_of_match, parameter_of_binding.
  cbn [group m_caps group_of Nat.eqb default from_option id].
  unfold collected_kinds in Hk. cbn [In] in Hk.
  repeat (destruct Hk as [[= <- <-]|Hk]; [reflexivity|]).
  destruct Hk.
Qed.

Lemma binding_extracted_witness :
  _extract_parameters
    ("(" ++ render_binding "PathParam" sample_path_binding ++ ")") ""
  = parameter_of_binding "path" sample_path_binding
    :: _extract_parameters ")" "".
Proof.
  apply (binding_extracted "PathParam" "path" sample_path_binding "(" ")" "");
    [now left | reflexivity | reflexivity | reflexivity].
Defined.

End Collected.

(** ** Methods without the modifier public *)

Section Modifier.
Import Re.

(** A text that does not hold the word public has no endpoint, whatever its
    annotations are, and the class name Unknown; a file with such a text
    contributes no resource.  So the methods of an interface, written
    without the modifier, are not discovered. *)
Theorem no_public_no_resource (file content : string) (base : option string) :
  Str.contains "public" content = false ->
  _extract_endpoints content base = []
  /\ _extract_class_name content = "Unknown"
  /\ discovered [mkJavaFile file (inl content)] = [].
Proof.
  intros H.
  assert (forall b, _extract_endpoints content b = []) as E.
  { intros b. unfold _extract_endpoints.
    rewrite finditer_none; [reflexivity|].
    now apply (search_from_absent _ "public" method_match_has_public). }
  split; [apply E|]. split.
  - unfold _extract_class_name, Pat.class_name_pattern.
    now rewrite search_lit_absent.
  - unfold discovered, resource_of_file, analyze_content.
    cbn [omap list_omap file_read].
    destruct (_is_jaxrs_resource content); cbn [negb]; [|reflexivity].
    cbn [endpoints]. now rewrite E.
Qed.

Lemma no_public_no_resource_witness :
  _extract_endpoints sample_interface (Some "/users") = []
  /\ _extract_class_name sample_interface = "Unknown"
  /\ discovered [mkJavaFile "UserApi.java" (inl sample_interface)] = [].
Proof.
  apply (no_public_no_resource "UserApi.java" sample_interface (Some "/users")).
  reflexivity.
Defined.

End Modifier.

(** ** The script *)

Section Script.

(** The script ends with the status 0 exactly when a repository path is
    given, is an existing directory, and [main], run on that path and on the
    output directory given, or on ./output, returns without raising; where
    [main] raises the script ends with the status 1.  Where no path is given
    or the path is not an existing directory, the script ends with the status
    1 having printed at least one line and done nothing else: no directory
    created, no list object made, no file written. *)
Theorem script_fatal_before_work (os : OS) (argv : list string) (w : World) :
  let '(status, w') := script os argv w in
  (if accepted os argv
   then let '(raised, w1) := main os (nth 1 argv "") (output_dir_of argv) w in
        w' = w1 /\ status = (if is_some_error raised then 1 else 0)
   else status = 1
        /\ heap w' = heap w
        /\ exists t, trace w' = (trace w ++ t)%list
                     /\ t <> [] /\ only_prints t = true)
  /\ (forall e, accepted os argv = true ->
                makedirs_error os (output_dir_of argv) = Some e ->
                status = 1 /\ w' = w).
Proof.
  assert (forall e, accepted os argv = true ->
                    makedirs_error os (output_dir_of argv) = Some e ->
                    main os (nth 1 argv "") (output_dir_of argv) w
                    = (Some e, w)) as R.
  { intros e _ He. now apply main_makedirs_raises. }
  revert R.
  assert (forall (w0 : World) (t : list event),
            t <> [] -> only_prints t = true ->
            exists t', (trace w0 ++ t)%list = (trace w0 ++ t')%list
                       /\ t' <> [] /\ only_prints t' = true) as P.
  { intros w0 t H1 H2. now exists t. }
  unfold script, accepted, output_dir_of.
  destruct argv as [|prog [|repo more]].
  - intros _. cbn. split; [|discriminate].
    split; [reflexivity|]. split; [reflexivity|].
    rewrite <- List.app_assoc. now apply P.
  - intros _. cbn. split; [|discriminate].
    split; [reflexivity|]. split; [reflexivity|].
    rewrite <- List.app_assoc. now apply P.
  - destruct (path_exists os repo); cbn [negb andb].
    + destruct (path_isdir os repo); cbn [negb].
      * unfold bind, ret. cbn [nth].
        replace (match more with
                 | [] => "./output"
                 | output_dir :: _ => output_dir
                 end) with (nth 0 more "./output") by now destruct more.
        intros R.
        destruct (main os repo (nth 0 more "./output") w) as [[e|] w1] eqn:E.
        -- split; [split; reflexivity|]. intros e' _ He'.
           specialize (R e' eq_refl He'). now injection R as _ <-.
        -- split; [split; reflexivity|]. intros e' _ He'.
           specialize (R e' eq_refl He'). discriminate R.
      * intros _. cbn. split; [|discriminate].
        split; [reflexivity|]. split; [reflexivity|]. now apply P.
    + intros _. cbn. split; [|discriminate].
      split; [reflexivity|]. split; [reflexivity|]. now apply P.
Qed.

End Script.

(** ** Values that are not quoted literals *)

Section Unquoted.
Import Re.

Lemma all_take p n : forall s, Str.all p s = true -> Str.all p (Str.take n s) = true.
Proof.
  induction n as [|n IH]; intros [|a s] H; try reflexivity.
  cbn [Str.take Str.all] in *. apply andb_true_iff in H as [-> H].
  now rewrite IH.
Qed.

Lemma all_suffix p u s : Str.all p (u ++ s) = true -> Str.all p s = true.
Proof. rewrite all_app. now intros [_ H]%andb_true_iff. Qed.

Section Within.
Variable p : ascii -> bool.

Lemma star_loop_within r1 :
  (forall s caps k res,
     exec r1 s caps k = Some res -> Str.all p s = true -> caps_ok (inside p) caps ->
     exists s1 c1, k s1 c1 = Some res /\ Str.all p s1 = true
                   /\ caps_ok (inside p) c1) ->
  forall fuel s caps k res,
    star_loop (exec r1) k fuel s caps = Some res ->
    Str.all p s = true -> caps_ok (inside p) caps ->
    exists s1 c1, k s1 c1 = Some res /\ Str.all p s1 = true
                  /\ caps_ok (inside p) c1.
Proof.
  intros IH. induction fuel as [|fuel IHf]; intros s caps k res H Hs Hc.
  - cbn [star_loop] in H. now exists s, caps.
  - cbn [star_loop] in H.
    destruct (exec r1 s caps _) as [res'|] eqn:E; cbn [or_else] in H.
    + injection H as ->.
      apply IH in E as (s1 & c1 & Hk & Hs1 & Hc1); [|exact Hs|exact Hc].
      destruct (Str.len s1 <? Str.len s)%nat.
      * now apply IHf in Hk.
      * now exists s1, c1.
    + now exists s, caps.
Qed.

(** The matcher run on a text of the class [p] hands on a text of the class
    and captures of the class. *)
Lemma exec_within r :
  forall s caps k res,
    exec r s caps k = Some res -> Str.all p s = true -> caps_ok (inside p) caps ->
    exists s1 c1, k s1 c1 = Some res /\ Str.all p s1 = true
                  /\ caps_ok (inside p) c1.
Proof.
  induction r as [|c|q|r1 IH1 r2 IH2|r1 IH1 r2 IH2|r1 IH1|n r1 IH1];
    intros s caps k res H Hs Hc; cbn [exec] in H.
  - now exists s, caps.
  - destruct s as [|a s]; [discriminate|].
    destruct (Ascii.eqb a c); [|discriminate].
    cbn [Str.all] in Hs. apply andb_true_iff in Hs as [_ Hs]. now exists s, caps.
  - destruct s as [|a s]; [discriminate|].
    destruct (q a); [|discriminate].
    cbn [Str.all] in Hs. apply andb_true_iff in Hs as [_ Hs]. now exists s, caps.
  - apply IH1 in H as (s1 & c1 & Hk & Hs1 & Hc1); [|exact Hs|exact Hc].
    now apply IH2 in Hk.
  - destruct (exec r1 s caps k) as [res'|] eqn:E; cbn [or_else] in H.
    + injection H as ->. now apply IH1 in E.
    + now apply IH2 in H.
  - now apply (star_loop_within r1 IH1) in H.
  - apply IH1 in H as (s1 & c1 & Hk & Hs1 & Hc1); [|exact Hs|exact Hc].
    exists s1, ((n, consumed s s1) :: c1).
    split; [exact Hk|]. split; [exact Hs1|].
    constructor; [|exact Hc1]. cbn [fst snd]. unfold inside, consumed.
    now apply all_take.
Qed.

Lemma match_at_within r s adv rest c :
  match_at r s adv = Some (rest, c) -> Str.all p s = true ->
  caps_ok (inside p) c.
Proof.
  intros H Hs. unfold match_at in H.
  apply exec_within in H as (s1 & c1 & Hk & _ & Hc); [|exact Hs|constructor].
  destruct (adv && _); [discriminate|]. now injection Hk as _ <-.
Qed.

End Within.

Lemma search_from_suffix r :
  forall s pos adv m rest,
    search_from r pos s adv = Some (m, rest) ->
    exists pre s' adv',
      s = pre ++ s' /\ match_at r s' adv' = Some (rest, m_caps m).
Proof.
  induction s as [|a s IH]; intros pos adv m rest H; cbn [search_from] in H.
  - destruct (match_at r "" adv) as [[rest' c]|] eqn:E; [|discriminate].
    injection H as <- <-. now exists "", "", adv.
  - destruct (match_at r (String a s) adv) as [[rest' c]|] eqn:E.
    + injection H as <- <-. now exists "", (String a s), adv.
    + apply IH in H as (pre & s' & adv' & -> & H).
      now exists (String a pre), s', adv'.
Qed.

Lemma search_suffix r content m :
  search r content = Some m ->
  exists pre s' adv' rest,
    content = pre ++ s' /\ match_at r s' adv' = Some (rest, m_caps m).
Proof.
  unfold search. intros H.
  destruct (search_from r 0 content false) as [[m0 rest]|] eqn:E; [|discriminate].
  injection H as ->.
  apply search_from_suffix in E as (pre & s' & adv' & -> & E).
  now exists pre, s', adv', rest.
Qed.

(** A pattern that starts with a character class finds nothing in a text
    without a character of the class. *)
Lemma search_from_cls_absent q r :
  forall s pos adv,
    Str.all (fun a => negb (q a)) s = true ->
    search_from (Seq (Cls q) r) pos s adv = None.
Proof.
  induction s as [|a s IH]; intros pos adv H.
  - reflexivity.
  - cbn [Str.all] in H. apply andb_true_iff in H as [Ha H].
    apply negb_true_iff in Ha.
    cbn [search_from]. unfold match_at at 1. cbn [exec]. rewrite Ha.
    now apply IH.
Qed.

(** A match of the path pattern, or of a pattern that goes on after it,
    needs a quote character. *)
Lemma path_prefix_needs_quote tail s caps k res :
  exec (Lit "@Path" +++ Star Pat.sp +++ Chr "(" +++ Star Pat.sp
        +++ Pat.quoted 1 +++ tail) s caps k = Some res ->
  Str.all not_quote s = true -> False.
Proof.
  intros H Hs. rewrite exec_seq in H.
  apply exec_reaches in H as (u1 & s1 & c1 & -> & H).
  apply all_suffix in Hs. rewrite exec_seq in H.
  apply exec_reaches in H as (u2 & s2 & c2 & -> & H).
  apply all_suffix in Hs. rewrite exec_seq in H.
  apply exec_reaches in H as (u3 & s3 & c3 & -> & H).
  apply all_suffix in Hs. rewrite exec_seq in H.
  apply exec_reaches in H as (u4 & s4 & c4 & -> & H).
  apply all_suffix in Hs.
  unfold Pat.quoted, Pat.quote in H. rewrite !exec_seq in H.
  destruct s4 as [|a s4]; [discriminate|]. cbn [exec] in H.
  cbn [Str.all] in Hs. apply andb_true_iff in Hs as [Ha _].
  unfold not_quote, CharClass.none_of in Ha. apply negb_true_iff in Ha.
  now rewrite Ha in H.
Qed.

Lemma search_path_unquoted tail content :
  Str.all not_quote content = true ->
  search (Lit "@Path" +++ Star Pat.sp +++ Chr "(" +++ Star Pat.sp
          +++ Pat.quoted 1 +++ tail) content = None.
Proof.
  intros H.
  destruct (search _ content) as [m|] eqn:E; [|reflexivity]. exfalso.
  apply search_suffix in E as (pre & s' & adv' & rest & -> & E).
  apply all_suffix in H. unfold match_at in E.
  exact (path_prefix_needs_quote _ _ _ _ _ E H).
Qed.

(** Where the text holds no quote character, no path is found, and no
    media type for either of the two annotation types the source passes: a
    value given by a constant, as in Produces(MediaType.TEXT_PLAIN), is not
    taken, and the endpoint gets the defaults. *)
Theorem unquoted_values_ignored (text annotation_type : string) :
  Str.all not_quote text = true ->
  In annotation_type media_annotations ->
  _extract_method_path text = ""
  /\ _extract_class_path text = None
  /\ _extract_media_types text annotation_type = []
  /\ or_json (_extract_media_types text annotation_type) = ["application/json"].
Proof.
  intros H _.
  assert (_extract_media_types text annotation_type = []) as M.
  { unfold _extract_media_types.
    destruct (search _ text) as [m|] eqn:E; [|reflexivity].
    apply search_suffix in E as (pre & s' & adv' & rest & -> & E).
    apply all_suffix in H.
    pose proof (match_at_within not_quote _ _ _ _ _ E H) as Hc.
    assert (Str.all not_quote (default "" (group 1 m)) = true) as Hu.
    { cbn [group]. destruct (group_of 1 (m_caps m)) as [v|] eqn:Ev;
        [|reflexivity].
      exact (group_of_ok _ _ _ _ Hc Ev). }
    unfold findall1. rewrite finditer_none; [reflexivity|].
    unfold Pat.media_literal, Pat.quoted, Pat.quote.
    apply search_from_cls_absent. exact Hu. }
  split.
  - unfold _extract_method_path, Pat.path_pattern.
    now rewrite (search_path_unquoted (Star Pat.sp +++ Chr ")") text H).
  - split.
    + unfold _extract_class_path, Pat.class_pattern, Pat.path_pattern.
      rewrite (search_path_unquoted _ text H).
      now rewrite (search_path_unquoted (Star Pat.sp +++ Chr ")") text H).
    + split; [exact M | now rewrite M].
Qed.

Lemma unquoted_values_ignored_witness :
  _extract_method_path sample_constants = ""
  /\ _extract_class_path sample_constants = None
  /\ _extract_media_types sample_constants "@Produces" = []
  /\ or_json (_extract_media_types sample_constants "@Produces")
     = ["application/json"].
Proof.
  apply (unquoted_values_ignored sample_constants "@Produces");
    [reflexivity | right; now left].
Defined.

End Unquoted.

(** ** Path annotations *)

Section Paths.
Import Re.

(** A pattern none of whose matches starts with another character than
    [c] finds nothing before the first [c]. *)
Lemma search_from_skip_to c r pre s :
  (forall a s' k, Ascii.eqb a c = false -> exec r (String a s') [] k = None) ->
  Str.all (fun a => negb (Ascii.eqb a c)) pre = true ->
  forall pos,
    search_from r pos (pre ++ s) false = search_from r (pos + Str.len pre) s false.
Proof.
  intros Hr. induction pre as [|a pre IH]; intros H pos.
  - cbn [append]. unfold Str.len. cbn [String.length].
    now rewrite Nat.add_0_r.
  - cbn [Str.all] in H. apply andb_true_iff in H as [Ha H].
    apply negb_true_iff in Ha.
    cbn [append search_from]. unfold match_at at 1. rewrite (Hr a _ _ Ha).
    rewrite (IH H). rewrite len_cons. f_equal. lia.
Qed.

Lemma path_starts_at tail a s' k :
  Ascii.eqb a "@" = false ->
  exec (Lit "@Path" +++ tail) (String a s') [] k = None.
Proof. intros Ha. cbn [Lit exec]. now rewrite Ha. Qed.

(** The part of a path annotation before its closing parenthesis. *)
Lemma exec_path_open tail d rest caps k res :
  wf_path d = true -> stops CharClass.space rest = true ->
  exec tail rest ((1, pd_value d) :: caps) k = Some res ->
  exec (Lit "@Path" +++ Star Pat.sp +++ Chr "(" +++ Star Pat.sp
        +++ Pat.quoted 1 +++ Star Pat.sp +++ tail)
    (render_path_open d ++ rest) caps k = Some res.
Proof.
  unfold wf_path, quotable. intros W Hr Hk.
  repeat (apply andb_true_iff in W as [W ?]).
  match goal with
  | Hq : nonempty _ && _ = true |- _ => apply andb_true_iff in Hq as [? ?]
  end.
  unfold render_path_open, Pat.quoted, Pat.quote, Pat.not_quote, Pat.sp.
  rewrite !str_app_assoc.
  rewrite exec_seq, exec_lit_app, exec_seq.
  apply exec_star_cls_greedy; [assumption | reflexivity |].
  rewrite exec_seq, exec_chr_app, exec_seq.
  apply exec_star_cls_greedy; [assumption | |].
  { cbn [append stops]. now rewrite quote_not_space. }
  rewrite !exec_seq. rewrite exec_cls_app by assumption.
  rewrite exec_seq, exec_grp.
  apply exec_plus_cls_greedy; [assumption | assumption | |].
  { cbn [append]. now apply quote_stops. }
  rewrite exec_cls_app by assumption.
  rewrite consumed_app, exec_seq.
  apply exec_star_cls_greedy; [assumption | exact Hr | exact Hk].
Qed.

Lemma match_at_path d rest adv :
  wf_path d = true ->
  match_at Pat.path_pattern (render_path d ++ rest) adv
  = Some (rest, [(1, pd_value d)]).
Proof.
  intros W. unfold match_at, Pat.path_pattern, render_path.
  assert (Str.len rest <> Str.len ((render_path_open d ++ ")") ++ rest)) as Hlen.
  { rewrite !len_app. cbn [append]. rewrite len_cons. lia. }
  apply Nat.eqb_neq in Hlen.
  set (whole := (_ ++ rest)) in *.
  unfold whole at 1. rewrite str_app_assoc.
  apply exec_path_open; [exact W | reflexivity |].
  cbn [append exec]. rewrite Ascii.eqb_refl, Hlen.
  now rewrite andb_false_r.
Qed.

Lemma search_path d pre rest :
  wf_path d = true -> Str.all not_at pre = true ->
  search_from Pat.path_pattern 0 (pre ++ render_path d ++ rest) false
  = Some (mkMatch (Str.len pre) (Str.len pre + Str.len (render_path d))
            (render_path d) [(1, pd_value d)], rest).
Proof.
  intros W Hp. unfold Pat.path_pattern at 1.
  rewrite (search_from_skip_to "@" _ pre _ (path_starts_at _) Hp 0).
  fold Pat.path_pattern.
  rewrite (search_from_hit _ _ _ _ _ _ (match_at_path d rest false W)).
  now rewrite consumed_app.
Qed.

(** The method path of a well-formed path annotation is its quoted value,
    whatever the two quote characters are, where no at sign comes before
    the annotation. *)
Theorem method_path_extracted (d : PathDecl) (pre rest : string) :
  wf_path d = true -> Str.all not_at pre = true ->
  _extract_method_path (pre ++ render_path d ++ rest) = pd_value d.
Proof.
  intros W Hp. unfold _extract_method_path, search.
  now rewrite (search_path d pre rest W Hp).
Qed.

Lemma method_path_extracted_witness :
  _extract_method_path ("  " ++ render_path sample_path_decl ++ NL)
  = "/items".
Proof.
  apply (method_path_extracted sample_path_decl "  " NL); reflexivity.
Defined.

Lemma match_at_class d blank modifier rest adv :
  wf_path d = true -> Str.all CharClass.space blank = true ->
  wf_modifier modifier = true ->
  match_at Pat.class_pattern
    (render_path d ++ blank ++ render_modifier modifier ++ "class" ++ rest) adv
  = Some (rest, [(1, pd_value d)]).
Proof.
  intros W Hb Hm. unfold match_at, Pat.class_pattern, render_path.
  assert (Str.len rest
          <> Str.len ((render_path_open d ++ ")") ++ blank
                      ++ render_modifier modifier ++ "class" ++ rest)) as Hlen.
  { rewrite !len_app. cbn [append]. rewrite !len_cons. lia. }
  apply Nat.eqb_neq in Hlen.
  set (whole := (_ ++ blank ++ _)) in *.
  unfold whole at 1. rewrite str_app_assoc.
  apply exec_path_open; [exact W | reflexivity |].
  cbn [append]. rewrite exec_seq, exec_chr, exec_seq.
  unfold Pat.sp.
  apply exec_star_cls_greedy; [exact Hb | now destruct modifier |].
  rewrite exec_seq.
  destruct modifier as [b|]; cbn [render_modifier wf_modifier] in *.
  - apply andb_true_iff in Hm as [Hn Hs].
    apply exec_opt_take. rewrite str_app_assoc.
    rewrite exec_seq, exec_lit_app.
    apply exec_plus_cls_greedy; [exact Hn | exact Hs | reflexivity |].
    rewrite (exec_lit_app "class" rest), Hlen. now rewrite andb_false_r.
  - cbn [append]. rewrite exec_opt_skip by reflexivity.
    rewrite (exec_lit_app "class" rest), Hlen. now rewrite andb_false_r.
Qed.

(** The first strategy: a well-formed path annotation followed, after
    blanks only, by the word class with or without the modifier public
    gives its value as the class path. *)
Theorem class_path_adjacent (d : PathDecl) (pre blank : string)
    (modifier : option string) (rest : string) :
  wf_path d = true -> Str.all not_at pre = true ->
  Str.all CharClass.space blank = true -> wf_modifier modifier = true ->
  _extract_class_path
    (pre ++ render_path d ++ blank ++ render_modifier modifier ++ "class" ++ rest)
  = Some (pd_value d).
Proof.
  intros W Hp Hb Hm. unfold _extract_class_path, search.
  unfold Pat.class_pattern at 1.
  rewrite (search_from_skip_to "@" _ pre _ (path_starts_at _) Hp 0).
  fold Pat.class_pattern.
  now rewrite (search_from_hit _ _ _ _ _ _
                 (match_at_class d blank modifier rest false W Hb Hm)).
Qed.

Lemma class_path_adjacent_witness :
  _extract_class_path
    ("package a;" ++ NL ++ render_path sample_path_decl ++ NL
     ++ render_modifier None ++ "class" ++ " Items {}")
  = Some "/items".
Proof.
  apply (class_path_adjacent sample_path_decl ("package a;" ++ NL) NL None
           " Items {}"); reflexivity.
Defined.

Lemma public_no_border m x :
  nonempty m = true -> Str.contains "public" m = false ->
  Str.starts_with "public" (m ++ "public" ++ x) = false.
Proof.
  intros Hn H.
  destruct m as [|a1 m]; [discriminate|].
  cbn [Str.contains] in H. apply orb_false_iff in H as [H _].
  destruct m as [|a2 [|a3 [|a4 [|a5 [|a6 m]]]]];
    cbn [append Str.starts_with] in *;
    repeat match goal with
           | |- context [Ascii.eqb ?c ?a] =>
               is_var a; destruct (Ascii.eqb c a)
           end;
    try reflexivity; exact H.
Qed.

Lemma search_from_public_skip r x :
  forall mid pos,
    Str.contains "public" mid = false ->
    search_from (Seq (Lit "public") r) pos (mid ++ "public" ++ x) false
    = search_from (Seq (Lit "public") r) (pos + Str.len mid) ("public" ++ x) false.
Proof.
  induction mid as [|a mid IH]; intros pos H.
  - cbn [append]. unfold Str.len at 1. cbn [String.length].
    now rewrite Nat.add_0_r.
  - pose proof (public_no_border (String a mid) x eq_refl H) as Hs.
    cbn [Str.contains] in H. apply orb_false_iff in H as [_ H].
    change (String a mid ++ "public" ++ x)
      with (String a (mid ++ "public" ++ x)) in *.
    cbn [search_from]. unfold match_at at 1.
    rewrite exec_seq, exec_lit, Hs.
    rewrite (IH (S pos) H), len_cons. f_equal. lia.
Qed.

Lemma match_at_class_decl c rest adv :
  wf_class_decl c = true -> stops CharClass.word rest = true ->
  match_at Pat.class_decl_pattern (render_class_decl c ++ rest) adv
  = Some (rest, []).
Proof.
  unfold wf_class_decl, identifier. intros W Hr.
  repeat (apply andb_true_iff in W as [W ?]).
  match goal with
  | Hq : nonempty _ && _ = true |- _ => apply andb_true_iff in Hq as [? ?]
  end.
  unfold match_at, Pat.class_decl_pattern, render_class_decl, Pat.sp, Pat.w.
  assert (Str.len rest
          <> Str.len (("public" ++ cd_blank1 c ++ "class" ++ cd_blank2 c
                       ++ cd_name c) ++ rest)) as Hlen.
  { rewrite !len_app. cbn [append]. rewrite !len_cons. lia. }
  apply Nat.eqb_neq in Hlen.
  set (whole := (_ ++ rest)) in *.
  unfold whole at 1. rewrite !str_app_assoc.
  rewrite exec_seq, (exec_lit_app "public"), exec_seq.
  apply exec_plus_cls_greedy; [assumption | assumption | reflexivity |].
  rewrite exec_seq, (exec_lit_app "class"), exec_seq.
  apply exec_plus_cls_greedy; [assumption | assumption | |].
  { eapply stops_app_nonempty; [apply word_not_space | |]; assumption. }
  apply exec_plus_cls_greedy; [assumption | assumption | exact Hr |].
  rewrite Hlen. now rewrite andb_false_r.
Qed.

(** The second strategy: where the first one finds nothing, the value of
    the first path annotation is the class path exactly when fewer than 100
    characters separate the end of the annotation from the first public class
    declaration after it. *)
Theorem class_path_window (d : PathDecl) (c : ClassDecl)
    (pre mid rest : string) :
  let content := pre ++ render_path d ++ mid ++ render_class_decl c ++ rest in
  wf_path d = true -> wf_class_decl c = true ->
  Str.all not_at pre = true ->
  Str.contains "public" mid = false ->
  stops CharClass.word rest = true ->
  search Pat.class_pattern content = None ->
  _extract_class_path content
  = if (Str.len mid <? 100)%nat then Some (pd_value d) else None.
Proof.
  intros content W Wc Hp Hm Hr H1. unfold _extract_class_path.
  rewrite H1. unfold content, search.
  rewrite (search_path d pre _ W Hp).
  cbn [fmap option_fmap option_map fst m_end].
  rewrite <- len_app, <- str_app_assoc, drop_app.
  unfold Pat.class_decl_pattern at 1, render_class_decl.
  rewrite !str_app_assoc.
  rewrite (search_from_public_skip _ _ mid 0 Hm).
  fold Pat.class_decl_pattern.
  pose proof (match_at_class_decl c rest false Wc Hr) as M.
  unfold render_class_decl in M. rewrite !str_app_assoc in M.
  rewrite (search_from_hit _ _ _ _ _ _ M).
  cbn [fmap option_fmap option_map fst m_start group m_caps group_of Nat.eqb
       Nat.add].
  reflexivity.
Qed.

Lemma class_path_window_witness :
  _extract_class_path (sample_distant 93) = Some "/items"
  /\ _extract_class_path (sample_distant 94) = None.
Proof.
  split.
  - apply (class_path_window sample_path_decl (mkClassDecl " " " " "Items")
             "" (NL ++ "/*" ++ Str.replicate 93 "-" ++ "*/" ++ NL) " {}");
      vm_compute; reflexivity.
  - apply (class_path_window sample_path_decl (mkClassDecl " " " " "Items")
             "" (NL ++ "/*" ++ Str.replicate 94 "-" ++ "*/" ++ NL) " {}");
      vm_compute; reflexivity.
Defined.

End Paths.

(** ** Media-type annotations *)

Section Media.
Import Re.

Lemma all_render_literals (p : ascii -> bool) q items :
  p q = true ->
  forallb (fun item => Str.all p (fst item) && Str.all p (snd item)) items = true ->
  Str.all p (render_literals q items) = true.
Proof.
  intros Hq. induction items as [|[v sep] items IH]; intros H; [reflexivity|].
  cbn [forallb fst snd] in H.
  apply andb_true_iff in H as [[Hv Hs]%andb_true_iff H].
  cbn [render_literals]. rewrite !all_app. cbn [Str.all].
  now rewrite Hq, Hv, Hs, IH.
Qed.

Lemma quote_not_rparen a : is_quote a = true -> not_rparen a = true.
Proof. destruct a as [[] [] [] [] [] [] [] []]; vm_compute; congruence. Qed.

Lemma quote_not_brace a : is_quote a = true -> Ascii.eqb a "{" = false.
Proof. destruct a as [[] [] [] [] [] [] [] []]; vm_compute; congruence. Qed.

Lemma literals_not_rparen q items :
  is_quote q = true -> forallb wf_literal items = true ->
  Str.all not_rparen (render_literals q items) = true.
Proof.
  intros Hq W. apply all_render_literals; [now apply quote_not_rparen|].
  apply forallb_forall. intros item Hin.
  apply (proj1 (forallb_forall _ _) W) in Hin. unfold wf_literal in Hin.
  repeat (apply andb_true_iff in Hin as [Hin ?]). now apply andb_true_iff.
Qed.

(** The literal pattern on the first literal of a list. *)
Lemma match_at_literal q v s adv :
  is_quote q = true -> quotable v = true ->
  match_at Pat.media_literal (String q "" ++ v ++ String q "" ++ s) adv
  = Some (s, [(1, v)]).
Proof.
  intros Hq [Hn Hv]%andb_true_iff.
  unfold match_at, Pat.media_literal, Pat.quoted, Pat.quote, Pat.not_quote.
  assert (Str.len s <> Str.len (String q "" ++ v ++ String q "" ++ s)) as Hlen.
  { rewrite !len_app. cbn [append]. rewrite !len_cons. lia. }
  apply Nat.eqb_neq in Hlen.
  set (whole := (_ ++ _ ++ _ ++ s)) in *. unfold whole at 1.
  rewrite exec_seq, exec_cls_app by exact Hq.
  rewrite exec_seq, exec_grp.
  apply exec_plus_cls_greedy; [exact Hn | exact Hv | |].
  { cbn [append]. now apply quote_stops. }
  rewrite exec_cls_app by exact Hq.
  rewrite consumed_app, Hlen. now rewrite andb_false_r.
Qed.

Lemma finditer_from_skip q r sep s :
  Str.all (fun a => negb (q a)) sep = true ->
  forall fuel pos,
    finditer_from fuel (Seq (Cls q) r) pos (sep ++ s) false
    = finditer_from fuel (Seq (Cls q) r) (pos + Str.len sep) s false.
Proof.
  intros H [|fuel] pos; [reflexivity|]. cbn [finditer_from].
  assert (forall pos', search_from (Seq (Cls q) r) pos' (sep ++ s) false
                       = search_from (Seq (Cls q) r) (pos' + Str.len sep) s false)
    as ->; [|reflexivity].
  clear pos. induction sep as [|a sep IH]; intros pos.
  - cbn [append]. unfold Str.len. cbn [String.length]. now rewrite Nat.add_0_r.
  - cbn [Str.all] in H. apply andb_true_iff in H as [Ha H].
    apply negb_true_iff in Ha.
    cbn [append search_from]. unfold match_at at 1. cbn [exec]. rewrite Ha.
    rewrite (IH H). rewrite len_cons. f_equal. lia.
Qed.

(** The values of the literals, in order. *)
Lemma findall_literals q :
  is_quote q = true ->
  forall items fuel pos,
    forallb wf_literal items = true ->
    2 * Str.len (render_literals q items) + 1 < fuel ->
    (fun m => default "" (group 1 m))
      <$> finditer_from fuel Pat.media_literal pos (render_literals q items) false
    = fst <$> items.
Proof.
  intros Hq. induction items as [|[v sep] items IH]; intros fuel pos W Hf.
  - destruct fuel as [|fuel]; [reflexivity|]. reflexivity.
  - cbn [forallb] in W. apply andb_true_iff in W as [Wi W].
    unfold wf_literal in Wi. cbn [fst snd] in Wi.
    apply andb_true_iff in Wi as [[[Wi Wr]%andb_true_iff Wq]%andb_true_iff Ws].
    destruct fuel as [|fuel]; [lia|].
    cbn [render_literals finditer_from] in *.
    rewrite (search_from_hit _ _ _ _ _ _ (match_at_literal q v _ false Hq Wi)).
    cbn [fmap list_fmap m_end m_start group m_caps group_of Nat.eqb default
         from_option id fst].
    f_equal.
    assert (forall n t, nonempty t = true -> (n + Str.len t =? n)%nat = false)
      as Hne.
    { intros n t Ht. apply Nat.eqb_neq. destruct t; [discriminate|].
      rewrite len_cons. lia. }
    rewrite Hne.
    2:{ assert (String q "" ++ v ++ String q "" ++ sep ++ render_literals q items
                = (String q "" ++ v ++ String q "") ++ sep ++ render_literals q items)
          as -> by now rewrite !str_app_assoc.
        now rewrite consumed_app. }
    unfold Pat.media_literal, Pat.quoted, Pat.quote.
    rewrite finditer_from_skip by assumption.
    apply (IH fuel _ W).
    rewrite !len_app in Hf. cbn [append] in Hf. rewrite !len_cons in Hf. lia.
Qed.

(** The media pattern on a well-formed annotation: its group holds the
    literals. *)
Lemma match_at_media annotation_type blank0 blank1 brace q items rest adv :
  Str.all CharClass.space blank0 = true ->
  Str.all CharClass.space blank1 = true ->
  is_quote q = true -> items <> [] -> forallb wf_literal items = true ->
  match_at (Pat.media_pattern annotation_type)
    (render_media annotation_type blank0 blank1 brace q items ++ rest) adv
  = Some (rest, [(1, render_literals q items)]).
Proof.
  intros H0 H1 Hq Hi W.
  pose proof (literals_not_rparen q items Hq W) as Hnr.
  assert (exists core, render_literals q items = String q core) as [core Ec].
  { destruct items as [|[v sep] items]; [contradiction|].
    cbn [render_literals append]. eauto. }
  unfold match_at, Pat.media_pattern, render_media, Pat.sp, Pat.not_rparen.
  assert (Str.len rest
          <> Str.len ((annotation_type ++ blank0 ++ "(" ++ blank1
                       ++ (if brace then "{" else "") ++ render_literals q items
                       ++ ")") ++ rest)) as Hlen.
  { rewrite !len_app. cbn [append]. rewrite !len_cons. lia. }
  apply Nat.eqb_neq in Hlen.
  set (whole := (_ ++ rest)) in *. unfold whole at 1.
  rewrite !str_app_assoc.
  rewrite exec_seq, exec_lit_app, exec_seq.
  apply exec_star_cls_greedy; [exact H0 | reflexivity |].
  rewrite exec_seq, exec_chr_app, exec_seq.
  apply exec_star_cls_greedy; [exact H1 | |].
  { destruct brace; [reflexivity|]. rewrite Ec. cbn [append stops].
    now rewrite quote_not_space. }
  rewrite exec_seq.
  assert (forall k res,
            exec (Star (Cls CharClass.space) +++ k)
              (render_literals q items ++ ")" ++ rest) [] res
            = exec k (render_literals q items ++ ")" ++ rest) [] res) as Hsp.
  { intros k res. rewrite exec_seq, exec_star_cls_stops; [reflexivity|].
    rewrite Ec. cbn [append stops]. now rewrite quote_not_space. }
  assert (exec (Grp 1 (Plus (Cls (CharClass.none_of [")"%char])))
                +++ Star (Cls CharClass.space) +++ Opt (Chr "}")
                +++ Star (Cls CharClass.space) +++ Chr ")")
            (render_literals q items ++ ")" ++ rest) []
            (fun s' c =>
               if adv && (Str.len s' =? Str.len whole)%nat then None
               else Some (s', c))
          = Some (rest, [(1, render_literals q items)])) as Hbody.
  { rewrite exec_seq, exec_grp.
    apply exec_plus_cls_greedy; [now rewrite Ec | exact Hnr | reflexivity |].
    rewrite consumed_app. cbn [append].
    rewrite exec_seq, exec_star_cls_stops by reflexivity.
    rewrite exec_seq, exec_opt_skip by reflexivity.
    rewrite exec_seq, exec_star_cls_stops by reflexivity.
    rewrite exec_chr, Hlen. now rewrite andb_false_r. }
  destruct brace.
  - apply exec_opt_take. cbn [append]. rewrite exec_chr.
    rewrite Hsp. exact Hbody.
  - cbn [append]. rewrite exec_opt_skip.
    + rewrite Hsp. exact Hbody.
    + rewrite Ec. cbn [append exec]. now rewrite quote_not_brace.
Qed.

(** A well-formed annotation of media types, of either of the two
    annotation types the source passes, with or without braces, gives the
    values of its quoted literals in order; what follows a literal up to the
    next one (commas, blanks, the closing brace) is skipped. *)
Theorem media_types_extracted (annotation_type blank0 blank1 : string)
    (brace : bool) (q : ascii) (items : list (string * string))
    (rest : string) :
  In annotation_type media_annotations ->
  Str.all CharClass.space blank0 = true ->
  Str.all CharClass.space blank1 = true ->
  is_quote q = true -> items <> [] -> forallb wf_literal items = true ->
  _extract_media_types
    (render_media annotation_type blank0 blank1 brace q items ++ rest)
    annotation_type
  = fst <$> items.
Proof.
  intros _ H0 H1 Hq Hi W. unfold _extract_media_types, search.
  rewrite (search_from_hit _ _ _ _ _ _
             (match_at_media annotation_type blank0 blank1 brace q items rest
                false H0 H1 Hq Hi W)).
  cbn [fmap option_fmap option_map fst group m_caps group_of Nat.eqb default
       from_option id].
  unfold findall1, finditer. apply findall_literals; [exact Hq | exact W | lia].
Qed.

Lemma media_types_extracted_witness :
  _extract_media_types
    (render_media "@Produces" "" "" true Str.dq_char sample_media_items ++ NL)
    "@Produces"
  = ["application/json"; "text/plain"].
Proof.
  apply (media_types_extracted "@Produces" "" "" true Str.dq_char
           sample_media_items NL);
    [right; now left | reflexivity | reflexivity | reflexivity | discriminate
    | reflexivity].
Defined.

End Media.

(** ** The parameter list of a signature *)

Section ParameterList.
Import Re.

Lemma has_rparen_space_app_r u v :
  has_rparen_space v = true -> has_rparen_space (u ++ v) = true.
Proof.
  intros H. induction u as [|a u IH]; [exact H|].
  cbn [append has_rparen_space]. rewrite IH. apply orb_true_r.
Qed.

Lemma has_rparen_space_tail a s :
  has_rparen_space (String a s) = false -> has_rparen_space s = false.
Proof.
  cbn [has_rparen_space]. now intros [_ H]%orb_false_iff.
Qed.

Lemma no_rparen_space u :
  Str.all not_rparen u = true -> has_rparen_space (u ++ ")") = false.
Proof.
  induction u as [|a u IH]; intros H; [reflexivity|].
  cbn [Str.all] in H. apply andb_true_iff in H as [Ha H].
  cbn [append has_rparen_space]. rewrite (IH H), orb_false_r.
  unfold not_rparen, CharClass.none_of, CharClass.one_of in Ha.
  cbn [existsb] in Ha. rewrite orb_false_r in Ha.
  apply negb_true_iff in Ha. now rewrite Ha.
Qed.

(** A match of the parameter pattern needs a closing parenthesis followed
    by white space. *)
Lemma param_match_needs_blank s adv res :
  match_at Pat.param_pattern s adv = Some res -> has_rparen_space s = true.
Proof.
  unfold match_at, Pat.param_pattern. intros H.
  do 7 (rewrite exec_seq in H;
        apply exec_reaches in H as (? & ? & ? & -> & H);
        apply has_rparen_space_app_r).
  rewrite exec_seq in H.
  match goal with
  | H : exec (Chr _) ?x _ _ = _ |- _ => destruct x as [|c t]; [discriminate|]
  end.
  cbn [exec] in H. destruct (Ascii.eqb_spec c ")") as [->|]; [|discriminate].
  unfold Plus, Pat.sp in H. rewrite !exec_seq in H.
  destruct t as [|a t]; [discriminate|]. cbn [exec] in H.
  destruct (CharClass.space a) eqn:Ha; [|discriminate].
  cbn [has_rparen_space]. now rewrite Ha.
Qed.

Lemma search_from_no_blank :
  forall s pos adv,
    has_rparen_space s = false ->
    search_from Pat.param_pattern pos s adv = None.
Proof.
  induction s as [|a s IH]; intros pos adv H; cbn [search_from].
  - destruct (match_at Pat.param_pattern "" adv) as [[rest c]|] eqn:E;
      [|reflexivity].
    apply param_match_needs_blank in E. discriminate.
  - destruct (match_at Pat.param_pattern (String a s) adv) as [[rest c]|] eqn:E.
    + apply param_match_needs_blank in E. congruence.
    + apply IH. eapply has_rparen_space_tail, H.
Qed.

(** After the name of an HTTP method, the run of word characters never ends
    before the literal of the parameter kinds. *)
Lemma exec_method_kind h tail caps k :
  stops CharClass.word tail = true ->
  exec (Seq (Plus Pat.w) (Lit "Param")) (value h ++ tail) caps k = None.
Proof.
  intros Ht.
  destruct h; unfold Plus, Pat.w; cbn [value append]; rewrite !exec_seq;
    rewrite exec_cls by reflexivity;
    rewrite !exec_star_cls_cons by reflexivity;
    rewrite exec_star_cls_stops by exact Ht;
    rewrite !exec_lit;
    rewrite (starts_with_stops CharClass.word) by (reflexivity || exact Ht);
    reflexivity.
Qed.

Lemma annotated_signature_no_parameter h blank g content :
  nonempty blank = true -> Str.all CharClass.space blank = true ->
  wf_sig g = true ->
  _extract_parameters (render (method_block h blank) ++ render_sig g) content
  = [].
Proof.
  intros Hn Hb W. unfold wf_sig in W.
  repeat (apply andb_true_iff in W as [W ?]).
  unfold _extract_parameters. rewrite finditer_none; [reflexivity|].
  unfold render, method_block. cbn [b_name b_blank b_args].
  rewrite str_app_nil_r.
  change (("@" ++ value h ++ blank) ++ render_sig g)
    with (String "@" ((value h ++ blank) ++ render_sig g)).
  cbn [search_from].
  assert (match_at Pat.param_pattern
            (String "@" ((value h ++ blank) ++ render_sig g)) false = None) as ->.
  { unfold match_at, Pat.param_pattern.
    rewrite exec_seq, exec_chr, exec_seq, exec_grp, str_app_assoc.
    rewrite exec_method_kind; [reflexivity|].
    eapply stops_app_nonempty; [apply space_not_word | |]; assumption. }
  apply search_from_no_blank.
  unfold render_sig.
  repeat rewrite <- str_app_assoc.
  apply no_rparen_space.
  rewrite !all_app.
  assert (forall u, Str.all CharClass.space u = true
                    -> Str.all not_rparen u = true) as S1.
  { induction u as [|a u IH]; [reflexivity|]. cbn [Str.all].
    intros [Ha Hu]%andb_true_iff. rewrite (IH Hu), andb_true_r.
    destruct a as [[] [] [] [] [] [] [] []]; try reflexivity; discriminate. }
  assert (forall u, Str.all CharClass.word u = true
                    -> Str.all not_rparen u = true) as S2.
  { induction u as [|a u IH]; [reflexivity|]. cbn [Str.all].
    intros [Ha Hu]%andb_true_iff. rewrite (IH Hu), andb_true_r.
    destruct a as [[] [] [] [] [] [] [] []]; try reflexivity; discriminate. }
  rewrite (S1 blank), (S1 (sig_blank1 g)), (S1 (sig_blank2 g)),
    (S1 (sig_blank3 g)), (S2 (sig_type g)), (S2 (sig_name g)) by assumption.
  rewrite H. now destruct h.
Qed.

(** A method with a bare HTTP-method annotation as its last annotation
    gives an endpoint without any parameter, whatever its parameter list
    declares: the captured signature ends at the first closing parenthesis,
    that of the annotation of the first binding, so no binding of the list is
    complete in it.  The endpoint has the method of the annotation, the class
    path alone and the default media types. *)
Theorem signature_parameters_lost (h : HttpMethod) (blank : string)
    (g : Signature) (rest : string) (base : option string) :
  nonempty blank = true -> Str.all CharClass.space blank = true ->
  wf_sig g = true ->
  let annotated := render (method_block h blank) ++ render_sig g in
  let content := annotated ++ rest in
  _extract_parameters annotated content = []
  /\ exists more,
       _extract_endpoints content base
       = json_endpoint (_combine_paths base "") h (sig_name g) :: more.
Proof.
  intros Hn Hb Wg annotated content.
  pose proof (annotated_signature_no_parameter h blank g content Hn Hb Wg) as P.
  split; [exact P|].
  assert (wf_block (method_block h blank) = true) as Wb.
  { unfold wf_block, method_block. cbn [b_name b_blank b_args].
    rewrite Hb. now destruct h. }
  assert (closed_block (method_block h blank) = true) as Cb.
  { unfold closed_block, method_block. cbn [b_blank].
    destruct blank; [discriminate | reflexivity]. }
  destruct (finditer_annotated [] (method_block h blank) g rest eq_refl Wb Cb Wg)
    as [more [Hf _]].
  cbn [render_all append] in Hf. fold annotated in Hf. fold content in Hf.
  unfold _extract_endpoints. rewrite Hf. cbn [omap list_omap block_captures].
  rewrite endpoint_of_annotated.
  destruct (method_block_extraction h blank Hb) as (-> & -> & -> & ->).
  fold annotated in P. rewrite P. cbn [or_json]. eexists. reflexivity.
Qed.

Lemma signature_parameters_lost_witness :
  let annotated :=
    render (method_block GET NL) ++ render_sig sample_bound_signature in
  let content := annotated ++ sample_bound_rest in
  _extract_parameters annotated content = []
  /\ exists more,
       _extract_endpoints content (Some "/users")
       = json_endpoint (_combine_paths (Some "/users") "") GET
           (sig_name sample_bound_signature) :: more.
Proof.
  apply (signature_parameters_lost GET NL sample_bound_signature
           sample_bound_rest (Some "/users")); reflexivity.
Defined.

End ParameterList.

(** ** The qualification of a file *)

Section Qualification.
Import Re.

Lemma bool_decide_is_some {A : Type} (o : option A) :
  bool_decide (is_Some o) = is_some o.
Proof.
  destruct o; cbn [is_some].
  - apply bool_decide_eq_true_2. eauto.
  - apply bool_decide_eq_false_2. now intros [? ?].
Qed.

Lemma search_occurs r f :
  (forall s, is_some (match_at r s false) = f s) ->
  forall s pos, is_some (search_from r pos s false) = occurs f s.
Proof.
  intros H. induction s as [|a s IH]; intros pos;
    cbn [search_from occurs]; rewrite <- H.
  - destruct (match_at r "" false) as [[rest c]|]; reflexivity.
  - destruct (match_at r (String a s) false) as [[rest c]|]; [reflexivity|].
    cbn [is_some orb]. apply IH.
Qed.

Lemma occurs_orb f g s :
  occurs (fun x => f x || g x) s = occurs f s || occurs g s.
Proof.
  induction s as [|a s IH]; cbn [occurs].
  - now rewrite !orb_false_r.
  - rewrite IH. destruct (f (String a s)), (g (String a s)),
      (occurs f s), (occurs g s); reflexivity.
Qed.

Lemma occurs_ext f g s : (forall x, f x = g x) -> occurs f s = occurs g s.
Proof.
  intros H. induction s as [|a s IH]; cbn [occurs]; now rewrite H, ?IH.
Qed.

Lemma space_or_newline a :
  CharClass.space a || Ascii.eqb a "010" = CharClass.space a.
Proof. destruct a as [[] [] [] [] [] [] [] []]; reflexivity. Qed.

Lemma space_not_lparen a : CharClass.space a = true -> Ascii.eqb a "(" = false.
Proof. destruct a as [[] [] [] [] [] [] [] []]; vm_compute; congruence. Qed.

Lemma match_method_marker marker s :
  is_some (match_at (Lit marker +++ Pat.sp_or_nl) s false)
  = method_marker_here marker s.
Proof.
  unfold match_at, method_marker_here, Pat.sp_or_nl.
  rewrite exec_seq, exec_lit.
  destruct (Str.starts_with marker s); [|reflexivity]. cbn [andb].
  destruct (Str.drop (Str.len marker) s) as [|a t]; [reflexivity|].
  cbn [exec followed_by_space andb]. rewrite space_or_newline.
  now destruct (CharClass.space a).
Qed.

Lemma exec_blanks_lparen k :
  (forall s c, is_some (k s c) = true) ->
  forall t caps,
    is_some (exec (Star (Cls CharClass.space)) t caps
               (fun s1 c1 => exec (Chr "(") s1 c1 k))
    = Str.starts_with "(" (skip_spaces t).
Proof.
  intros Hk. induction t as [|a t IH]; intros caps.
  - now rewrite exec_star_cls_nil.
  - cbn [skip_spaces]. destruct (CharClass.space a) eqn:Ha.
    + rewrite exec_star_cls_cons by exact Ha.
      cbn [exec]. rewrite (space_not_lparen a Ha), or_else_none_r. apply IH.
    + rewrite exec_star_cls_stop by exact Ha.
      cbn [exec Str.starts_with]. rewrite (Ascii.eqb_sym "(" a).
      destruct (Ascii.eqb a "("); [|reflexivity].
      rewrite Hk. now destruct t.
Qed.

Lemma match_path_marker s :
  is_some (match_at (Lit "@Path" +++ Star Pat.sp +++ Chr "(") s false)
  = path_marker_here s.
Proof.
  unfold match_at, path_marker_here, Pat.sp.
  rewrite exec_seq, exec_lit.
  destruct (Str.starts_with "@Path" s); [|reflexivity]. cbn [andb].
  rewrite exec_seq. now apply exec_blanks_lparen.
Qed.

Lemma search_is_some r f content :
  (forall s, is_some (match_at r s false) = f s) ->
  bool_decide (is_Some (search r content)) = occurs f content.
Proof.
  intros H. rewrite bool_decide_is_some. unfold search.
  rewrite <- (search_occurs r f H content 0).
  now destruct (search_from r 0 content false).
Qed.

(** A file qualifies exactly when, somewhere in its text, the path marker
    is followed by blanks or nothing and an opening parenthesis, or the
    marker of GET, POST, PUT or DELETE is followed by a white-space
    character; the markers of the other methods do not count, nor does a
    marker at the end of the text or before another character. *)
Theorem qualification_scan (content : string) :
  _is_jaxrs_resource content = occurs marker_here content.
Proof.
  unfold _is_jaxrs_resource, Pat.jaxrs_patterns. cbn [existsb].
  rewrite (search_is_some _ _ content match_path_marker).
  rewrite !(search_is_some _ _ content (match_method_marker _)).
  rewrite orb_false_r.
  unfold marker_here. cbn [existsb].
  rewrite occurs_orb.
  rewrite (occurs_ext
             (fun x => method_marker_here "@GET" x
                       || (method_marker_here "@POST" x
                           || (method_marker_here "@PUT" x
                               || (method_marker_here "@DELETE" x || false))))
             (fun x => method_marker_here "@GET" x
                       || (method_marker_here "@POST" x
                           || (method_marker_here "@PUT" x
                               || method_marker_here "@DELETE" x))))
    by (intros x; now rewrite orb_false_r).
  now rewrite !occurs_orb.
Qed.

End Qualification.

(** ** The base path of a resource and the paths of its endpoints *)

Section BasePath.

Lemma starts_with_rstrip (c : ascii) (b : string) :
  Str.starts_with (Str.rstrip c b) b = true.
Proof.
  destruct (rstrip_spec c b) as [n [E _]].
  rewrite E at 2. apply starts_with_app.
Qed.

Lemma combine_paths_prefix (cp : option string) (mp : string) :
  Str.starts_with (Str.rstrip "/" (default "" cp)) (_combine_paths cp mp) = true.
Proof.
  unfold _combine_paths.
  destruct cp as [[|a b]|]; cbn [truthy negb default from_option id];
    try (now destruct mp).
  destruct mp as [|c mp]; cbn [truthy negb].
  - apply starts_with_rstrip.
  - apply starts_with_app.
Qed.

(** The path of every endpoint of a discovered resource starts with the
    base path of the resource without its trailing slashes. *)
Theorem endpoint_path_under_base (files : list JavaFile) :
  Forall (fun r =>
            Forall (fun e => Str.starts_with (Str.rstrip "/" (base_path r))
                               (path e) = true)
              (endpoints r))
    (discovered files).
Proof.
  apply List.Forall_forall. intros r Hr.
  apply in_discovered in Hr as [content ->]. cbn [endpoints base_path].
  apply List.Forall_forall. intros e He.
  apply in_extract_endpoints in He as [m [_ He]].
  apply endpoint_of_match_some in He as [h [_ ->]]. cbn [path].
  apply combine_paths_prefix.
Qed.

End BasePath.

(** ** Scanning a text from left to right *)

Section Scan.
Import Re.

Lemma endpoint_of_match_shift content1 content2 base pos m :
  endpoint_of_match content1 base (shift pos m)
  = endpoint_of_match content2 base m.
Proof. reflexivity. Qed.

(** The endpoints of the matches found from any position, with enough fuel,
    are those extracted from the text. *)
Lemma extract_endpoints_at fuel pos s content base :
  2 * Str.len s + 1 < fuel ->
  omap (endpoint_of_match content base)
    (finditer_from fuel Pat.method_pattern pos s false)
  = _extract_endpoints s base.
Proof.
  intros Hf. unfold _extract_endpoints, finditer.
  rewrite finditer_from_shift.
  rewrite (finditer_from_fuel _ fuel (2 * Str.len s + 2) 0 s false) by lia.
  induction (finditer_from (2 * Str.len s + 2) Pat.method_pattern 0 s false)
    as [|m l IH]; [reflexivity|].
  cbn [fmap list_fmap omap list_omap].
  rewrite (endpoint_of_match_shift content s base pos m).
  destruct (endpoint_of_match s base m); cbn [fmap list_fmap] in IH;
    now rewrite IH.
Qed.

(** The extraction goes from left to right: the endpoints of a text that
    starts with annotation blocks and a public method signature are the
    endpoint of that signature, where its last block holds the marker of an
    HTTP method, followed by the endpoints of the text after the signature,
    in that order. *)
Theorem endpoints_left_to_right (bs : list Block) (b : Block) (g : Signature)
    (rest : string) (base : option string) :
  forallb wf_block bs = true -> wf_block b = true -> closed_block b = true ->
  wf_sig g = true ->
  let annotated := render_all bs ++ render b ++ render_sig g in
  _extract_endpoints (annotated ++ rest) base
  = (annotated_endpoint base annotated (render b) g
     ++ _extract_endpoints rest base)%list.
Proof.
  intros Wbs Wb Cb Wg annotated.
  assert (0 < Str.len annotated) as Hlen.
  { unfold annotated. rewrite !len_app. unfold render_sig at 1.
    cbn [append]. rewrite len_cons. lia. }
  unfold _extract_endpoints at 1. unfold finditer.
  replace (2 * Str.len (annotated ++ rest) + 2)
    with (S (2 * Str.len (annotated ++ rest) + 1)) by lia.
  cbn [finditer_from].
  assert (search_from Pat.method_pattern 0 (annotated ++ rest) false
          = Some (mkMatch 0 (0 + Str.len annotated) annotated
                    ((2, sig_name g) :: (1, render b) :: block_captures bs []),
                  rest)) as ->.
  { unfold annotated. rewrite !str_app_assoc.
    rewrite (search_from_hit _ _ _ _ _ _
               (match_at_annotated bs b g rest false Wbs Wb Cb Wg)).
    rewrite <- (str_app_assoc (render b)), <- (str_app_assoc (render_all bs)).
    now rewrite consumed_app. }
  cbn [m_end m_start omap list_omap].
  replace (0 + Str.len annotated =? 0)%nat with false
    by (symmetry; apply Nat.eqb_neq; lia).
  rewrite (extract_endpoints_at _ _ rest _ base) by (rewrite len_app; lia).
  rewrite endpoint_of_annotated. unfold annotated_endpoint.
  now destruct (_extract_http_method (render b)).
Qed.

Lemma endpoints_left_to_right_witness :
  _extract_endpoints sample_two_methods (Some "/u")
  = [ json_endpoint "/u" GET "foo"; json_endpoint "/u" DELETE "remove" ].
Proof.
  unfold sample_two_methods.
  rewrite (endpoints_left_to_right [] (method_block GET NL) sample_signature
             _ (Some "/u") eq_refl eq_refl eq_refl eq_refl).
  vm_compute. reflexivity.
Defined.

End Scan.

(** ** One resource class with one GET method (C3) *)

Section Resource.
Import Re.
















End Resource.
